(** * docs2notion: the document structuring and Markdown rendering engine

    A shallow embedding of the converter class of [src/main.js]
    ([DocsToNotionConverter]): the run formatter, the paragraph classifier,
    the table renderer, the section segmenter, the tab flattener, the page
    renderer and the per-document loop of the folder mode, followed by the
    properties the specification states about them.

    JavaScript strings are sequences of UTF-16 code units; they are modelled
    as lists of code units, so that [trim], [startsWith], [replace] and the
    regular expressions of the page renderer act on exactly the data the
    program sees. *)

From Stdlib Require Import List NArith Bool Arith Lia String Ascii.
From Stdlib Require Import DecimalString DecimalNat.
Import ListNotations.

Set Warnings "-register-all".

(** ** JavaScript strings *)

Module JsString.

(** One UTF-16 code unit. *)
Definition char : Type := N.

Definition jsstring : Type := list char.

(** A literal: every character of the Rocq string is one code unit. *)
Definition str (s : string) : jsstring :=
  map N_of_ascii (list_ascii_of_string s).

Definition LF : char := 10%N.
Definition TAB : char := 9%N.
Definition SP : char := 32%N.
Definition DOT : char := 46%N.
Definition HASH : char := 35%N.

(** The code units [String.prototype.trim] strips: ECMAScript's WhiteSpace
    and LineTerminator productions. *)
Definition isWhiteSpace (c : char) : bool :=
  existsb (N.eqb c)
    [9; 10; 11; 12; 13; 32; 160; 5760; 8232; 8233; 8239; 8287; 12288; 65279]%N
  || ((8192 <=? c)%N && (c <=? 8202)%N).

Fixpoint trimStart (s : jsstring) : jsstring :=
  match s with
  | [] => []
  | c :: s' => if isWhiteSpace c then trimStart s' else s
  end.

Definition trimEnd (s : jsstring) : jsstring := rev (trimStart (rev s)).

(** [s.trim()] *)
Definition trim (s : jsstring) : jsstring := trimEnd (trimStart s).

(** Truthiness of a string value: only the empty string is falsy. *)
Definition truthy (s : jsstring) : bool :=
  match s with [] => false | _ :: _ => true end.

(** [a === b] on strings. *)
Fixpoint eqb (a b : jsstring) : bool :=
  match a, b with
  | [], [] => true
  | x :: a', y :: b' => N.eqb x y && eqb a' b'
  | _, _ => false
  end.

(** [s.startsWith(p)] *)
Fixpoint startsWith (s p : jsstring) {struct p} : bool :=
  match p, s with
  | [], _ => true
  | y :: p', x :: s' => N.eqb x y && startsWith s' p'
  | _ :: _, [] => false
  end.

(** [s.endsWith(p)] *)
Definition endsWith (s p : jsstring) : bool := startsWith (rev s) (rev p).

(** [s.replace(pat, rep)] with a string pattern: the first occurrence of
    [pat] is replaced ([rep] holds no [$], so it is taken literally). *)
Fixpoint replace (pat rep s : jsstring) : jsstring :=
  if startsWith s pat then rep ++ skipn (List.length pat) s
  else match s with
       | [] => []
       | c :: s' => c :: replace pat rep s'
       end.

(** [c.repeat(n)] for a one-unit string. *)
Definition repeat (c : char) (n : nat) : jsstring := List.repeat c n.

(** A number in a template literal: its decimal digits. *)
Definition ofNat (n : nat) : jsstring :=
  str (NilEmpty.string_of_uint (Nat.to_uint n)).

(** [a || b] on possibly-missing strings: [a] when present and non-empty. *)
Definition orElse (a : option jsstring) (b : jsstring) : jsstring :=
  match a with
  | Some (c :: a') => c :: a'
  | _ => b
  end.

(** *** Global regular-expression replacement *)

(** What a regular expression finds at the head of a string: the number of
    units its match takes, and the text that replaces the match. *)
Definition Matcher : Type := jsstring -> option (nat * jsstring).

(** [s.replace(re, ...)] for a regular expression with the [g] flag whose
    matches are never empty: a match is sought at each position from left to
    right; where one is found, its replacement is put out and the search
    resumes behind it; where none is found, the unit is copied. [skip] counts
    the units of the last match that are still to be passed over. *)
Fixpoint replaceAllFrom (m : Matcher) (skip : nat) (s : jsstring) : jsstring :=
  match s with
  | [] => []
  | c :: s' =>
      match skip with
      | S k => replaceAllFrom m k s'
      | 0 =>
          match m s with
          | Some (S len, rep) => rep ++ replaceAllFrom m len s'
          | _ => c :: replaceAllFrom m 0 s'
          end
      end
  end.

Definition replaceAll (m : Matcher) (s : jsstring) : jsstring :=
  replaceAllFrom m 0 s.

(** The number of units of class [p] at the head. *)
Fixpoint runLength (p : char -> bool) (s : jsstring) : nat :=
  match s with
  | [] => 0
  | c :: s' => if p c then S (runLength p s') else 0
  end.

(** [/X{n,}/] for a character class [X] (here [p]), replaced by [rep]: the
    greedy quantifier takes the whole run, which must have [n] units. *)
Definition matchRun (p : char -> bool) (n : nat) (rep : jsstring) : Matcher :=
  fun s => if n <=? runLength p s then Some (runLength p s, rep) else None.

Definition isLF (c : char) : bool := N.eqb c LF.
Definition isDot (c : char) : bool := N.eqb c DOT.
Definition isUpper (c : char) : bool := (65 <=? c)%N && (c <=? 90)%N.
Definition isBlank (c : char) : bool := N.eqb c SP || N.eqb c TAB.

(** [/\.([A-Z])/], replaced by ['. $1']: a period, a space and the capital
    the group has captured. *)
Definition matchPeriodCapital : Matcher :=
  fun s =>
    match s with
    | a :: b :: _ => if isDot a && isUpper b then Some (2, [DOT; SP; b]) else None
    | _ => None
    end.

(** [.replace(/\n{3,}/g, '\n\n')] *)
Definition collapseNewlines (s : jsstring) : jsstring :=
  replaceAll (matchRun isLF 3 [LF; LF]) s.

(** [.replace(/\.([A-Z])/g, '. $1')] *)
Definition spaceAfterPeriods (s : jsstring) : jsstring :=
  replaceAll matchPeriodCapital s.

(** [.replace(/[ \t]{2,}/g, ' ')] *)
Definition collapseBlanks (s : jsstring) : jsstring :=
  replaceAll (matchRun isBlank 2 [SP]) s.

End JsString.

Import JsString.

(** ** The document tree of the Google Docs API, as far as the converter
    reads it. A field the program tests for presence is an [option]. *)

Record Link := { url : option jsstring }.

Record TextStyle := {
  bold : bool;
  italic : bool;
  underline : bool;
  strikethrough : bool;
  link : option Link
}.

Record TextRun := {
  run_content : option jsstring;
  textStyle : option TextStyle
}.

Record ParagraphElement := { textRun : option TextRun }.

Record ParagraphStyle := { namedStyleType : option jsstring }.

Record ListProperties := { list_type : option jsstring }.

Record Bullet := {
  listProperties : option ListProperties;
  nestingLevel : option nat
}.

Record Paragraph := {
  elements : option (list ParagraphElement);
  paragraphStyle : option ParagraphStyle;
  bullet : option Bullet
}.

(** A structural element carries a paragraph, a table, or something the
    converter does not look at (a section break, a table of contents). Table
    cells hold structural elements again. *)
Inductive StructuralElement : Type :=
| ElemParagraph (paragraph : Paragraph)
| ElemTable (table : Table)
| ElemOther
with Table : Type :=
| MkTable (tableRows : option (list TableRow))
with TableRow : Type :=
| MkTableRow (tableCells : option (list TableCell))
with TableCell : Type :=
| MkTableCell (cell_content : option (list StructuralElement)).

Definition tableRows (t : Table) : option (list TableRow) :=
  match t with MkTable rows => rows end.

Definition tableCells (r : TableRow) : option (list TableCell) :=
  match r with MkTableRow cells => cells end.

Definition cell_content (c : TableCell) : option (list StructuralElement) :=
  match c with MkTableCell els => els end.

Record Body := { body_content : option (list StructuralElement) }.

Record TabProperties := { tab_title : option jsstring }.

Record DocumentTab := { documentTab_body : option Body }.

Inductive Tab : Type :=
| MkTab (tabProperties : option TabProperties)
        (documentTab : option DocumentTab)
        (tab_body : option Body)
        (childTabs : option (list Tab)).

Definition tabProperties (t : Tab) : option TabProperties :=
  match t with MkTab tp _ _ _ => tp end.

Definition documentTab (t : Tab) : option DocumentTab :=
  match t with MkTab _ dt _ _ => dt end.

Definition tab_body (t : Tab) : option Body :=
  match t with MkTab _ _ b _ => b end.

Definition childTabs (t : Tab) : option (list Tab) :=
  match t with MkTab _ _ _ ct => ct end.

Record GoogleDoc := {
  doc_title : option jsstring;
  tabs : option (list Tab);
  doc_body : option Body
}.

(** ** Sections and pages *)

Record Section := {
  title : jsstring;
  content : jsstring;
  level : nat;
  parentTab : jsstring;
  sourceDocument : option jsstring
}.

Record NotionPage := {
  page_title : jsstring;
  page_content : jsstring;
  page_parentTab : jsstring;
  page_sourceDocument : option jsstring
}.

(** ** Run formatter *)

(** [applyTextFormatting(text, textStyle)] *)
Definition applyTextFormatting (text : jsstring) (st : TextStyle) : jsstring :=
  let formatted := text in
  let formatted :=
    if bold st then str "**" ++ formatted ++ str "**" else formatted in
  let formatted :=
    if italic st then str "*" ++ formatted ++ str "*" else formatted in
  let formatted :=
    if underline st then str "<u>" ++ formatted ++ str "</u>" else formatted in
  let formatted :=
    if strikethrough st then str "~~" ++ formatted ++ str "~~" else formatted in
  match link st with
  | Some {| url := Some (c :: u) |} =>
      str "[" ++ formatted ++ str "](" ++ (c :: u) ++ str ")"
  | _ => formatted
  end.

(** ** Paragraph text *)

(** [extractTextFromParagraph(paragraph)]: the plain text of the runs. *)
Definition extractTextFromParagraph (p : Paragraph) : jsstring :=
  match elements p with
  | Some els =>
      fold_left
        (fun text el =>
           match textRun el with
           | Some {| run_content := Some (c :: t) |} => text ++ c :: t
           | _ => text
           end)
        els []
  | None => []
  end.

(** [getBulletInfo(paragraph)] *)
Definition getBulletInfo (p : Paragraph) : jsstring :=
  match bullet p with
  | Some b =>
      let nesting := match nestingLevel b with Some n => n | None => 0 end in
      let ordered :=
        match listProperties b with
        | Some {| list_type := Some t |} => eqb t (str "ORDERED")
        | _ => false
        end in
      if ordered then List.concat (List.repeat (str "  ") nesting) ++ str "1. "
      else List.concat (List.repeat (str "  ") nesting) ++ str "- "
  | None => []
  end.

(** [extractFormattedTextFromParagraph(paragraph)] *)
Definition extractFormattedTextFromParagraph (p : Paragraph) : jsstring :=
  let formattedText := getBulletInfo p in
  match elements p with
  | Some els =>
      fold_left
        (fun formattedText el =>
           match textRun el with
           | Some {| run_content := Some (c :: t); textStyle := ts |} =>
               let text :=
                 match ts with
                 | Some st => applyTextFormatting (c :: t) st
                 | None => c :: t
                 end in
               formattedText ++ text
           | _ => formattedText
           end)
        els formattedText
  | None => formattedText
  end.

(** ** Paragraph classifier *)

(** [getHeadingLevel(paragraph)] *)
Definition getHeadingLevel (p : Paragraph) : nat :=
  match paragraphStyle p with
  | Some {| namedStyleType := Some (c :: s) |} =>
      let styleType := c :: s in
      if eqb styleType (str "HEADING_1") then 1
      else if eqb styleType (str "HEADING_2") then 2
      else if eqb styleType (str "HEADING_3") then 3
      else if eqb styleType (str "HEADING_4") then 4
      else if eqb styleType (str "HEADING_5") then 5
      else if eqb styleType (str "HEADING_6") then 6
      else if eqb styleType (str "TITLE") then 1
      else if eqb styleType (str "SUBTITLE") then 2
      else 0
  | _ => 0
  end.

(** ** Table renderer *)

(** The text of one cell: the plain text of its paragraphs, trimmed, between
    a space and [" |"]. *)
Definition renderCell (cell : TableCell) : jsstring :=
  let cellContent :=
    match cell_content cell with
    | Some els =>
        fold_left
          (fun cellContent el =>
             match el with
             | ElemParagraph p => cellContent ++ extractTextFromParagraph p
             | _ => cellContent
             end)
          els []
    | None => []
    end in
  str " " ++ trim cellContent ++ str " |".

(** One pass of the row loop at index [i]: the row, and behind the first row
    the header separator. *)
Definition renderRow (i : nat) (row : TableRow) : jsstring :=
  let rowMarkdown :=
    match tableCells row with
    | Some cells =>
        fold_left (fun rowMarkdown cell => rowMarkdown ++ renderCell cell)
          cells (str "|")
    | None => str "|"
    end in
  let separator :=
    match tableCells row with
    | Some cells =>
        if i =? 0
        then str "|" ++ List.concat (List.repeat (str " --- |") (List.length cells))
               ++ [LF]
        else []
    | None => []
    end in
  rowMarkdown ++ [LF] ++ separator.

Fixpoint renderRows (i : nat) (rows : list TableRow) : jsstring :=
  match rows with
  | [] => []
  | row :: rows' => renderRow i row ++ renderRows (S i) rows'
  end.

(** [extractTableFromElement(table)] *)
Definition extractTableFromElement (t : Table) : jsstring :=
  match tableRows t with
  | Some rows => renderRows 0 rows
  | None => []
  end.

(** ** Section segmenter *)

(** The three variables the loop of [extractSectionsFromBody] updates. *)
Record SegState := {
  sections : list Section;
  currentSection : option Section;
  allContent : jsstring
}.

Definition initialState : SegState :=
  {| sections := []; currentSection := None; allContent := [] |}.

Definition newSection (t c : jsstring) (l : nat) (parentName : jsstring)
  : Section :=
  {| title := t; content := c; level := l; parentTab := parentName;
     sourceDocument := None |}.

(** [currentSection.content += more] *)
Definition appendContent (s : Section) (more : jsstring) : Section :=
  {| title := title s; content := content s ++ more; level := level s;
     parentTab := parentTab s; sourceDocument := sourceDocument s |}.

(** [if (currentSection && currentSection.content.trim()) sections.push(currentSection)] *)
Definition pushCurrent (secs : list Section) (cur : option Section)
  : list Section :=
  match cur with
  | Some cs => if truthy (trim (content cs)) then secs ++ [cs] else secs
  | None => secs
  end.

(** One pass of the loop over [body.content]. *)
Definition segmentElement (parentName : jsstring) (st : SegState)
  (element : StructuralElement) : SegState :=
  match element with
  | ElemParagraph paragraph =>
      let formattedText := extractFormattedTextFromParagraph paragraph in
      if negb (truthy (trim formattedText)) then st
      else
        let allContent' := allContent st ++ formattedText ++ [LF] in
        let headingLevel := getHeadingLevel paragraph in
        if 0 <? headingLevel then
          {| sections := pushCurrent (sections st) (currentSection st);
             currentSection :=
               Some (newSection (trim formattedText) [] headingLevel parentName);
             allContent := allContent' |}
        else
          match currentSection st with
          | Some cs =>
              {| sections := sections st;
                 currentSection := Some (appendContent cs (formattedText ++ [LF]));
                 allContent := allContent' |}
          | None =>
              {| sections := sections st;
                 currentSection :=
                   Some (newSection parentName (formattedText ++ [LF]) 1 parentName);
                 allContent := allContent' |}
          end
  | ElemTable table =>
      let tableMarkdown := extractTableFromElement table in
      let allContent' := allContent st ++ tableMarkdown ++ [LF; LF] in
      match currentSection st with
      | Some cs =>
          {| sections := sections st;
             currentSection := Some (appendContent cs (tableMarkdown ++ [LF; LF]));
             allContent := allContent' |}
      | None =>
          {| sections := sections st;
             currentSection :=
               Some (newSection parentName (tableMarkdown ++ [LF; LF]) 1 parentName);
             allContent := allContent' |}
      end
  | ElemOther => st
  end.

(** The state when the loop is over. *)
Definition segmentLoop (parentName : jsstring) (els : list StructuralElement)
  : SegState :=
  fold_left (segmentElement parentName) els initialState.

(** The sections the traversal has emitted once the final section is added. *)
Definition traversalSections (parentName : jsstring)
  (els : list StructuralElement) : list Section :=
  let st := segmentLoop parentName els in
  pushCurrent (sections st) (currentSection st).

(** The default section of a body that produced none. *)
Definition addFallback (parentName : jsstring) (secs : list Section)
  (all : jsstring) : list Section :=
  if (List.length secs =? 0) && truthy (trim all)
  then secs ++ [newSection parentName (trim all) 1 parentName]
  else secs.

(** A single section named after a tab placeholder takes the name of the
    document instead. *)
Definition renameSingleTab (parentName : jsstring) (secs : list Section)
  : list Section :=
  match secs with
  | [s] =>
      if eqb (title s) parentName && startsWith parentName (str "Tab ")
      then
        let meaningfulName :=
          orElse (sourceDocument s)
            (replace (str "Tab ") (str "Document ") parentName) in
        [ {| title := meaningfulName; content := content s; level := level s;
             parentTab := parentTab s; sourceDocument := sourceDocument s |} ]
      else secs
  | _ => secs
  end.

(** [extractSectionsFromBody(body, parentName)] *)
Definition extractSectionsFromBody (body : option Body) (parentName : jsstring)
  : list Section :=
  match body with
  | Some {| body_content := Some els |} =>
      let st := segmentLoop parentName els in
      let secs := pushCurrent (sections st) (currentSection st) in
      let secs := addFallback parentName secs (allContent st) in
      renameSingleTab parentName secs
  | _ => []
  end.

(** ** Tab flattener *)

(** [tab.tabProperties?.title || `Tab ${tabIndex + 1}`] *)
Definition tabTitle (tab : Tab) (tabIndex : nat) : jsstring :=
  orElse
    match tabProperties tab with
    | Some tp => tab_title tp
    | None => None
    end
    (str "Tab " ++ ofNat (tabIndex + 1)).

(** [(tabTitle === 'Tab 1' && documentTitle) ? documentTitle : tabTitle] *)
Definition effectiveTabName (tab : Tab) (tabIndex : nat)
  (documentTitle : option jsstring) : jsstring :=
  if eqb (tabTitle tab tabIndex) (str "Tab 1")
  then orElse documentTitle (tabTitle tab tabIndex)
  else tabTitle tab tabIndex.

(** The body a tab carries, under [documentTab] or directly. *)
Definition tabBody (tab : Tab) : option Body :=
  match documentTab tab with
  | Some {| documentTab_body := Some b |} => Some b
  | _ => tab_body tab
  end.

(** [extractSectionsFromTab(tab, tabIndex, documentTitle)] *)
Definition extractSectionsFromTab (tab : Tab) (tabIndex : nat)
  (documentTitle : option jsstring) : list Section :=
  match tabBody tab with
  | Some b => extractSectionsFromBody (Some b) (effectiveTabName tab tabIndex documentTitle)
  | None => []
  end.

(** The main tabs, each followed by its child tabs. *)
Definition collectTabs (mainTabs : list Tab) : list Tab :=
  flat_map
    (fun mainTab =>
       mainTab ::
       match childTabs mainTab with
       | Some children => children
       | None => []
       end)
    mainTabs.

(** The loop over [allTabs], from index [tabIndex] on. *)
Fixpoint tabsLoop (documentTitle : option jsstring) (tabIndex : nat)
  (allTabs : list Tab) : list Section :=
  match allTabs with
  | [] => []
  | tab :: rest =>
      extractSectionsFromTab tab tabIndex documentTitle
        ++ tabsLoop documentTitle (S tabIndex) rest
  end.

(** [extractSectionsFromGoogleDoc(doc)] *)
Definition extractSectionsFromGoogleDoc (doc : GoogleDoc) : list Section :=
  match tabs doc with
  | Some (t :: ts) => tabsLoop (doc_title doc) 0 (collectTabs (t :: ts))
  | _ =>
      match doc_body doc with
      | Some b =>
          extractSectionsFromBody (Some b) (orElse (doc_title doc) (str "Document"))
      | None => []
      end
  end.

(** ** Page renderer *)

(** The clean-up of the content inside [createNotionPageFromSection]. *)
Definition normalizeContent (c : jsstring) : jsstring :=
  trim (collapseBlanks (spaceAfterPeriods (collapseNewlines (trim c)))).

(** [createNotionPageFromSection(section)] *)
Definition createNotionPageFromSection (section : Section) : NotionPage :=
  let headerPrefix :=
    repeat HASH (Nat.min (if level section =? 0 then 1 else level section) 6) in
  let markdownContent := headerPrefix ++ str " " ++ title section ++ [LF; LF] in
  let markdownContent := markdownContent ++ normalizeContent (content section) in
  let markdownContent :=
    if negb (endsWith markdownContent [LF]) then markdownContent ++ [LF]
    else markdownContent in
  {| page_title := title section;
     page_content := markdownContent;
     page_parentTab := parentTab section;
     page_sourceDocument := sourceDocument section |}.

(** [createNotionPagesFromSections(sections)]. The [catch] branch of the
    source is dead here: on a section with a string title, a string content
    and a natural level nothing inside the [try] throws. *)
Definition createNotionPagesFromSections (secs : list Section)
  : list NotionPage :=
  map createNotionPageFromSection secs.

(** ** Folder mode *)

(** A member of the folder, as [listDocsInFolder] returns it. *)
Record DriveFile := { id : jsstring; name : jsstring }.

(** An exception, with the [message] the handlers print. *)
Record JsError := { message : jsstring }.

Inductive result (A : Type) : Type :=
| Returned (a : A)
| Thrown (e : JsError).

Arguments Returned {A} a.
Arguments Thrown {A} e.

(** The four requests [processDocumentById] tries in turn. *)
Inductive FetchMethod : Type :=
| RequestIncludeTabs     (* gapi.client.request, includeTabsContent *)
| DocumentsGetAllFields  (* gapi.client.docs.documents.get, fields: '*' *)
| RequestAllFields       (* gapi.client.request, ?fields=* *)
| DocumentsGet.          (* gapi.client.docs.documents.get *)

(** The remote side: what each request answers for a document id. *)
Definition DocsApi : Type := FetchMethod -> jsstring -> result GoogleDoc.

(** The [try]/[catch] ladder at the top of [processDocumentById]: the first
    request that answers wins, the error of the last one propagates. *)
Definition fetchDocument (api : DocsApi) (docId : jsstring) : result GoogleDoc :=
  match api RequestIncludeTabs docId with
  | Returned doc => Returned doc
  | Thrown _ =>
      match api DocumentsGetAllFields docId with
      | Returned doc => Returned doc
      | Thrown _ =>
          match api RequestAllFields docId with
          | Returned doc => Returned doc
          | Thrown _ => api DocumentsGet docId
          end
      end
  end.

(** [section.sourceDocument = finalDocName] *)
Definition setSourceDocument (finalDocName : jsstring) (s : Section) : Section :=
  {| title := title s; content := content s; level := level s;
     parentTab := parentTab s; sourceDocument := Some finalDocName |}.

(** [processDocumentById(docId, docName)] *)
Definition processDocumentById (api : DocsApi) (docId : jsstring)
  (docName : option jsstring) : result (list Section) :=
  match fetchDocument api docId with
  | Thrown e => Thrown e
  | Returned doc =>
      let secs := extractSectionsFromGoogleDoc doc in
      let finalDocName :=
        orElse docName (orElse (doc_title doc) (str "Document " ++ docId)) in
      Returned (map (setSourceDocument finalDocName) secs)
  end.

Definition emptyDocumentSection (doc : DriveFile) : Section :=
  {| title := name doc;
     content :=
       str "This document appears to be empty or contains no recognizable content.";
     level := 1;
     parentTab := str "Document";
     sourceDocument := Some (name doc) |}.

Definition errorContent (e : JsError) : jsstring :=
  str "Failed to process this document: " ++ message e ++ [LF; LF]
    ++ str "This could be due to:" ++ [LF]
    ++ str "- Document access restrictions" ++ [LF]
    ++ str "- Document format not supported" ++ [LF]
    ++ str "- Network connectivity issues" ++ [LF; LF]
    ++ str "Please check the document permissions and try again.".

Definition errorSection (doc : DriveFile) (e : JsError) : Section :=
  {| title := str "Error - " ++ name doc;
     content := errorContent e;
     level := 1;
     parentTab := str "Error";
     sourceDocument := Some (name doc) |}.

(** What one pass of the document loop of [processFolderWithGoogleAPI]
    pushes onto [allSections]. *)
Definition documentSections (api : DocsApi) (doc : DriveFile) : list Section :=
  match processDocumentById api (id doc) (Some (name doc)) with
  | Returned [] => [emptyDocumentSection doc]
  | Returned docSections => docSections
  | Thrown e => [errorSection doc e]
  end.

(** [allSections] when the document loop is over. *)
Definition collectAllSections (api : DocsApi) (docs : list DriveFile)
  : list Section :=
  fold_left (fun allSections doc => allSections ++ documentSections api doc)
    docs [].

(** [processFolderWithGoogleAPI], from the listing of the folder to the
    pages: sign-in and listing come before and hand over [docs], the
    packaging of the pages into files comes after. *)
Definition processFolderWithGoogleAPI (api : DocsApi) (docs : list DriveFile)
  : result (list NotionPage) :=
  if List.length docs =? 0
  then Thrown {| message := str "No Google Docs found in the specified folder" |}
  else
    let allSections := collectAllSections api docs in
    if List.length allSections =? 0
    then Thrown {| message :=
                     str "No content sections found in any of the documents" |}
    else Returned (createNotionPagesFromSections allSections).

(** ** Building blocks for test inputs *)

Definition plainRun (text : jsstring) : ParagraphElement :=
  {| textRun := Some {| run_content := Some text; textStyle := None |} |}.

(** A paragraph of one unformatted run, with a named style or none. *)
Definition styledParagraph (style : option jsstring) (text : jsstring)
  : Paragraph :=
  {| elements := Some [plainRun text];
     paragraphStyle :=
       match style with
       | Some s => Some {| namedStyleType := Some s |}
       | None => None
       end;
     bullet := None |}.

Definition textElement (text : string) : StructuralElement :=
  ElemParagraph (styledParagraph (Some (str "NORMAL_TEXT")) (str text)).

Definition headingElement (style text : string) : StructuralElement :=
  ElemParagraph (styledParagraph (Some (str style)) (str text)).

Definition bodyOf (els : list StructuralElement) : option Body :=
  Some {| body_content := Some els |}.

Definition textCell (text : string) : TableCell :=
  MkTableCell (Some [textElement text]).

(** ** Vocabulary of the statements *)

(** What one element adds to the text the segmenter has seen: a paragraph
    its formatted text and a newline (nothing when the text is blank), a
    table its markdown and two newlines. *)
Definition elementContent (el : StructuralElement) : jsstring :=
  match el with
  | ElemParagraph p =>
      if truthy (trim (extractFormattedTextFromParagraph p))
      then extractFormattedTextFromParagraph p ++ [LF]
      else []
  | ElemTable t => extractTableFromElement t ++ [LF; LF]
  | ElemOther => []
  end.

(** All seen content, concatenated in traversal order. *)
Definition seenContent (els : list StructuralElement) : jsstring :=
  flat_map elementContent els.

(** A paragraph that cuts a section: a heading style and a text that is not
    blank. *)
Definition isHeading (p : Paragraph) : bool :=
  (0 <? getHeadingLevel p) && truthy (trim (extractFormattedTextFromParagraph p)).

(** An element that cuts no section. *)
Definition isBodyElement (el : StructuralElement) : bool :=
  match el with
  | ElemParagraph p => negb (isHeading p)
  | _ => true
  end.

(** An element the loop passes over without a trace. *)
Definition isSkipped (el : StructuralElement) : bool :=
  match el with
  | ElemParagraph p => negb (truthy (trim (extractFormattedTextFromParagraph p)))
  | ElemTable _ => false
  | ElemOther => true
  end.

(** A heading with the elements up to the next heading. *)
Definition HeadingGroup : Type := (Paragraph * list StructuralElement)%type.

Definition groupElements (g : HeadingGroup) : list StructuralElement :=
  ElemParagraph (fst g) :: snd g.

Definition flattenGroups (gs : list HeadingGroup) : list StructuralElement :=
  flat_map groupElements gs.

(** The group starts with a heading and the body under it is not blank. *)
Definition groupHasBody (g : HeadingGroup) : bool :=
  isHeading (fst g) && forallb isBodyElement (snd g)
  && truthy (trim (seenContent (snd g))).

Definition headingTitle (g : HeadingGroup) : jsstring :=
  trim (extractFormattedTextFromParagraph (fst g)).

Definition sectionOfGroup (parentName : jsstring) (g : HeadingGroup) : Section :=
  newSection (headingTitle g) (seenContent (snd g)) (getHeadingLevel (fst g))
    parentName.

(** The label a lone section titled like its tab placeholder ends up with. *)
Definition relabel (parentName : jsstring) : jsstring :=
  if startsWith parentName (str "Tab ")
  then str "Document " ++ skipn 4 parentName
  else parentName.

(** A formatting wrap that applies when its flag is set. *)
Definition wrapIf (flag : bool) (l r : string) (x : jsstring) : jsstring :=
  if flag then str l ++ x ++ str r else x.



(** A tab without a usable title of its own. *)
Definition isUntitled (tab : Tab) : bool :=
  match tabProperties tab with
  | Some {| tab_title := Some (_ :: _) |} => false
  | _ => true
  end.

(** The replacement of the runs of a class [p] as a scan that carries the
    current run: the run is replaced by [rep] when it has [n] units and kept
    otherwise. *)
Definition flushRun (n : nat) (rep run : jsstring) : jsstring :=
  if n <=? List.length run then rep else run.

Fixpoint collapseRuns (p : char -> bool) (n : nat) (rep run s : jsstring)
  : jsstring :=
  match s with
  | [] => flushRun n rep run
  | c :: s' =>
      if p c then collapseRuns p n rep (run ++ [c]) s'
      else flushRun n rep run ++ c :: collapseRuns p n rep [] s'
  end.

(** The insertion of a space between a period and a capital as a scan with
    a look-ahead of two units. *)
Fixpoint scanPeriods (s : jsstring) : jsstring :=
  match s with
  | [] => []
  | a :: s' =>
      match s' with
      | b :: s'' =>
          if isDot a && isUpper b then a :: SP :: b :: scanPeriods s''
          else a :: scanPeriods s'
      | [] => [a]
      end
  end.

(** No run of [n] or more units of class [p], [k] of them being already
    behind. *)
Fixpoint runsBelow (p : char -> bool) (n k : nat) (s : jsstring) : bool :=
  match s with
  | [] => true
  | c :: s' =>
      if p c then (S k <? n) && runsBelow p n (S k) s'
      else runsBelow p n 0 s'
  end.

(** No period directly before a capital; [d] tells whether a period is
    already behind. *)
Fixpoint noPeriodCapital (d : bool) (s : jsstring) : bool :=
  match s with
  | [] => true
  | c :: s' => negb (d && isUpper c) && noPeriodCapital (isDot c) s'
  end.

(** The last line of the content is empty / the first line is empty. *)
Definition endsWithBlankLine (c : jsstring) : bool := endsWith c [LF; LF].
Definition startsWithBlankLine (c : jsstring) : bool := startsWith c [LF].

(** The number of heading paragraphs among the elements. *)
Definition headingCount (els : list StructuralElement) : nat :=
  List.length
    (filter (fun el => match el with
                       | ElemParagraph p => isHeading p
                       | _ => false
                       end) els).

(** The content ends in a newline. *)
Definition endsInNewline (c : jsstring) : Prop := exists c', c = c' ++ [LF].

(** What holds of the sections while the loop runs: a closed section has
    content that is not blank and ends in a newline; the open one is empty
    or ends in a newline. *)
Definition closedOk (s : Section) : Prop :=
  truthy (trim (content s)) = true /\ endsInNewline (content s).

Definition openOk (cur : option Section) : Prop :=
  forall cs, cur = Some cs -> content cs = [] \/ endsInNewline (content cs).

(** What the clean-up of the page renderer establishes: no white space at
    the ends, no three newlines in a row, no period directly before a
    capital, no two blanks in a row. *)
Definition normalForm (s : jsstring) : Prop :=
  trim s = s
  /\ runsBelow isLF 3 0 s = true
  /\ noPeriodCapital false s = true
  /\ runsBelow isBlank 2 0 s = true.

(** ** Test inputs *)

(** Scenario A of the specification. *)
Definition scenarioA : list StructuralElement :=
  [ textElement "Intro text";
    headingElement "HEADING_1" "Setup";
    textElement "Step one";
    headingElement "HEADING_2" "Details";
    textElement "More info" ].


Definition scenarioD_document (heading text : string) : GoogleDoc :=
  {| doc_title := Some (str "Untitled");
     tabs := None;
     doc_body := bodyOf [headingElement "HEADING_1" heading; textElement text] |}.


(** A heading directly followed by the next heading. *)
Definition headingWithoutBody : list StructuralElement :=
  [ headingElement "HEADING_1" "Setup";
    headingElement "HEADING_2" "Details";
    textElement "More info" ].

(** Text before the only heading. *)
Definition textBeforeHeading : list StructuralElement :=
  [ textElement "Intro text";
    headingElement "HEADING_1" "Setup";
    textElement "Step one" ].

(** A heading followed by a table without rows: nothing of it makes a
    section of its own. *)
Definition headingAndEmptyTable : list StructuralElement :=
  [ headingElement "HEADING_1" "Overview"; ElemTable (MkTable (Some [])) ].

(** A heading followed by a table of two rows and two columns. *)
Definition headingAndTable : list StructuralElement :=
  [ headingElement "HEADING_1" "Pricing";
    ElemTable
      (MkTable
         (Some [ MkTableRow (Some [textCell "Plan"; textCell "Price"]);
                 MkTableRow (Some [textCell "Basic"; textCell "0"]) ])) ].

(** A heading that reads like the placeholder label of its tab. *)
Definition headingNamedLikeTab : list StructuralElement :=
  [ headingElement "HEADING_1" "Tab 2"; textElement "Step one" ].

(** Two headings, each with a paragraph under it. *)
Definition twoGroups : list HeadingGroup :=
  [ (styledParagraph (Some (str "HEADING_1")) (str "Setup"),
     [textElement "Step one"]);
    (styledParagraph (Some (str "HEADING_2")) (str "Details"),
     [textElement "More info"]) ].

(** * Further functions of the converter *)

(** ** Share links *)

Definition HYPHEN : char := 45%N.
Definition UNDERSCORE : char := 95%N.

Definition isLower (c : char) : bool := (97 <=? c)%N && (c <=? 122)%N.
Definition isDigit (c : char) : bool := (48 <=? c)%N && (c <=? 57)%N.

(** The class [[a-zA-Z0-9-_]] of the four link patterns. *)
Definition isIdChar (c : char) : bool :=
  isLower c || isUpper c || isDigit c || N.eqb c HYPHEN || N.eqb c UNDERSCORE.

(** [s.match(re)] for a regular expression without the [g] flag: the match
    at the leftmost position that has one; [m] tells what the expression
    finds at the head of a string. *)
Fixpoint firstMatch {A : Type} (m : jsstring -> option A) (s : jsstring)
  : option A :=
  match m s with
  | Some a => Some a
  | None =>
      match s with
      | [] => None
      | _ :: s' => firstMatch m s'
      end
  end.

(** The literal [lit] followed by the group [([a-zA-Z0-9-_]+)], at the head:
    the group takes the whole run of units of the class and is the result. *)
Definition matchIdAfter (lit s : jsstring) : option jsstring :=
  if startsWith s lit then
    let rest := skipn (List.length lit) s in
    if 1 <=? runLength isIdChar rest
    then Some (firstn (runLength isIdChar rest) rest)
    else None
  else None.

(** [extractDocId(url)], on [/\/document\/d\/([a-zA-Z0-9-_]+)/] *)
Definition extractDocId (url : jsstring) : result jsstring :=
  match firstMatch (matchIdAfter (str "/document/d/")) url with
  | Some id => Returned id
  | None => Thrown {| message := str "Invalid Google Docs URL format" |}
  end.

(** [validateGoogleDocsUrl(url)], on
    [/^https:\/\/docs\.google\.com\/document\/d\/[a-zA-Z0-9-_]+/] *)
Definition validateGoogleDocsUrl (url : jsstring) : bool :=
  match matchIdAfter (str "https://docs.google.com/document/d/") url with
  | Some _ => true
  | None => false
  end.

(** [validateGoogleDriveFolderUrl(url)], on
    [/^https:\/\/drive\.google\.com\/drive\/folders\/[a-zA-Z0-9-_]+/] *)
Definition validateGoogleDriveFolderUrl (url : jsstring) : bool :=
  match matchIdAfter (str "https://drive.google.com/drive/folders/") url with
  | Some _ => true
  | None => false
  end.

(** [extractFolderId(url)], on [/\/folders\/([a-zA-Z0-9-_]+)/] *)
Definition extractFolderId (url : jsstring) : result jsstring :=
  match firstMatch (matchIdAfter (str "/folders/")) url with
  | Some id => Returned id
  | None => Thrown {| message := str "Invalid Google Drive folder URL format" |}
  end.

(** ** Markdown files *)

Record MarkdownFile := { file_name : jsstring; file_content : jsstring }.

(** The class [[a-zA-Z0-9\s-]]; [\s] is the white space [trim] strips. *)
Definition isTitleChar (c : char) : bool :=
  isLower c || isUpper c || isDigit c || isWhiteSpace c || N.eqb c HYPHEN.

(** One unit of class [p] at the head, replaced by [rep]. *)
Definition matchUnit (p : char -> bool) (rep : jsstring) : Matcher :=
  fun s =>
    match s with
    | c :: _ => if p c then Some (1, rep) else None
    | [] => None
    end.

(** [s.toLowerCase()] on ASCII units: a capital becomes its small letter.
    The converter calls it behind the two replacements of [cleanTitle],
    which leave ASCII letters, digits and hyphens only. *)
Definition toLowerCase (s : jsstring) : jsstring :=
  map (fun c => if isUpper c then (c + 32)%N else c) s.

(** [title.replace(/[^a-zA-Z0-9\s-]/g, '').replace(/\s+/g, '-').toLowerCase()] *)
Definition cleanTitle (t : jsstring) : jsstring :=
  toLowerCase
    (replaceAll (matchRun isWhiteSpace 1 [HYPHEN])
       (replaceAll (matchUnit (fun c => negb (isTitleChar c)) []) t)).

(** The footer of a file; [today] is [new Date().toLocaleDateString()]. *)
Definition footer (today : jsstring) : jsstring :=
  [LF; LF] ++ str "---" ++ [LF; LF]
    ++ str "*Converted from Google Docs to Notion on " ++ today ++ str "*".

(** [createMarkdownFiles(pages)] *)
Definition createMarkdownFiles (today : jsstring) (pages : list NotionPage)
  : list MarkdownFile :=
  fold_left
    (fun files page =>
       if negb (truthy (page_title page)) || eqb (trim (page_title page)) []
       then files
       else
         files ++
         [ {| file_name := cleanTitle (page_title page) ++ str ".md";
              file_content := page_content page ++ footer today |} ])
    pages [].

(** ** Single-document mode *)

(** [processWithGoogleAPI(docId)], from the requests for the document to the
    files: sign-in comes before, the download after. *)
Definition processWithGoogleAPI (api : DocsApi) (today docId : jsstring)
  : result (list MarkdownFile) :=
  match fetchDocument api docId with
  | Thrown e => Thrown e
  | Returned doc =>
      let secs := extractSectionsFromGoogleDoc doc in
      if List.length secs =? 0
      then Thrown {| message := str "No content sections found in the document" |}
      else Returned (createMarkdownFiles today (createNotionPagesFromSections secs))
  end.

(** ** Files of a folder *)

(** The object [documentGroups] starts as [{}]: its own properties are kept
    in the order of their creation, and it inherits those of
    [Object.prototype], whose names follow. *)
Definition Groups : Type := list (jsstring * list NotionPage).

Definition objectPrototypeNames : list jsstring :=
  map str
    [ "constructor"; "__defineGetter__"; "__defineSetter__"; "hasOwnProperty";
      "__lookupGetter__"; "__lookupSetter__"; "isPrototypeOf";
      "propertyIsEnumerable"; "toString"; "valueOf"; "__proto__";
      "toLocaleString" ]%string.

(** The own property [k], if there is one. *)
Fixpoint getOwn (k : jsstring) (g : Groups) : option (list NotionPage) :=
  match g with
  | [] => None
  | (k', v) :: g' => if eqb k' k then Some v else getOwn k g'
  end.

(** [documentGroups[k].push(page)] for an own property [k]. *)
Fixpoint pushOwn (k : jsstring) (page : NotionPage) (g : Groups) : Groups :=
  match g with
  | [] => []
  | (k', v) :: g' =>
      if eqb k' k then (k', v ++ [page]) :: g' else (k', v) :: pushOwn k page g'
  end.

(** [page.sourceDocument || 'Unknown Document'] *)
Definition sourceOf (page : NotionPage) : jsstring :=
  orElse (page_sourceDocument page) (str "Unknown Document").

(** [!page.title || page.title.trim() === ''] *)
Definition hasNoTitle (page : NotionPage) : bool :=
  negb (truthy (page_title page)) || eqb (trim (page_title page)) [].

(** One pass of the grouping loop. A source name that [Object.prototype]
    defines reads as a value that is not an array: the test for a missing
    group fails and the call of [push] throws [notAFunction], the TypeError
    of the engine. *)
Definition groupPage (notAFunction : JsError) (groups : result Groups)
  (page : NotionPage) : result Groups :=
  match groups with
  | Thrown e => Thrown e
  | Returned g =>
      if hasNoTitle page then Returned g
      else
        match getOwn (sourceOf page) g with
        | Some _ => Returned (pushOwn (sourceOf page) page g)
        | None =>
            if existsb (eqb (sourceOf page)) objectPrototypeNames
            then Thrown notAFunction
            else Returned (g ++ [(sourceOf page, [page])])
        end
  end.

(** The value of the decimal digits [s] behind [acc]. *)
Fixpoint digitsValue (acc : N) (s : jsstring) : option N :=
  match s with
  | [] => Some acc
  | c :: s' =>
      if isDigit c then digitsValue (acc * 10 + (c - 48))%N s' else None
  end.

(** A property name that is an array index: the canonical decimal form of
    an integer from 0 to 2^32 - 2. *)
Definition arrayIndex (k : jsstring) : option N :=
  match k with
  | [] => None
  | c :: rest =>
      if N.eqb c 48 then match rest with [] => Some 0%N | _ :: _ => None end
      else
        match digitsValue 0 k with
        | Some v => if (v <=? 4294967294)%N then Some v else None
        | None => None
        end
  end.

Fixpoint insertByIndex (i : N) (e : jsstring * list NotionPage)
  (l : list (N * (jsstring * list NotionPage)))
  : list (N * (jsstring * list NotionPage)) :=
  match l with
  | [] => [(i, e)]
  | (j, e') :: l' =>
      if (i <? j)%N then (i, e) :: (j, e') :: l' else (j, e') :: insertByIndex i e l'
  end.

(** [Object.keys(documentGroups)], each key with its group: the array
    indices in ascending order, then the other names in the order of their
    creation. *)
Definition ownKeys (g : Groups) : Groups :=
  map snd
    (fold_right
       (fun e acc =>
          match arrayIndex (fst e) with
          | Some i => insertByIndex i e acc
          | None => acc
          end)
       [] g)
  ++ filter (fun e => match arrayIndex (fst e) with
                      | Some _ => false
                      | None => true
                      end) g.

(** The footer of a file of a folder. *)
Definition folderFooter (today docName : jsstring) : jsstring :=
  [LF; LF] ++ str "---" ++ [LF; LF]
    ++ str "*Source: " ++ docName ++ str "*" ++ [LF]
    ++ str "*Converted from Google Docs to Notion on " ++ today ++ str "*".

(** The file of one page of the group of [docName]. *)
Definition folderFile (today docName : jsstring) (page : NotionPage)
  : MarkdownFile :=
  {| file_name :=
       cleanTitle docName ++ str "--" ++ cleanTitle (page_title page) ++ str ".md";
     file_content := page_content page ++ folderFooter today docName |}.

(** [createMarkdownFilesFromFolder(pages)] *)
Definition createMarkdownFilesFromFolder (notAFunction : JsError)
  (today : jsstring) (pages : list NotionPage) : result (list MarkdownFile) :=
  match fold_left (groupPage notAFunction) pages (Returned []) with
  | Thrown e => Thrown e
  | Returned g =>
      Returned
        (flat_map (fun e => map (folderFile today (fst e)) (snd e)) (ownKeys g))
  end.

(** [processFolderWithGoogleAPI], from the listing of the folder to the
    files: the pages of the folder are handed to
    [createMarkdownFilesFromFolder]. *)
Definition processFolderToFiles (api : DocsApi) (notAFunction : JsError)
  (today : jsstring) (docs : list DriveFile) : result (list MarkdownFile) :=
  match processFolderWithGoogleAPI api docs with
  | Thrown e => Thrown e
  | Returned notionPages =>
      createMarkdownFilesFromFolder notAFunction today notionPages
  end.

(** ** Vocabulary of the further statements *)

(** The units of a string that are not white space. *)
Definition textOf (s : jsstring) : jsstring :=
  filter (fun c => negb (isWhiteSpace c)) s.

(** The characters a file name is made of, before its extension. *)
Definition isSlugChar (c : char) : bool :=
  isLower c || isDigit c || N.eqb c HYPHEN.

(** A title character that is not white space. *)
Definition isNameChar (c : char) : bool :=
  isLower c || isUpper c || isDigit c || N.eqb c HYPHEN.

(** What every section carries while and after the body is segmented under
    the label [parent]. *)
Definition shapeOk (parent : jsstring) (s : Section) : Prop :=
  parentTab s = parent
  /\ 1 <= level s <= 6
  /\ sourceDocument s = None
  /\ (parent <> [] -> title s <> []).

(** The content gathered so far: that of the closed sections and of the
    open one. *)
Definition gathered (secs : list Section) (cur : option Section) : jsstring :=
  List.concat (map content secs)
    ++ match cur with Some cs => content cs | None => [] end.

(** What a tab holds of its own, its child tabs apart. *)
Definition sameOwn (t t' : Tab) : Prop :=
  tabProperties t = tabProperties t'
  /\ documentTab t = documentTab t'
  /\ tab_body t = tab_body t'.

(** The requests [processDocumentById] has tried before it comes to [m]. *)
Definition methodsBefore (m : FetchMethod) : list FetchMethod :=
  match m with
  | RequestIncludeTabs => []
  | DocumentsGetAllFields => [RequestIncludeTabs]
  | RequestAllFields => [RequestIncludeTabs; DocumentsGetAllFields]
  | DocumentsGet => [RequestIncludeTabs; DocumentsGetAllFields; RequestAllFields]
  end.

(** A remote side on which only the last request answers, with [doc]. *)
Definition lastRequestAnswers (doc : GoogleDoc) : DocsApi :=
  fun m _ =>
    match m with
    | DocumentsGet => Returned doc
    | _ => Thrown {| message := str "bad request" |}
    end.

(** A document without tabs and without a body. *)
Definition emptyDocument : GoogleDoc :=
  {| doc_title := Some (str "Blank"); tabs := None; doc_body := None |}.

(** What one element of a paragraph adds to its plain text and to its
    formatted text. *)
Definition runText (el : ParagraphElement) : jsstring :=
  match textRun el with
  | Some {| run_content := Some (c :: t) |} => c :: t
  | _ => []
  end.

Definition formattedRun (el : ParagraphElement) : jsstring :=
  match textRun el with
  | Some {| run_content := Some (c :: t); textStyle := Some st |} =>
      applyTextFormatting (c :: t) st
  | Some {| run_content := Some (c :: t); textStyle := None |} => c :: t
  | _ => []
  end.

(** The elements of a paragraph, none when the field is missing. *)
Definition elementsOf (p : Paragraph) : list ParagraphElement :=
  match elements p with Some els => els | None => [] end.

(** Where the title and the level of a section come from: the label with
    level 1, or a heading paragraph of the body. *)
Definition fromLabelOrHeading (parent : jsstring) (els : list StructuralElement)
  (s : Section) : Prop :=
  (title s = parent /\ level s = 1)
  \/ exists p,
       In (ElemParagraph p) els
       /\ isHeading p = true
       /\ title s = trim (extractFormattedTextFromParagraph p)
       /\ level s = getHeadingLevel p.

(** The distinct members of a list, in the order of their first
    appearance. *)
Fixpoint distinct (l : list jsstring) : list jsstring :=
  match l with
  | [] => []
  | k :: l' => k :: filter (fun k' => negb (eqb k' k)) (distinct l')
  end.

(** The pages that have a title, and those among them of one source. *)
Definition titledPages (pages : list NotionPage) : list NotionPage :=
  filter (fun page => negb (hasNoTitle page)) pages.

Definition pagesOf (src : jsstring) (pages : list NotionPage) : list NotionPage :=
  filter (fun page => eqb (sourceOf page) src) (titledPages pages).

(** The groups the pages fall into: one per source document, in the order in
    which the sources first appear, each with its pages in page order. *)
Definition groupBySource (pages : list NotionPage) : Groups :=
  map (fun src => (src, pagesOf src pages))
    (distinct (map sourceOf (titledPages pages))).

(** A page of a folder, with its title and its source document. *)
Definition folderPage (t src : string) : NotionPage :=
  {| page_title := str t;
     page_content := str "# " ++ str t ++ [LF];
     page_parentTab := str "Document";
     page_sourceDocument := Some (str src) |}.

(** Pages of two documents, as folder mode hands them over. *)
Definition folderPagesExample : list NotionPage :=
  [ folderPage "Intro" "Alpha"; folderPage "Notes" "Beta";
    folderPage "Setup" "Alpha" ].

(** A Docs API that refuses every request. *)
Definition refusingApi : DocsApi :=
  fun _ _ => Thrown {| message := str "The caller does not have permission" |}.

(** The TypeError of an engine, for the examples. *)
Definition exampleTypeError : JsError :=
  {| message := str "documentGroups[sourceDoc].push is not a function" |}.

(** A run without formatting. *)
Definition plainElement (el : ParagraphElement) : ParagraphElement :=
  match textRun el with
  | Some r => {| textRun := Some {| run_content := run_content r; textStyle := None |} |}
  | None => {| textRun := None |}
  end.

(** A paragraph without formatting, list marker and named style. *)
Definition plainParagraph (p : Paragraph) : Paragraph :=
  {| elements := option_map (map plainElement) (elements p);
     paragraphStyle := None;
     bullet := None |}.

(** A table whose cells hold unformatted paragraphs and nothing else. *)
Definition plainCellElement (el : StructuralElement) : StructuralElement :=
  match el with
  | ElemParagraph p => ElemParagraph (plainParagraph p)
  | _ => ElemOther
  end.

Definition plainCell (c : TableCell) : TableCell :=
  MkTableCell (option_map (map plainCellElement) (cell_content c)).

Definition plainRow (r : TableRow) : TableRow :=
  MkTableRow (option_map (map plainCell) (tableCells r)).

Definition plainTable (t : Table) : Table :=
  MkTable (option_map (map plainRow) (tableRows t)).

(** A tab without the child tabs below it. *)
Definition withoutChildTabs (t : Tab) : Tab :=
  MkTab (tabProperties t) (documentTab t) (tab_body t) None.

(** A main tab whose child tabs have lost their own child tabs. *)
Definition flattenedTab (t : Tab) : Tab :=
  MkTab (tabProperties t) (documentTab t) (tab_body t)
    (option_map (map withoutChildTabs) (childTabs t)).

(** * Properties *)

(** ** The primitives on small inputs *)

Example trim_example :
  trim ([TAB; SP] ++ str "a  b" ++ [SP; LF; 160%N]) = str "a  b".
Proof. reflexivity. Qed.

Example replace_first_occurrence :
  replace (str "Tab ") (str "Document ") (str "Tab 12") = str "Document 12"
  /\ replace (str "Tab ") (str "Document ") (str "My Tab Tab 3")
     = str "My Document Tab 3"
  /\ replace (str "Tab ") (str "Document ") (str "Table") = str "Table".
Proof. repeat split. Qed.

Example ofNat_example : ofNat 0 = str "0" /\ ofNat 12 = str "12".
Proof. split; reflexivity. Qed.

Example collapseNewlines_example :
  collapseNewlines (str "a" ++ [LF; LF; LF; LF] ++ str "b" ++ [LF; LF] ++ str "c")
  = str "a" ++ [LF; LF] ++ str "b" ++ [LF; LF] ++ str "c".
Proof. reflexivity. Qed.

Example spaceAfterPeriods_example :
  spaceAfterPeriods (str "One.Two.three..Four.") = str "One. Two.three.. Four.".
Proof. reflexivity. Qed.

Example collapseBlanks_example :
  collapseBlanks (str "a  " ++ [TAB] ++ str " b" ++ [TAB] ++ str "c d")
  = str "a b" ++ [TAB] ++ str "c d".
Proof. reflexivity. Qed.

Example normalizeContent_example :
  normalizeContent
    ([LF] ++ str "First.Second   line" ++ [LF; LF; LF; LF] ++ str "end " ++ [LF])
  = str "First. Second line" ++ [LF; LF] ++ str "end".
Proof. reflexivity. Qed.

Example getBulletInfo_example :
  getBulletInfo
    {| elements := None; paragraphStyle := None;
       bullet := Some {| listProperties := Some {| list_type := Some (str "ORDERED") |};
                         nestingLevel := Some 2 |} |}
  = str "    1. "
  /\ getBulletInfo
       {| elements := None; paragraphStyle := None;
          bullet := Some {| listProperties := None; nestingLevel := None |} |}
     = str "- ".
Proof. split; reflexivity. Qed.

Example extractTableFromElement_example :
  extractTableFromElement
    (MkTable (Some [ MkTableRow (Some [textCell " Plan"; textCell "Price "]);
                     MkTableRow (Some [textCell "Basic"; textCell "0"]) ]))
  = str "| Plan | Price |" ++ [LF] ++ str "| --- | --- |" ++ [LF]
      ++ str "| Basic | 0 |" ++ [LF]
  /\ extractTableFromElement (MkTable (Some [])) = []
  /\ extractTableFromElement (MkTable None) = [].
Proof. repeat split. Qed.

(** ** Strings *)

Section StringFacts.

Lemma eqb_spec (a b : jsstring) : reflect (a = b) (eqb a b).
Proof.
  revert b; induction a as [|x a IH]; intros [|y b]; simpl;
    try (constructor; congruence).
  destruct (N.eqb_spec x y) as [->|Hxy]; simpl.
  - destruct (IH b) as [->|Hab]; constructor; congruence.
  - constructor; congruence.
Qed.

Lemma eqb_refl (a : jsstring) : eqb a a = true.
Proof. destruct (eqb_spec a a); congruence. Qed.

Lemma eqb_neq (a b : jsstring) : a <> b -> eqb a b = false.
Proof. destruct (eqb_spec a b); congruence. Qed.

Lemma startsWith_app (p s : jsstring) : startsWith (p ++ s) p = true.
Proof.
  induction p as [|y p IH]; simpl; [reflexivity|].
  now rewrite N.eqb_refl, IH.
Qed.

Lemma startsWith_inv (s p : jsstring) :
  startsWith s p = true -> s = p ++ skipn (List.length p) s.
Proof.
  revert s; induction p as [|y p IH]; intros s H; simpl in *.
  - reflexivity.
  - destruct s as [|x s]; [discriminate|].
    apply andb_prop in H as [Hx Hs].
    apply N.eqb_eq in Hx; subst x.
    simpl. f_equal. now apply IH.
Qed.

(** Replacing a prefix: the first occurrence is the prefix itself. *)
Lemma replace_prefix (pat rep s : jsstring) :
  startsWith s pat = true ->
  replace pat rep s = rep ++ skipn (List.length pat) s.
Proof. intros H. destruct s; simpl; now rewrite H. Qed.

Lemma trimStart_split (s : jsstring) :
  exists a, s = a ++ trimStart s /\ forallb isWhiteSpace a = true.
Proof.
  induction s as [|c s [a [Ha Hws]]]; simpl.
  - exists []; auto.
  - destruct (isWhiteSpace c) eqn:Hc.
    + exists (c :: a); simpl. rewrite Hc, Hws. split; [now f_equal|reflexivity].
    + exists []; auto.
Qed.

Lemma trimStart_head (s t : jsstring) (c : char) :
  trimStart s = c :: t -> isWhiteSpace c = false.
Proof.
  induction s as [|x s IH]; simpl; [discriminate|].
  destruct (isWhiteSpace x) eqn:Hx; [exact IH|].
  intros H; injection H as -> ->; exact Hx.
Qed.

Lemma trimStart_nil (s : jsstring) :
  trimStart s = [] <-> forallb isWhiteSpace s = true.
Proof.
  induction s as [|c s IH]; simpl; [tauto|].
  destruct (isWhiteSpace c); simpl; [exact IH|].
  split; discriminate.
Qed.

Lemma trimStart_idem (s : jsstring) : trimStart (trimStart s) = trimStart s.
Proof.
  destruct (trimStart s) as [|c t] eqn:E; [reflexivity|].
  simpl. now rewrite (trimStart_head _ _ _ E).
Qed.

Lemma trimStart_snoc (s : jsstring) (c : char) :
  isWhiteSpace c = false -> trimStart (s ++ [c]) = trimStart s ++ [c].
Proof.
  intros Hc; induction s as [|x s IH]; simpl.
  - now rewrite Hc.
  - destruct (isWhiteSpace x); [exact IH|reflexivity].
Qed.

Lemma trimEnd_cons (s : jsstring) (c : char) :
  isWhiteSpace c = false -> trimEnd (c :: s) = c :: trimEnd s.
Proof.
  intros Hc. unfold trimEnd. simpl.
  rewrite (trimStart_snoc _ _ Hc), rev_app_distr. reflexivity.
Qed.

Lemma trimEnd_idem (s : jsstring) : trimEnd (trimEnd s) = trimEnd s.
Proof. unfold trimEnd. now rewrite rev_involutive, trimStart_idem. Qed.

Lemma trimEnd_split (s : jsstring) :
  exists b, s = trimEnd s ++ b /\ forallb isWhiteSpace b = true.
Proof.
  destruct (trimStart_split (rev s)) as [a [Ha Hws]].
  exists (rev a). split.
  - unfold trimEnd. rewrite <- rev_app_distr, <- Ha. now rewrite rev_involutive.
  - rewrite forallb_forall in *. intros x Hx. apply Hws. now apply in_rev.
Qed.

Lemma trimEnd_last (s t : jsstring) (c : char) :
  trimEnd s = t ++ [c] -> isWhiteSpace c = false.
Proof.
  unfold trimEnd. intros H.
  apply (f_equal (@rev char)) in H.
  rewrite rev_involutive, rev_app_distr in H. simpl in H.
  exact (trimStart_head _ _ _ H).
Qed.

(** [trim] is idempotent. *)
Lemma trim_idem (s : jsstring) : trim (trim s) = trim s.
Proof.
  unfold trim. destruct (trimStart s) as [|c t] eqn:E; [reflexivity|].
  pose proof (trimStart_head _ _ _ E) as Hc.
  rewrite (trimEnd_cons _ _ Hc). simpl. rewrite Hc.
  rewrite (trimEnd_cons _ _ Hc). now rewrite trimEnd_idem.
Qed.

(** [trim] cuts white space off both ends and nothing else. *)
Lemma trim_split (s : jsstring) :
  exists a b, s = a ++ trim s ++ b
              /\ forallb isWhiteSpace a = true /\ forallb isWhiteSpace b = true.
Proof.
  destruct (trimStart_split s) as [a [Ha Hwa]].
  destruct (trimEnd_split (trimStart s)) as [b [Hb Hwb]].
  exists a, b. unfold trim. rewrite <- Hb. auto.
Qed.

(** A string trims to nothing exactly when it is blank. *)
Lemma truthy_trim (s : jsstring) :
  truthy (trim s) = negb (forallb isWhiteSpace s).
Proof.
  unfold trim. destruct (trimStart s) as [|c t] eqn:E.
  - apply trimStart_nil in E. now rewrite E.
  - rewrite (trimEnd_cons _ _ (trimStart_head _ _ _ E)). simpl.
    destruct (forallb isWhiteSpace s) eqn:F; [|reflexivity].
    apply trimStart_nil in F. congruence.
Qed.

Lemma truthy_trim_app_l (a b : jsstring) :
  truthy (trim a) = true -> truthy (trim (a ++ b)) = true.
Proof.
  rewrite !truthy_trim, forallb_app.
  destruct (forallb isWhiteSpace a); simpl; [discriminate|reflexivity].
Qed.

Lemma truthy_trim_app_r (a b : jsstring) :
  truthy (trim b) = true -> truthy (trim (a ++ b)) = true.
Proof.
  rewrite !truthy_trim, forallb_app.
  destruct (forallb isWhiteSpace b); simpl; [discriminate|].
  intros _. now rewrite andb_false_r.
Qed.

Lemma truthy_trim_idem (s : jsstring) :
  truthy (trim (trim s)) = truthy (trim s).
Proof. now rewrite trim_idem. Qed.

(** A string that does not trim to nothing ends, once trimmed, in a unit
    that is not white space. *)
Lemma trim_last (s : jsstring) :
  truthy (trim s) = true ->
  exists t c, trim s = t ++ [c] /\ isWhiteSpace c = false.
Proof.
  intros H. destruct (trim s) as [|x u] eqn:E; [discriminate|].
  destruct (@exists_last _ (x :: u)) as [t [c Htc]]; [discriminate|].
  exists t, c. split; [exact Htc|].
  unfold trim in E. rewrite Htc in E. exact (trimEnd_last _ _ _ E).
Qed.

Lemma endsWith_snoc (s : jsstring) (c d : char) :
  endsWith (s ++ [c]) [d] = N.eqb c d.
Proof.
  unfold endsWith. rewrite rev_app_distr. simpl. now rewrite andb_true_r.
Qed.

End StringFacts.

(** ** Run formatter *)

Section RunFormatter.

(** Without a usable link the text carries the four wraps only. *)
Lemma applyTextFormatting_no_link (text : jsstring) (st : TextStyle) :
  link st = None \/ link st = Some {| url := None |}
  \/ link st = Some {| url := Some [] |} ->
  applyTextFormatting text st =
    wrapIf (strikethrough st) "~~" "~~"
      (wrapIf (underline st) "<u>" "</u>"
         (wrapIf (italic st) "*" "*" (wrapIf (bold st) "**" "**" text))).
Proof.
  unfold applyTextFormatting, wrapIf.
  intros [H | [H | H]]; rewrite H; reflexivity.
Qed.

(** C5: the wraps are applied in the order bold, italic, underline,
    strikethrough, and a link with a non-empty URL is wrapped around all of
    them; a bold "hi" linked to https://x becomes [**hi**](https://x). *)
Theorem applyTextFormatting_link_outermost
  (text : jsstring) (st : TextStyle) (u : jsstring) :
  link st = Some {| url := Some u |} ->
  u <> [] ->
  applyTextFormatting text st =
    str "[" ++
    wrapIf (strikethrough st) "~~" "~~"
      (wrapIf (underline st) "<u>" "</u>"
         (wrapIf (italic st) "*" "*" (wrapIf (bold st) "**" "**" text)))
    ++ str "](" ++ u ++ str ")"
  /\ applyTextFormatting (str "hi")
       {| bold := true; italic := false; underline := false;
          strikethrough := false;
          link := Some {| url := Some (str "https://x") |} |}
     = str "[**hi**](https://x)".
Proof.
  intros Hl Hu. split; [|reflexivity].
  unfold applyTextFormatting, wrapIf. rewrite Hl.
  destruct u as [|c u]; [contradiction|reflexivity].
Qed.

Lemma applyTextFormatting_link_outermost_witness :
  applyTextFormatting (str "docs")
    {| bold := true; italic := true; underline := false;
       strikethrough := true;
       link := Some {| url := Some (str "https://docs.example") |} |}
  = str "[~~***docs***~~](https://docs.example)".
Proof.
  refine (proj1 (applyTextFormatting_link_outermost (str "docs")
            {| bold := true; italic := true; underline := false;
               strikethrough := true;
               link := Some {| url := Some (str "https://docs.example") |} |}
            (str "https://docs.example") _ _)).
  - reflexivity.
  - discriminate.
Defined.

End RunFormatter.

(** ** Paragraph classifier *)

Section Classifier.

Lemma fold_left_invariant {A B : Type} (f : A -> B -> A) (I : A -> Prop) :
  (forall a b, I a -> I (f a b)) ->
  forall l a, I a -> I (fold_left f l a).
Proof.
  intros Hf l; induction l as [|b l IH]; simpl; intros a Ha; auto.
Qed.





End Classifier.

(** ** Section segmenter: scenario A *)

Section ScenarioA.

(** C1 (as the code has it): scenario A yields three sections, the default
    one for the text before the first heading, titled after the parent
    label, and then Setup and Details. *)
Theorem scenarioA_three_sections (parent : jsstring) :
  extractSectionsFromBody (bodyOf scenarioA) parent =
    [ newSection parent (str "Intro text" ++ [LF]) 1 parent;
      newSection (str "Setup") (str "Step one" ++ [LF]) 1 parent;
      newSection (str "Details") (str "More info" ++ [LF]) 2 parent ].
Proof. reflexivity. Qed.

(** C1 as stated fails: for the parent label "My Doc" the result is not
    the two sections Setup and Details, it has three members. *)
Lemma scenarioA_not_two_sections :
  extractSectionsFromBody (bodyOf scenarioA) (str "My Doc") <>
    [ newSection (str "Setup") (str "Step one" ++ [LF]) 1 (str "My Doc");
      newSection (str "Details") (str "More info" ++ [LF]) 2 (str "My Doc") ]
  /\ List.length (extractSectionsFromBody (bodyOf scenarioA) (str "My Doc")) = 3.
Proof. split; [discriminate|reflexivity]. Qed.

End ScenarioA.

(** ** Tab flattener *)

Section TabLabels.

Lemma str_inj (a b : string) : str a = str b -> a = b.
Proof.
  unfold str. intros H.
  rewrite <- (string_of_list_ascii_of_string a),
          <- (string_of_list_ascii_of_string b).
  f_equal.
  revert H. generalize (list_ascii_of_string a) (list_ascii_of_string b).
  intros l; induction l as [|x l IH]; intros [|y m]; simpl; try discriminate.
  - reflexivity.
  - intros H. injection H as Hxy Hlm. f_equal; [|now apply IH].
    rewrite <- (ascii_N_embedding x), <- (ascii_N_embedding y). now f_equal.
Qed.

Lemma ofNat_inj (n m : nat) : ofNat n = ofNat m -> n = m.
Proof.
  unfold ofNat. intros H. apply str_inj in H.
  apply (f_equal NilEmpty.uint_of_string) in H.
  rewrite !NilEmpty.usu in H. injection H as H.
  apply (f_equal Nat.of_uint) in H.
  now rewrite !DecimalNat.Unsigned.of_to in H.
Qed.

Lemma tabTitle_untitled (tab : Tab) (i : nat) :
  isUntitled tab = true -> tabTitle tab i = str "Tab " ++ ofNat (i + 1).
Proof.
  unfold isUntitled, tabTitle.
  destruct (tabProperties tab) as [[[[|c t]|]]|]; simpl; congruence.
Qed.

Lemma placeholder_not_first (i : nat) :
  1 <= i -> eqb (str "Tab " ++ ofNat (i + 1)) (str "Tab 1") = false.
Proof.
  intros Hi. apply eqb_neq. intros H.
  change (str "Tab 1") with (str "Tab " ++ ofNat 1) in H.
  apply app_inv_head in H. apply ofNat_inj in H. lia.
Qed.

(** C9 (as the code has it): a document whose only tab has no title, or
    the literal title "Tab 1", is segmented under the document's own
    title when that title is not empty, and under "Tab 1" when the document
    has no title; an untitled tab at position N >= 2 of the flattened list
    is labelled "Tab N". *)
Theorem single_tab_takes_document_title :
  (forall docTitle tp dt tb ct b,
     docTitle <> [] ->
     ct = None \/ ct = Some [] ->
     isUntitled (MkTab tp dt tb ct) = true
     \/ tabTitle (MkTab tp dt tb ct) 0 = str "Tab 1" ->
     tabBody (MkTab tp dt tb ct) = Some b ->
     extractSectionsFromGoogleDoc
       {| doc_title := Some docTitle;
          tabs := Some [MkTab tp dt tb ct];
          doc_body := None |}
     = extractSectionsFromBody (Some b) docTitle)
  /\ (forall tab,
        isUntitled tab = true ->
        effectiveTabName tab 0 None = str "Tab 1"
        /\ effectiveTabName tab 0 (Some []) = str "Tab 1")
  /\ (forall tab i documentTitle,
        isUntitled tab = true ->
        1 <= i ->
        effectiveTabName tab i documentTitle = str "Tab " ++ ofNat (i + 1)).
Proof.
  split; [|split].
  - intros docTitle tp dt tb ct b Hd Hct Hlabel Hb.
    assert (Ht : tabTitle (MkTab tp dt tb ct) 0 = str "Tab 1").
    { destruct Hlabel as [Hu|Ht]; [|exact Ht].
      now rewrite (tabTitle_untitled _ 0 Hu). }
    assert (Hall : collectTabs [MkTab tp dt tb ct] = [MkTab tp dt tb ct]).
    { destruct Hct as [->| ->]; reflexivity. }
    unfold extractSectionsFromGoogleDoc. cbn [tabs doc_title].
    rewrite Hall. cbn [tabsLoop].
    rewrite app_nil_r. unfold extractSectionsFromTab. rewrite Hb.
    unfold effectiveTabName. rewrite Ht.
    replace (eqb (str "Tab 1") (str "Tab 1")) with true by reflexivity.
    destruct docTitle as [|c d]; [contradiction|reflexivity].
  - intros tab Hu. unfold effectiveTabName.
    rewrite (tabTitle_untitled _ 0 Hu). split; reflexivity.
  - intros tab i documentTitle Hu Hi. unfold effectiveTabName.
    rewrite (tabTitle_untitled _ i Hu), (placeholder_not_first i Hi).
    reflexivity.
Qed.

Lemma single_tab_takes_document_title_witness :
  extractSectionsFromGoogleDoc
    {| doc_title := Some (str "Handbook");
       tabs := Some [MkTab None None (bodyOf [textElement "Welcome"]) None];
       doc_body := None |}
  = extractSectionsFromBody (bodyOf [textElement "Welcome"]) (str "Handbook")
  /\ effectiveTabName (MkTab None None None None) 0 None = str "Tab 1"
  /\ effectiveTabName (MkTab None None None None) 2 (Some (str "Handbook"))
     = str "Tab 3".
Proof.
  destruct single_tab_takes_document_title as (Hone & Hnone & Hnth).
  split; [|split].
  - apply Hone; [discriminate|left; reflexivity|left; reflexivity|reflexivity].
  - apply (Hnone (MkTab None None None None)). reflexivity.
  - apply (Hnth (MkTab None None None None) 2); [reflexivity|lia].
Defined.

(** C9 as stated fails: the only tab of this document has a title of its
    own, "Tab 1", and still the document's title "Handbook" is the label
    its sections get; and the only tab of a document without a title, itself
    untitled, keeps the placeholder. *)
Lemma titled_tab_takes_document_title :
  let tab := MkTab (Some {| tab_title := Some (str "Tab 1") |}) None
               (bodyOf [headingElement "HEADING_1" "Setup"; textElement "Step one"])
               None in
  isUntitled tab = false
  /\ effectiveTabName tab 0 (Some (str "Handbook")) = str "Handbook"
  /\ map parentTab
       (extractSectionsFromGoogleDoc
          {| doc_title := Some (str "Handbook"); tabs := Some [tab];
             doc_body := None |})
     = [str "Handbook"]
  /\ map parentTab
       (extractSectionsFromGoogleDoc
          {| doc_title := None;
             tabs := Some [MkTab None None
                             (bodyOf [headingElement "HEADING_1" "Setup";
                                      textElement "Step one"]) None];
             doc_body := None |})
     = [str "Tab 1"].
Proof. repeat split. Qed.

End TabLabels.

(** ** Folder mode *)

Section FolderMode.

Variable api : DocsApi.

Lemma fold_left_app_flat_map {A B : Type} (f : A -> list B) (l : list A)
  (acc : list B) :
  fold_left (fun acc a => acc ++ f a) l acc = acc ++ flat_map f l.
Proof.
  revert acc; induction l as [|a l IH]; intros acc; simpl.
  - now rewrite app_nil_r.
  - now rewrite IH, app_assoc.
Qed.

Lemma collectAllSections_flat_map (docs : list DriveFile) :
  collectAllSections api docs = flat_map (documentSections api) docs.
Proof. unfold collectAllSections. now rewrite fold_left_app_flat_map. Qed.

(** Every document leaves at least one section behind. *)
Lemma documentSections_not_nil (doc : DriveFile) :
  documentSections api doc <> [].
Proof.
  unfold documentSections.
  destruct (processDocumentById api (id doc) (Some (name doc))) as [[|s l]|e];
    discriminate.
Qed.

Lemma flat_map_length_ge {A B : Type} (f : A -> list B) (l : list A) :
  (forall a, f a <> []) -> List.length l <= List.length (flat_map f l).
Proof.
  intros Hf; induction l as [|a l IH]; simpl; [lia|].
  rewrite length_app. specialize (Hf a).
  destruct (f a); [contradiction|simpl; lia].
Qed.

(** The sections of a document carry its name, given that it has one. *)
Lemma documentSections_source (doc : DriveFile) :
  name doc <> [] ->
  Forall (fun s => sourceDocument s = Some (name doc)) (documentSections api doc).
Proof.
  intros Hn. unfold documentSections, processDocumentById.
  destruct (fetchDocument api (id doc)) as [d|e].
  - destruct (map _ (extractSectionsFromGoogleDoc d)) as [|s l] eqn:E.
    + repeat constructor.
    + rewrite <- E. apply Forall_forall. intros x Hx.
      apply in_map_iff in Hx as [y [<- _]]. simpl.
      destruct (name doc); [contradiction|reflexivity].
  - repeat constructor.
Qed.

End FolderMode.



(** ** Section segmenter: the loop *)

Section SegmenterLoop.

Variable parent : jsstring.

Lemma appendContent_nil (cs : Section) : appendContent cs [] = cs.
Proof. destruct cs; unfold appendContent; simpl. now rewrite app_nil_r. Qed.

Lemma appendContent_app (cs : Section) (a b : jsstring) :
  appendContent (appendContent cs a) b = appendContent cs (a ++ b).
Proof. unfold appendContent; simpl. now rewrite app_assoc. Qed.

(** A heading closes the current section and opens its own. *)
Lemma segmentElement_heading (st : SegState) (p : Paragraph) :
  isHeading p = true ->
  segmentElement parent st (ElemParagraph p) =
    {| sections := pushCurrent (sections st) (currentSection st);
       currentSection :=
         Some (newSection (trim (extractFormattedTextFromParagraph p)) []
                 (getHeadingLevel p) parent);
       allContent := allContent st ++ elementContent (ElemParagraph p) |}.
Proof.
  unfold isHeading. intros H. apply andb_prop in H as [Hl Ht].
  unfold segmentElement, elementContent. now rewrite Ht, Hl.
Qed.

(** Any other element extends the current section, if there is one. *)
Lemma segmentElement_body (st : SegState) (cs : Section)
  (el : StructuralElement) :
  isBodyElement el = true ->
  currentSection st = Some cs ->
  segmentElement parent st el =
    {| sections := sections st;
       currentSection := Some (appendContent cs (elementContent el));
       allContent := allContent st ++ elementContent el |}.
Proof.
  intros Hb Hc. destruct st as [secs cur allc]. simpl in Hc. subst cur.
  destruct el as [p|t|]; simpl.
  - unfold isBodyElement, isHeading in Hb.
    destruct (truthy (trim (extractFormattedTextFromParagraph p))) eqn:Ht; simpl.
    + rewrite andb_true_r in Hb. apply negb_true_iff in Hb. now rewrite Hb.
    + now rewrite appendContent_nil, app_nil_r.
  - reflexivity.
  - now rewrite appendContent_nil, app_nil_r.
Qed.

(** ... and opens the default section when there is none. *)
Lemma segmentElement_default (st : SegState) (el : StructuralElement) :
  isBodyElement el = true ->
  isSkipped el = false ->
  currentSection st = None ->
  segmentElement parent st el =
    {| sections := sections st;
       currentSection := Some (newSection parent (elementContent el) 1 parent);
       allContent := allContent st ++ elementContent el |}.
Proof.
  intros Hb Hs Hc. destruct st as [secs cur allc]. simpl in Hc. subst cur.
  destruct el as [p|t|]; simpl in *; try discriminate.
  - apply negb_false_iff in Hs. unfold isHeading in Hb.
    rewrite Hs, andb_true_r in Hb. apply negb_true_iff in Hb.
    now rewrite Hs, Hb.
  - reflexivity.
Qed.

Lemma segmentElement_skipped (st : SegState) (el : StructuralElement) :
  isSkipped el = true -> segmentElement parent st el = st.
Proof.
  destruct el as [p|t|]; simpl; intros H; try discriminate; [|reflexivity].
  now rewrite H.
Qed.

Lemma segmentElement_allContent (st : SegState) (el : StructuralElement) :
  allContent (segmentElement parent st el) = allContent st ++ elementContent el.
Proof.
  destruct el as [p|t|]; simpl.
  - destruct (truthy (trim (extractFormattedTextFromParagraph p))); simpl.
    + destruct (0 <? getHeadingLevel p); [reflexivity|].
      destruct (currentSection st); reflexivity.
    + now rewrite app_nil_r.
  - destruct (currentSection st); reflexivity.
  - now rewrite app_nil_r.
Qed.

(** [allContent] gathers all seen content in traversal order. *)
Lemma fold_segmentElement_allContent (els : list StructuralElement)
  (st : SegState) :
  allContent (fold_left (segmentElement parent) els st) =
    allContent st ++ seenContent els.
Proof.
  revert st; induction els as [|el els IH]; intros st; simpl.
  - now rewrite app_nil_r.
  - now rewrite IH, segmentElement_allContent, app_assoc.
Qed.

Lemma segmentLoop_allContent (els : list StructuralElement) :
  allContent (segmentLoop parent els) = seenContent els.
Proof. unfold segmentLoop. now rewrite fold_segmentElement_allContent. Qed.

(** The body elements under a heading all land in its section. *)
Lemma fold_segmentElement_body (es : list StructuralElement) :
  forallb isBodyElement es = true ->
  forall st cs,
    currentSection st = Some cs ->
    fold_left (segmentElement parent) es st =
      {| sections := sections st;
         currentSection := Some (appendContent cs (seenContent es));
         allContent := allContent st ++ seenContent es |}.
Proof.
  induction es as [|el es IH]; simpl; intros Hb st cs Hc.
  - rewrite appendContent_nil, app_nil_r. destruct st; simpl in *; congruence.
  - apply andb_prop in Hb as [Hel Hes].
    rewrite (segmentElement_body st cs el Hel Hc).
    erewrite IH; [|exact Hes|reflexivity].
    cbn [sections allContent]. unfold seenContent. cbn [flat_map].
    now rewrite appendContent_app, app_assoc.
Qed.

(** A heading with its body: the section before is closed, the section of
    the group is the current one. *)
Lemma fold_segmentElement_group (g : HeadingGroup) (st : SegState) :
  groupHasBody g = true ->
  fold_left (segmentElement parent) (groupElements g) st =
    {| sections := pushCurrent (sections st) (currentSection st);
       currentSection := Some (sectionOfGroup parent g);
       allContent := allContent st ++ seenContent (groupElements g) |}.
Proof.
  unfold groupHasBody. intros H.
  apply andb_prop in H as [H Hc]. apply andb_prop in H as [Hh Hb].
  unfold groupElements. cbn [fold_left].
  rewrite (segmentElement_heading st (fst g) Hh).
  erewrite fold_segmentElement_body; [|exact Hb|reflexivity].
  cbn [sections allContent]. unfold sectionOfGroup, headingTitle, appendContent,
    newSection, seenContent. cbn [title content level parentTab sourceDocument
    flat_map app]. now rewrite <- app_assoc.
Qed.

Lemma pushCurrent_group (secs : list Section) (g : HeadingGroup) :
  groupHasBody g = true ->
  pushCurrent secs (Some (sectionOfGroup parent g)) =
    secs ++ [sectionOfGroup parent g].
Proof.
  unfold groupHasBody. intros H. apply andb_prop in H as [_ Hc].
  unfold pushCurrent, sectionOfGroup, newSection. cbn [content]. now rewrite Hc.
Qed.

Lemma fold_segmentElement_groups (gs : list HeadingGroup) :
  forallb groupHasBody gs = true ->
  forall st,
    let st' := fold_left (segmentElement parent) (flattenGroups gs) st in
    pushCurrent (sections st') (currentSection st') =
      pushCurrent (sections st) (currentSection st)
        ++ map (sectionOfGroup parent) gs.
Proof.
  induction gs as [|g gs IH]; intros Hgs st; cbv zeta.
  - simpl. now rewrite app_nil_r.
  - cbn [forallb] in Hgs. apply andb_prop in Hgs as [Hg Hrest].
    change (flattenGroups (g :: gs)) with (groupElements g ++ flattenGroups gs).
    rewrite fold_left_app, (fold_segmentElement_group g st Hg).
    specialize (IH Hrest). cbv zeta in IH. rewrite IH.
    cbn [sections currentSection map].
    rewrite (pushCurrent_group _ g Hg), <- app_assoc. reflexivity.
Qed.

(** Headings that each have a body give one section apiece. *)
Lemma traversalSections_groups (gs : list HeadingGroup) :
  forallb groupHasBody gs = true ->
  traversalSections parent (flattenGroups gs) = map (sectionOfGroup parent) gs.
Proof.
  intros Hgs. unfold traversalSections, segmentLoop.
  now rewrite (fold_segmentElement_groups gs Hgs initialState).
Qed.

Lemma segmentLoop_skipped (els : list StructuralElement) :
  forallb isSkipped els = true -> segmentLoop parent els = initialState.
Proof.
  unfold segmentLoop. generalize initialState.
  induction els as [|el els IH]; simpl; intros st H; [reflexivity|].
  apply andb_prop in H as [Hel Hels].
  rewrite (segmentElement_skipped st el Hel). now apply IH.
Qed.

End SegmenterLoop.

(** ** Section segmenter: what it emits *)

Section SegmenterResults.

Variable parent : jsstring.

Lemma renameSingleTab_shape (secs : list Section) :
  List.length (renameSingleTab parent secs) = List.length secs
  /\ map content (renameSingleTab parent secs) = map content secs
  /\ map level (renameSingleTab parent secs) = map level secs.
Proof.
  unfold renameSingleTab. destruct secs as [|s [|s' l]]; auto.
  destruct (eqb (title s) parent && startsWith parent (str "Tab ")); auto.
Qed.

Lemma renameSingleTab_unchanged (secs : list Section) :
  2 <= List.length secs
  \/ startsWith parent (str "Tab ") = false
  \/ (forall s, In s secs -> title s <> parent) ->
  renameSingleTab parent secs = secs.
Proof.
  unfold renameSingleTab. destruct secs as [|s [|s' l]]; auto.
  intros [H | [H | H]].
  - simpl in H. lia.
  - now rewrite H, andb_false_r.
  - rewrite (eqb_neq (title s) parent); [reflexivity|].
    apply H. now left.
Qed.

Lemma renameSingleTab_In (secs : list Section) (s : Section) :
  In s (renameSingleTab parent secs) ->
  exists s', In s' secs /\ content s = content s'.
Proof.
  unfold renameSingleTab. destruct secs as [|s0 [|s1 l]];
    try (intros H; exists s; now split).
  destruct (eqb (title s0) parent && startsWith parent (str "Tab ")).
  - intros [<-|[]]. exists s0. split; [now left|reflexivity].
  - intros H; exists s; now split.
Qed.

(** The title of the fallback section after [renameSingleTab]. *)
Lemma renameSingleTab_fallback (c : jsstring) :
  renameSingleTab parent [newSection parent c 1 parent] =
    [newSection (relabel parent) c 1 parent].
Proof.
  unfold renameSingleTab, relabel, newSection. cbn [title sourceDocument orElse].
  rewrite eqb_refl. cbn [andb].
  destruct (startsWith parent (str "Tab ")) eqn:E; [|reflexivity].
  now rewrite (replace_prefix (str "Tab ") (str "Document ") parent E).
Qed.

(** C2 (as the code has it): when the elements are N >= 1 groups, each a
    heading with a text that is not blank followed by body elements whose
    content is not blank, the segmenter emits exactly N sections, in the
    order of the headings; each section has the level of its heading and
    the content seen under it (so the body after the last heading is in the
    Nth section), and its title is the trimmed text of the heading, unless
    it is the only section, is titled like the parent label, and that label
    starts with "Tab ". *)
Theorem one_section_per_heading_with_body (gs : list HeadingGroup) :
  gs <> [] ->
  forallb groupHasBody gs = true ->
  let out := extractSectionsFromBody (bodyOf (flattenGroups gs)) parent in
  out = renameSingleTab parent (map (sectionOfGroup parent) gs)
  /\ List.length out = List.length gs
  /\ map level out = map (fun g => getHeadingLevel (fst g)) gs
  /\ map content out = map (fun g => seenContent (snd g)) gs
  /\ (2 <= List.length gs
      \/ startsWith parent (str "Tab ") = false
      \/ (forall g, In g gs -> headingTitle g <> parent) ->
      map title out = map headingTitle gs).
Proof.
  intros Hne Hgs out.
  assert (Hout : out = renameSingleTab parent (map (sectionOfGroup parent) gs)).
  { unfold out, extractSectionsFromBody, bodyOf.
    fold (traversalSections parent (flattenGroups gs)).
    rewrite (traversalSections_groups parent gs Hgs).
    unfold addFallback. rewrite length_map.
    destruct gs as [|g gs']; [contradiction|reflexivity]. }
  destruct (renameSingleTab_shape (map (sectionOfGroup parent) gs))
    as (Hlen & Hcontent & Hlevel).
  rewrite Hout. repeat split.
  - now rewrite Hlen, length_map.
  - now rewrite Hlevel, map_map.
  - now rewrite Hcontent, map_map.
  - intros H. rewrite renameSingleTab_unchanged; [now rewrite map_map|].
    rewrite length_map. destruct H as [H | [H | H]]; auto.
    right; right. intros s Hs. apply in_map_iff in Hs as [g [<- Hg]].
    now apply H.
Qed.

(** C3 (as the code has it): when the traversal has emitted no section,
    the segmenter emits exactly one section if the seen content, headings
    included, is not blank, and none otherwise; the section holds the seen
    content, trimmed, at level 1, and is titled after the parent label,
    where a label "Tab ..." is turned into "Document ...". A body in which
    every element is passed over, or that is missing, gives no section. *)
Theorem fallback_section (els : list StructuralElement) :
  traversalSections parent els = [] ->
  extractSectionsFromBody (bodyOf els) parent =
    (if truthy (trim (seenContent els))
     then [newSection (relabel parent) (trim (seenContent els)) 1 parent]
     else [])
  /\ (forall els',
        forallb isSkipped els' = true ->
        extractSectionsFromBody (bodyOf els') parent = [])
  /\ extractSectionsFromBody None parent = []
  /\ extractSectionsFromBody (Some {| body_content := None |}) parent = [].
Proof.
  intros Hnone. repeat split.
  - unfold extractSectionsFromBody, bodyOf.
    fold (traversalSections parent els). rewrite Hnone.
    rewrite segmentLoop_allContent. unfold addFallback. cbn [List.length Nat.eqb andb].
    destruct (truthy (trim (seenContent els))); [|reflexivity].
    cbn [app]. apply renameSingleTab_fallback.
  - intros els' Hs. unfold extractSectionsFromBody, bodyOf.
    now rewrite (segmentLoop_skipped parent els' Hs).
Qed.

Lemma pushCurrent_closedOk (secs : list Section) (cur : option Section) :
  Forall closedOk secs -> openOk cur -> Forall closedOk (pushCurrent secs cur).
Proof.
  intros Hs Hc. unfold pushCurrent. destruct cur as [cs|]; [|exact Hs].
  destruct (truthy (trim (content cs))) eqn:E; [|exact Hs].
  apply Forall_app. split; [exact Hs|]. constructor; [|constructor].
  split; [exact E|].
  destruct (Hc cs eq_refl) as [H|H]; [|exact H].
  rewrite H in E. discriminate.
Qed.

Lemma endsInNewline_app (a b : jsstring) :
  endsInNewline b -> endsInNewline (a ++ b).
Proof. intros [c' ->]. exists (a ++ c'). now rewrite app_assoc. Qed.

Lemma segmentElement_ok (st : SegState) (el : StructuralElement) :
  Forall closedOk (sections st) /\ openOk (currentSection st) ->
  Forall closedOk (sections (segmentElement parent st el))
  /\ openOk (currentSection (segmentElement parent st el)).
Proof.
  intros [Hs Hc].
  assert (Hlf : forall t, endsInNewline (t ++ [LF])) by (intros t; now exists t).
  assert (Hlf2 : forall t, endsInNewline (t ++ [LF; LF])).
  { intros t. exists (t ++ [LF]). now rewrite <- app_assoc. }
  destruct el as [p|t|]; simpl; [| |now split].
  - destruct (truthy (trim (extractFormattedTextFromParagraph p))); simpl;
      [|now split].
    destruct (0 <? getHeadingLevel p); simpl.
    + split; [now apply pushCurrent_closedOk|].
      intros cs [= <-]. now left.
    + destruct (currentSection st) as [cs|]; simpl; (split; [exact Hs|]);
        intros cs' [= <-]; right; simpl; auto using endsInNewline_app.
  - destruct (currentSection st) as [cs|]; simpl; (split; [exact Hs|]);
      intros cs' [= <-]; right; simpl; auto using endsInNewline_app.
Qed.

Lemma traversalSections_closedOk (els : list StructuralElement) :
  Forall closedOk (traversalSections parent els).
Proof.
  unfold traversalSections, segmentLoop.
  assert (H : Forall closedOk
                (sections (fold_left (segmentElement parent) els initialState))
              /\ openOk
                   (currentSection
                      (fold_left (segmentElement parent) els initialState))).
  { apply (fold_left_invariant (segmentElement parent)
             (fun st => Forall closedOk (sections st)
                        /\ openOk (currentSection st))).
    - intros st el. apply segmentElement_ok.
    - split; [constructor|]. intros cs H. discriminate. }
  destruct H as [Hs Hc]. now apply pushCurrent_closedOk.
Qed.

(** C4 (as the code has it): every section the segmenter surfaces has
    content that is not blank, the fallback section included. The content
    of the fallback section is trimmed; the content of a section cut by the
    traversal ends in the newline appended after its last paragraph or
    table. *)
Theorem surfaced_sections_have_content (body : option Body) (s : Section) :
  In s (extractSectionsFromBody body parent) ->
  truthy (trim (content s)) = true
  /\ forall els,
       body = bodyOf els ->
       (traversalSections parent els <> [] -> endsInNewline (content s))
       /\ (traversalSections parent els = [] -> trim (content s) = content s).
Proof.
  destruct body as [[[els|]]|]; simpl; try contradiction.
  fold (traversalSections parent els). rewrite segmentLoop_allContent.
  intros Hin. apply renameSingleTab_In in Hin as [s' [Hin ->]].
  pose proof (traversalSections_closedOk els) as Hok.
  unfold addFallback in Hin.
  destruct (traversalSections parent els) as [|s0 l] eqn:E.
  - cbn [List.length Nat.eqb andb app] in Hin.
    destruct (truthy (trim (seenContent els))) eqn:Ht; [|contradiction].
    destruct Hin as [<-|[]]. cbn [newSection content].
    split; [now rewrite truthy_trim_idem|].
    intros els' [= <-]. rewrite E. split; [congruence|].
    intros _. apply trim_idem.
  - cbn [List.length Nat.eqb andb] in Hin.
    rewrite Forall_forall in Hok. destruct (Hok s' Hin) as [Hne Hnl].
    split; [exact Hne|].
    intros els' [= <-]. rewrite E. split; [auto|discriminate].
Qed.

End SegmenterResults.

Lemma one_section_per_heading_with_body_witness :
  let out := extractSectionsFromBody (bodyOf (flattenGroups twoGroups))
               (str "My Doc") in
  out = renameSingleTab (str "My Doc") (map (sectionOfGroup (str "My Doc")) twoGroups)
  /\ List.length out = 2
  /\ map level out = [1; 2]
  /\ map content out = [str "Step one" ++ [LF]; str "More info" ++ [LF]]
  /\ map title out = [str "Setup"; str "Details"].
Proof.
  destruct (one_section_per_heading_with_body (str "My Doc") twoGroups)
    as (Hout & Hlen & Hlevel & Hcontent & Htitle).
  - discriminate.
  - reflexivity.
  - assert (Hmany : 2 <= List.length twoGroups) by (simpl; lia).
    exact (conj Hout (conj Hlen (conj Hlevel (conj Hcontent
             (Htitle (or_introl Hmany)))))).
Defined.

(** C2 as stated fails: here are two headings and one section, since the
    first heading has nothing under it; one heading and two sections, since
    text comes before it, the first section having the parent label as its
    title; and one heading "Tab 2" with text under it in the tab "Tab 2",
    whose section is titled "Document 2". *)
Lemma sections_differ_from_headings :
  headingCount headingWithoutBody = 2
  /\ map title (extractSectionsFromBody (bodyOf headingWithoutBody) (str "My Doc"))
     = [str "Details"]
  /\ headingCount textBeforeHeading = 1
  /\ map title (extractSectionsFromBody (bodyOf textBeforeHeading) (str "My Doc"))
     = [str "My Doc"; str "Setup"]
  /\ headingCount headingNamedLikeTab = 1
  /\ map title (extractSectionsFromBody (bodyOf headingNamedLikeTab) (str "Tab 2"))
     = [str "Document 2"].
Proof. repeat split. Qed.

Lemma fallback_section_witness :
  extractSectionsFromBody (bodyOf headingAndEmptyTable) (str "Notes") =
    [newSection (str "Notes") (str "Overview") 1 (str "Notes")].
Proof.
  refine (proj1 (fallback_section (str "Notes") headingAndEmptyTable _)).
  reflexivity.
Defined.

(** C3 as stated fails: the traversal of this body emits nothing, a table
    and a heading were seen, and the one section that results is titled
    "Document 2", not after the label "Tab 2", and holds the seen content
    without its trailing newlines. *)
Lemma fallback_title_differs_from_label :
  traversalSections (str "Tab 2") headingAndEmptyTable = []
  /\ existsb (fun el => isBodyElement el && negb (isSkipped el))
       headingAndEmptyTable = true
  /\ seenContent headingAndEmptyTable = str "Overview" ++ [LF; LF; LF]
  /\ extractSectionsFromBody (bodyOf headingAndEmptyTable) (str "Tab 2") =
       [newSection (str "Document 2") (str "Overview") 1 (str "Tab 2")]
  /\ str "Document 2" <> str "Tab 2"
  /\ str "Overview" <> seenContent headingAndEmptyTable.
Proof. repeat split; discriminate. Qed.

Lemma surfaced_sections_have_content_witness :
  truthy (trim (str "Step one" ++ [LF])) = true
  /\ endsInNewline (str "Step one" ++ [LF]).
Proof.
  destruct (surfaced_sections_have_content (str "My Doc") (bodyOf scenarioA)
              (newSection (str "Setup") (str "Step one" ++ [LF]) 1 (str "My Doc")))
    as [Hne Hshape].
  - right; left. reflexivity.
  - split; [exact Hne|].
    apply (Hshape scenarioA eq_refl). discriminate.
Defined.

(** C4 as stated fails: the section cut for the heading "Pricing" holds the
    table and the newlines behind it, so its content ends in blank lines. *)
Lemma table_section_ends_in_blank_lines :
  extractSectionsFromBody (bodyOf headingAndTable) (str "Prices") =
    [ newSection (str "Pricing")
        (str "| Plan | Price |" ++ [LF] ++ str "| --- | --- |" ++ [LF]
           ++ str "| Basic | 0 |" ++ [LF; LF; LF])
        1 (str "Prices") ]
  /\ Forall (fun s => endsWithBlankLine (content s) = true)
       (extractSectionsFromBody (bodyOf headingAndTable) (str "Prices")).
Proof. split; [reflexivity|]. repeat constructor. Qed.

(** ** Page renderer: the replacements *)

Section CollapseRuns.

(** [s.replace(/X{n,}/g, rep)] where [rep] is a shorter run of [X]. *)
Variable p : char -> bool.
Variable n : nat.
Variable rep : jsstring.
Hypothesis rep_short : List.length rep < n.
Hypothesis rep_run : forallb p rep = true.
Hypothesis rep_not_nil : rep <> [].

Lemma runsBelow_app_run (x y : jsstring) (k : nat) :
  forallb p x = true ->
  k + List.length x < n ->
  runsBelow p n k (x ++ y) = runsBelow p n (k + List.length x) y.
Proof.
  revert k; induction x as [|c x IH]; intros k Hx Hk; simpl in *.
  - now rewrite Nat.add_0_r.
  - apply andb_prop in Hx as [Hc Hx]. rewrite Hc.
    replace (S k <? n) with true by (symmetry; apply Nat.ltb_lt; lia).
    rewrite IH by (auto; lia). simpl. f_equal. lia.
Qed.

Lemma flushRun_run (run : jsstring) :
  forallb p run = true ->
  forallb p (flushRun n rep run) = true
  /\ List.length (flushRun n rep run) < n.
Proof.
  intros Hrun. unfold flushRun.
  destruct (n <=? List.length run) eqn:E; [now split|].
  apply Nat.leb_gt in E. now split.
Qed.

Lemma flushRun_nil : flushRun n rep [] = [].
Proof.
  unfold flushRun. simpl.
  destruct (n <=? 0) eqn:E; [|reflexivity].
  apply Nat.leb_le in E. lia.
Qed.

Lemma flushRun_not_nil (run : jsstring) :
  run <> [] -> flushRun n rep run <> [].
Proof. unfold flushRun. now destruct (n <=? List.length run). Qed.

(** After the replacement no run has [n] units or more. *)
Lemma collapseRuns_normal (s run : jsstring) :
  forallb p run = true ->
  runsBelow p n 0 (collapseRuns p n rep run s) = true.
Proof.
  revert run; induction s as [|c s IH]; intros run Hrun; simpl.
  - destruct (flushRun_run run Hrun) as [Hf Hl].
    rewrite <- (app_nil_r (flushRun n rep run)).
    now rewrite runsBelow_app_run.
  - destruct (p c) eqn:Hc.
    + apply IH. now rewrite forallb_app, Hrun; simpl; rewrite Hc.
    + destruct (flushRun_run run Hrun) as [Hf Hl].
      rewrite runsBelow_app_run by auto. simpl. rewrite Hc. now apply IH.
Qed.

(** Where no run has [n] units the replacement changes nothing. *)
Lemma collapseRuns_stable (s run : jsstring) :
  List.length run < n ->
  runsBelow p n (List.length run) s = true ->
  collapseRuns p n rep run s = run ++ s.
Proof.
  revert run; induction s as [|c s IH]; intros run Hl Hs; simpl in *.
  - unfold flushRun. replace (n <=? List.length run) with false
      by (symmetry; apply Nat.leb_gt; lia).
    now rewrite app_nil_r.
  - destruct (p c) eqn:Hc.
    + apply andb_prop in Hs as [Hlt Hs]. apply Nat.ltb_lt in Hlt.
      rewrite IH.
      * now rewrite <- app_assoc.
      * rewrite length_app. simpl. lia.
      * rewrite length_app. simpl. now rewrite Nat.add_1_r.
    + unfold flushRun. replace (n <=? List.length run) with false
        by (symmetry; apply Nat.leb_gt; lia).
      f_equal. f_equal. apply (IH []); simpl; [lia|exact Hs].
Qed.

(** A unit outside [X] is kept. *)
Lemma collapseRuns_keeps (s run : jsstring) (c : char) :
  p c = false -> In c s -> In c (collapseRuns p n rep run s).
Proof.
  intros Hc. revert run; induction s as [|x s IH]; intros run Hin; simpl in *.
  - contradiction.
  - destruct (p x) eqn:Hx.
    + destruct Hin as [->|Hin]; [congruence|]. now apply IH.
    + apply in_or_app. right. destruct Hin as [->|Hin]; [now left|].
      right. now apply IH.
Qed.

(** *** Another class [q], disjoint from [X], keeps its runs. *)

Variable q : char -> bool.
Variable m : nat.
Hypothesis disjoint : forall c, p c = true -> q c = false.

Lemma runsBelow_skip (x y : jsstring) (k : nat) :
  forallb p x = true ->
  runsBelow q m k (x ++ y) =
    runsBelow q m (match x with [] => k | _ :: _ => 0 end) y.
Proof.
  revert k; induction x as [|c x IH]; intros k Hx; simpl in *; [reflexivity|].
  apply andb_prop in Hx as [Hc Hx]. rewrite (disjoint c Hc).
  rewrite IH by exact Hx. now destruct x.
Qed.

Lemma collapseRuns_runsBelow (s run : jsstring) (k : nat) :
  forallb p run = true ->
  runsBelow q m (match run with [] => k | _ :: _ => 0 end) s = true ->
  runsBelow q m k (collapseRuns p n rep run s) = true.
Proof.
  revert run k; induction s as [|c s IH]; intros run k Hrun Hs; simpl.
  - destruct (flushRun_run run Hrun) as [Hf _].
    rewrite <- (app_nil_r (flushRun n rep run)).
    now rewrite runsBelow_skip.
  - destruct (p c) eqn:Hc.
    + apply IH.
      * now rewrite forallb_app, Hrun; simpl; rewrite Hc.
      * simpl in Hs. rewrite (disjoint c Hc) in Hs. now destruct run.
    + destruct (flushRun_run run Hrun) as [Hf _].
      rewrite runsBelow_skip by exact Hf.
      assert (Hsame : runsBelow q m
                        (match flushRun n rep run with [] => k | _ :: _ => 0 end)
                        (c :: collapseRuns p n rep [] s) =
                      runsBelow q m
                        (match run with [] => k | _ :: _ => 0 end)
                        (c :: collapseRuns p n rep [] s)).
      { destruct run as [|r run'].
        - now rewrite flushRun_nil.
        - destruct (flushRun n rep (r :: run')) eqn:E; [|reflexivity].
          exfalso. revert E. now apply flushRun_not_nil. }
      rewrite Hsame. simpl in *.
      destruct (q c).
      * apply andb_prop in Hs as [Hlt Hs]. rewrite Hlt. simpl.
        now apply IH.
      * now apply IH.
Qed.

(** *** No unit of [X] is a period or a capital: no period comes to stand
    before a capital. *)

Hypothesis no_period : forall c, p c = true -> isDot c = false.
Hypothesis no_capital : forall c, p c = true -> isUpper c = false.

Lemma noPeriodCapital_skip (x y : jsstring) (d : bool) :
  forallb p x = true ->
  noPeriodCapital d (x ++ y) =
    noPeriodCapital (match x with [] => d | _ :: _ => false end) y.
Proof.
  revert d; induction x as [|c x IH]; intros d Hx; simpl in *; [reflexivity|].
  apply andb_prop in Hx as [Hc Hx].
  rewrite (no_capital c Hc), andb_false_r, (no_period c Hc). simpl.
  rewrite IH by exact Hx. now destruct x.
Qed.

Lemma collapseRuns_noPeriodCapital (s run : jsstring) (d : bool) :
  forallb p run = true ->
  noPeriodCapital (match run with [] => d | _ :: _ => false end) s = true ->
  noPeriodCapital d (collapseRuns p n rep run s) = true.
Proof.
  revert run d; induction s as [|c s IH]; intros run d Hrun Hs; simpl.
  - destruct (flushRun_run run Hrun) as [Hf _].
    rewrite <- (app_nil_r (flushRun n rep run)).
    now rewrite noPeriodCapital_skip.
  - destruct (p c) eqn:Hc.
    + apply IH.
      * now rewrite forallb_app, Hrun; simpl; rewrite Hc.
      * simpl in Hs. rewrite (no_capital c Hc), andb_false_r in Hs.
        rewrite (no_period c Hc) in Hs. simpl in Hs. now destruct run.
    + destruct (flushRun_run run Hrun) as [Hf _].
      rewrite noPeriodCapital_skip by exact Hf.
      assert (Hsame : (match flushRun n rep run with [] => d | _ :: _ => false end)
                      = (match run with [] => d | _ :: _ => false end)).
      { destruct run as [|r run'].
        - now rewrite flushRun_nil.
        - destruct (flushRun n rep (r :: run')) eqn:E; [|reflexivity].
          exfalso. revert E. now apply flushRun_not_nil. }
      rewrite Hsame. simpl in *.
      apply andb_prop in Hs as [Hhead Hs]. rewrite Hhead. simpl.
      now apply IH.
Qed.

End CollapseRuns.

Section SpaceAfterPeriods.

(** Induction that follows the two-unit look-ahead of the scan. *)
Lemma pair_induction (P : jsstring -> Prop) :
  P [] ->
  (forall a, P [a]) ->
  (forall a b s, P s -> P (b :: s) -> P (a :: b :: s)) ->
  forall s, P s.
Proof.
  intros Hnil Hone Hstep s.
  assert (H : P s /\ forall a, P (a :: s)).
  { induction s as [|b s [IHs IHcons]]; split; auto. }
  exact (proj1 H).
Qed.

Lemma isDot_not_upper (c : char) : isDot c = true -> isUpper c = false.
Proof. unfold isDot. intros H. apply N.eqb_eq in H. now subst c. Qed.

Lemma isUpper_not_dot (c : char) : isUpper c = true -> isDot c = false.
Proof.
  intros H. destruct (isDot c) eqn:E; [|reflexivity].
  rewrite (isDot_not_upper c E) in H. discriminate.
Qed.

Lemma isDot_not_LF (c : char) : isDot c = true -> isLF c = false.
Proof. unfold isDot. intros H. apply N.eqb_eq in H. now subst c. Qed.

Lemma isUpper_not_LF (c : char) : isUpper c = true -> isLF c = false.
Proof.
  unfold isLF. intros H. destruct (N.eqb_spec c LF) as [->|]; [|reflexivity].
  discriminate H.
Qed.

(** After the replacement no period stands before a capital. *)
Lemma scanPeriods_normal (s : jsstring) :
  forall d,
    (d = true -> match s with c :: _ => isUpper c = false | [] => True end) ->
    noPeriodCapital d (scanPeriods s) = true.
Proof.
  induction s as [|a|a b s IHs IHbs] using pair_induction; intros d Hd.
  - reflexivity.
  - simpl. destruct d; [|reflexivity]. now rewrite (Hd eq_refl).
  - cbn [scanPeriods].
    assert (Ha : negb (d && isUpper a) = true).
    { destruct d; [|reflexivity]. now rewrite (Hd eq_refl). }
    destruct (isDot a && isUpper b) eqn:E.
    + apply andb_prop in E as [Hdot Hup].
      cbn [noPeriodCapital]. rewrite Ha, Hdot, Hup, (isUpper_not_dot b Hup).
      cbn. apply IHs. discriminate.
    + cbn [noPeriodCapital]. rewrite Ha. cbn [andb].
      apply IHbs. intros Hdot. rewrite Hdot in E. exact E.
Qed.

(** Where no period stands before a capital the replacement changes
    nothing. *)
Lemma scanPeriods_stable (s : jsstring) :
  forall d, noPeriodCapital d s = true -> scanPeriods s = s.
Proof.
  induction s as [|a|a b s IHs IHbs] using pair_induction; intros d H.
  - reflexivity.
  - reflexivity.
  - cbn [scanPeriods]. cbn [noPeriodCapital] in H.
    apply andb_prop in H as [_ H]. pose proof H as Hbs.
    apply andb_prop in H as [Hpair _]. apply negb_true_iff in Hpair.
    rewrite Hpair. f_equal. apply (IHbs (isDot a)). exact Hbs.
Qed.

(** The inserted space breaks no line: runs of newlines stay as they
    are. *)
Lemma scanPeriods_runsBelow (s : jsstring) :
  forall k,
    runsBelow isLF 3 k s = true ->
    runsBelow isLF 3 k (scanPeriods s) = true.
Proof.
  induction s as [|a|a b s IHs IHbs] using pair_induction; intros k H.
  - reflexivity.
  - exact H.
  - cbn [scanPeriods].
    destruct (isDot a && isUpper b) eqn:E.
    + apply andb_prop in E as [Hdot Hup].
      cbn [runsBelow] in *.
      rewrite (isDot_not_LF a Hdot), (isUpper_not_LF b Hup) in *.
      change (isLF SP) with false. cbn. now apply IHs.
    + cbn [runsBelow] in *. destruct (isLF a).
      * apply andb_prop in H as [Hlt H]. rewrite Hlt. cbn [andb].
        now apply IHbs.
      * now apply IHbs.
Qed.

Lemma scanPeriods_keeps (s : jsstring) (c : char) :
  In c s -> In c (scanPeriods s).
Proof.
  induction s as [|a|a b s IHs IHbs] using pair_induction; intros Hin.
  - contradiction.
  - exact Hin.
  - cbn [scanPeriods].
    destruct (isDot a && isUpper b).
    + destruct Hin as [->|[->|Hin]]; simpl; auto.
    + destruct Hin as [->|Hin]; [now left|]. right. now apply IHbs.
Qed.

End SpaceAfterPeriods.

Section ScansAreReplacements.

(** The scans above compute what the replacement of all matches computes. *)

Variable p : char -> bool.
Variable n : nat.
Variable rep : jsstring.
Hypothesis n_positive : 1 <= n.

(** The units of a match are passed over, whatever they are. *)
Lemma replaceAllFrom_skip (m : Matcher) (x rest : jsstring) :
  replaceAllFrom m (List.length x) (x ++ rest) = replaceAllFrom m 0 rest.
Proof.
  induction x as [|c x IH]; simpl; [|exact IH].
  destruct rest; reflexivity.
Qed.

Lemma runLength_run (x rest : jsstring) :
  forallb p x = true ->
  match rest with [] => True | c :: _ => p c = false end ->
  runLength p (x ++ rest) = List.length x.
Proof.
  intros Hx Hrest. induction x as [|c x IH]; simpl in *.
  - destruct rest as [|c r]; [reflexivity|]. simpl. now rewrite Hrest.
  - apply andb_prop in Hx as [Hc Hx]. rewrite Hc. f_equal. now apply IH.
Qed.

(** A whole run at the head: replaced when long enough, copied otherwise. *)
Lemma replaceAllFrom_run (x rest : jsstring) :
  forallb p x = true ->
  match rest with [] => True | c :: _ => p c = false end ->
  replaceAllFrom (matchRun p n rep) 0 (x ++ rest) =
    flushRun n rep x ++ replaceAllFrom (matchRun p n rep) 0 rest.
Proof.
  intros Hx Hrest. unfold flushRun.
  destruct (n <=? List.length x) eqn:E.
  - destruct x as [|c x]; [apply Nat.leb_le in E; simpl in E; lia|].
    cbn [app replaceAllFrom]. unfold matchRun at 1.
    change (c :: x ++ rest) with ((c :: x) ++ rest).
    rewrite (runLength_run (c :: x) rest Hx Hrest), E. cbn [List.length].
    now rewrite replaceAllFrom_skip.
  - apply Nat.leb_gt in E.
    induction x as [|c x IH]; [reflexivity|].
    cbn [app replaceAllFrom]. unfold matchRun at 1.
    change (c :: x ++ rest) with ((c :: x) ++ rest).
    rewrite (runLength_run (c :: x) rest Hx Hrest).
    replace (n <=? List.length (c :: x)) with false
      by (symmetry; apply Nat.leb_gt; exact E).
    f_equal. simpl in Hx. apply andb_prop in Hx as [_ Hx].
    apply IH; [exact Hx|simpl in E; lia].
Qed.

Lemma replaceAllFrom_collapseRuns (s : jsstring) :
  forall run,
    forallb p run = true ->
    replaceAllFrom (matchRun p n rep) 0 (run ++ s) = collapseRuns p n rep run s.
Proof.
  induction s as [|c s IH]; intros run Hrun.
  - rewrite (replaceAllFrom_run run [] Hrun I). simpl. now rewrite app_nil_r.
  - cbn [collapseRuns]. destruct (p c) eqn:Hc.
    + rewrite <- IH by (now rewrite forallb_app, Hrun; simpl; rewrite Hc).
      now rewrite <- app_assoc.
    + rewrite (replaceAllFrom_run run (c :: s) Hrun Hc). f_equal.
      cbn [replaceAllFrom]. unfold matchRun at 1. cbn [runLength]. rewrite Hc.
      replace (n <=? 0) with false by (symmetry; apply Nat.leb_gt; lia).
      f_equal. exact (IH [] eq_refl).
Qed.

(** [s.replace(/X{n,}/g, rep)] is the scan of the runs of [X]. *)
Lemma replaceAll_matchRun (s : jsstring) :
  replaceAll (matchRun p n rep) s = collapseRuns p n rep [] s.
Proof. exact (replaceAllFrom_collapseRuns s [] eq_refl). Qed.

(** [s.replace(/\.([A-Z])/g, '. $1')] is the scan with look-ahead. *)
Lemma spaceAfterPeriods_scan (s : jsstring) : spaceAfterPeriods s = scanPeriods s.
Proof.
  unfold spaceAfterPeriods, replaceAll.
  induction s as [|a|a b s IHs IHbs] using pair_induction.
  - reflexivity.
  - reflexivity.
  - cbn [scanPeriods]. cbn [replaceAllFrom matchPeriodCapital].
    destruct (isDot a && isUpper b) eqn:E.
    + apply andb_prop in E as [Hdot _]. apply N.eqb_eq in Hdot. subst a.
      cbn [app]. do 3 f_equal. destruct s; [reflexivity|exact IHs].
    + f_equal. exact IHbs.
Qed.

End ScansAreReplacements.

Section Infixes.

Variable p : char -> bool.
Variable n : nat.

Lemma runsBelow_mono (s : jsstring) :
  forall k k', k' <= k ->
               runsBelow p n k s = true -> runsBelow p n k' s = true.
Proof.
  induction s as [|c s IH]; intros k k' Hk H; simpl in *; [reflexivity|].
  destruct (p c); [|exact H].
  apply andb_prop in H as [Hlt H]. apply Nat.ltb_lt in Hlt.
  replace (S k' <? n) with true by (symmetry; apply Nat.ltb_lt; lia).
  simpl. apply (IH (S k)); [lia|exact H].
Qed.

Lemma runsBelow_suffix (a s : jsstring) :
  forall k, runsBelow p n k (a ++ s) = true -> runsBelow p n 0 s = true.
Proof.
  induction a as [|c a IH]; intros k H; simpl in *.
  - apply (runsBelow_mono s k); [lia|exact H].
  - destruct (p c).
    + apply andb_prop in H as [_ H]. exact (IH _ H).
    + exact (IH _ H).
Qed.

Lemma runsBelow_prefix (s b : jsstring) :
  forall k, runsBelow p n k (s ++ b) = true -> runsBelow p n k s = true.
Proof.
  induction s as [|c s IH]; intros k H; simpl in *; [reflexivity|].
  destruct (p c).
  - apply andb_prop in H as [Hlt H]. rewrite Hlt. simpl. exact (IH _ H).
  - exact (IH _ H).
Qed.

(** [trim] makes no run longer. *)
Lemma trim_runsBelow (s : jsstring) :
  runsBelow p n 0 s = true -> runsBelow p n 0 (trim s) = true.
Proof.
  destruct (trim_split s) as (a & b & Hs & _ & _).
  intros H. rewrite Hs in H.
  apply runsBelow_suffix in H. now apply runsBelow_prefix in H.
Qed.

Lemma noPeriodCapital_weaken (s : jsstring) (d : bool) :
  noPeriodCapital d s = true -> noPeriodCapital false s = true.
Proof.
  destruct s as [|c s]; simpl; [reflexivity|].
  intros H. apply andb_prop in H as [_ H]. exact H.
Qed.

Lemma noPeriodCapital_suffix (a s : jsstring) :
  forall d, noPeriodCapital d (a ++ s) = true -> noPeriodCapital false s = true.
Proof.
  induction a as [|c a IH]; intros d H; simpl in *.
  - exact (noPeriodCapital_weaken s d H).
  - apply andb_prop in H as [_ H]. exact (IH _ H).
Qed.

Lemma noPeriodCapital_prefix (s b : jsstring) :
  forall d, noPeriodCapital d (s ++ b) = true -> noPeriodCapital d s = true.
Proof.
  induction s as [|c s IH]; intros d H; simpl in *; [reflexivity|].
  apply andb_prop in H as [Hhead H]. rewrite Hhead. simpl. exact (IH _ H).
Qed.

(** [trim] brings no period before a capital. *)
Lemma trim_noPeriodCapital (s : jsstring) :
  noPeriodCapital false s = true -> noPeriodCapital false (trim s) = true.
Proof.
  destruct (trim_split s) as (a & b & Hs & _ & _).
  intros H. rewrite Hs in H.
  apply noPeriodCapital_suffix in H. now apply noPeriodCapital_prefix in H.
Qed.

End Infixes.

(** ** Page renderer: the clean-up *)

Section Normalization.

Lemma isBlank_not_LF (c : char) : isBlank c = true -> isLF c = false.
Proof.
  unfold isBlank, isLF. intros H. apply orb_prop in H as [H|H];
    apply N.eqb_eq in H; now subst c.
Qed.

Lemma isBlank_not_dot (c : char) : isBlank c = true -> isDot c = false.
Proof.
  unfold isBlank, isDot. intros H. apply orb_prop in H as [H|H];
    apply N.eqb_eq in H; now subst c.
Qed.

Lemma isBlank_not_upper (c : char) : isBlank c = true -> isUpper c = false.
Proof.
  unfold isBlank. intros H. apply orb_prop in H as [H|H];
    apply N.eqb_eq in H; now subst c.
Qed.

Lemma isLF_whiteSpace (c : char) : isLF c = true -> isWhiteSpace c = true.
Proof. unfold isLF. intros H. apply N.eqb_eq in H. now subst c. Qed.

Lemma isBlank_whiteSpace (c : char) : isBlank c = true -> isWhiteSpace c = true.
Proof.
  unfold isBlank. intros H. apply orb_prop in H as [H|H];
    apply N.eqb_eq in H; now subst c.
Qed.

Lemma collapseNewlines_scan (s : jsstring) :
  collapseNewlines s = collapseRuns isLF 3 [LF; LF] [] s.
Proof. unfold collapseNewlines. apply replaceAll_matchRun. lia. Qed.

Lemma collapseBlanks_scan (s : jsstring) :
  collapseBlanks s = collapseRuns isBlank 2 [SP] [] s.
Proof. unfold collapseBlanks. apply replaceAll_matchRun. lia. Qed.

Lemma collapseNewlines_normal (s : jsstring) :
  runsBelow isLF 3 0 (collapseNewlines s) = true.
Proof.
  rewrite collapseNewlines_scan. apply collapseRuns_normal; try reflexivity.
  simpl. lia.
Qed.

Lemma collapseNewlines_stable (s : jsstring) :
  runsBelow isLF 3 0 s = true -> collapseNewlines s = s.
Proof.
  intros H. rewrite collapseNewlines_scan.
  rewrite collapseRuns_stable; simpl; auto; lia.
Qed.

Lemma collapseBlanks_normal (s : jsstring) :
  runsBelow isBlank 2 0 (collapseBlanks s) = true.
Proof.
  rewrite collapseBlanks_scan. apply collapseRuns_normal; try reflexivity.
  simpl. lia.
Qed.

Lemma collapseBlanks_stable (s : jsstring) :
  runsBelow isBlank 2 0 s = true -> collapseBlanks s = s.
Proof.
  intros H. rewrite collapseBlanks_scan.
  rewrite collapseRuns_stable; simpl; auto; lia.
Qed.

Lemma collapseBlanks_newlines (s : jsstring) :
  runsBelow isLF 3 0 s = true -> runsBelow isLF 3 0 (collapseBlanks s) = true.
Proof.
  intros H. rewrite collapseBlanks_scan.
  apply collapseRuns_runsBelow; try reflexivity; try discriminate.
  - simpl. lia.
  - exact isBlank_not_LF.
  - exact H.
Qed.

Lemma collapseBlanks_periods (s : jsstring) :
  noPeriodCapital false s = true ->
  noPeriodCapital false (collapseBlanks s) = true.
Proof.
  intros H. rewrite collapseBlanks_scan.
  apply collapseRuns_noPeriodCapital; try reflexivity; try discriminate.
  - simpl. lia.
  - exact isBlank_not_dot.
  - exact isBlank_not_upper.
  - exact H.
Qed.

Lemma spaceAfterPeriods_normal (s : jsstring) :
  noPeriodCapital false (spaceAfterPeriods s) = true.
Proof.
  rewrite spaceAfterPeriods_scan. apply scanPeriods_normal. discriminate.
Qed.

Lemma spaceAfterPeriods_stable (s : jsstring) :
  noPeriodCapital false s = true -> spaceAfterPeriods s = s.
Proof.
  intros H. rewrite spaceAfterPeriods_scan. exact (scanPeriods_stable s false H).
Qed.

Lemma spaceAfterPeriods_newlines (s : jsstring) :
  runsBelow isLF 3 0 s = true ->
  runsBelow isLF 3 0 (spaceAfterPeriods s) = true.
Proof.
  intros H. rewrite spaceAfterPeriods_scan. now apply scanPeriods_runsBelow.
Qed.

(** The clean-up ends in its normal form ... *)
Lemma normalizeContent_normalForm (c : jsstring) : normalForm (normalizeContent c).
Proof.
  unfold normalizeContent, normalForm. repeat split.
  - apply trim_idem.
  - apply trim_runsBelow, collapseBlanks_newlines, spaceAfterPeriods_newlines,
      collapseNewlines_normal.
  - apply trim_noPeriodCapital, collapseBlanks_periods, spaceAfterPeriods_normal.
  - apply trim_runsBelow, collapseBlanks_normal.
Qed.

(** ... and leaves a string in normal form as it is. *)
Lemma normalForm_fixed (s : jsstring) : normalForm s -> normalizeContent s = s.
Proof.
  intros (Htrim & Hnl & Hdot & Hblank). unfold normalizeContent.
  rewrite Htrim, (collapseNewlines_stable s Hnl),
    (spaceAfterPeriods_stable s Hdot), (collapseBlanks_stable s Hblank).
  exact Htrim.
Qed.

Lemma nonblank_unit (s : jsstring) :
  forallb isWhiteSpace s = false ->
  exists c, In c s /\ isWhiteSpace c = false.
Proof.
  induction s as [|x s IH]; simpl; [discriminate|].
  destruct (isWhiteSpace x) eqn:E; simpl.
  - intros H. destruct (IH H) as [c [Hin Hc]]. exists c. auto.
  - intros _. exists x. auto.
Qed.

Lemma unit_nonblank (s : jsstring) (c : char) :
  In c s -> isWhiteSpace c = false -> forallb isWhiteSpace s = false.
Proof.
  intros Hin Hc. destruct (forallb isWhiteSpace s) eqn:E; [|reflexivity].
  rewrite forallb_forall in E. rewrite (E c Hin) in Hc. discriminate.
Qed.

(** Content that is not blank stays so under the clean-up. *)
Lemma normalizeContent_truthy (c : jsstring) :
  truthy (trim c) = true -> truthy (normalizeContent c) = true.
Proof.
  intros H. rewrite <- truthy_trim_idem, truthy_trim in H.
  apply negb_true_iff, nonblank_unit in H as [x [Hin Hx]].
  unfold normalizeContent. rewrite truthy_trim. apply negb_true_iff.
  apply (unit_nonblank _ x); [|exact Hx].
  rewrite collapseBlanks_scan, spaceAfterPeriods_scan, collapseNewlines_scan.
  apply collapseRuns_keeps.
  { destruct (isBlank x) eqn:E; [|reflexivity].
    rewrite (isBlank_whiteSpace x E) in Hx. discriminate. }
  apply scanPeriods_keeps, collapseRuns_keeps; [|exact Hin].
  destruct (isLF x) eqn:E; [|reflexivity].
  rewrite (isLF_whiteSpace x E) in Hx. discriminate.
Qed.

Lemma normalizeContent_blank (c : jsstring) :
  truthy (trim c) = false -> normalizeContent c = [].
Proof.
  unfold normalizeContent. destruct (trim c); [reflexivity|discriminate].
Qed.

End Normalization.

(** C7: the clean-up of the page renderer (trim; three or more newlines to
    two; a space between a period and a capital; two or more blanks to one
    space; trim) is idempotent. *)
Theorem normalizeContent_idempotent (c : jsstring) :
  normalizeContent (normalizeContent c) = normalizeContent c.
Proof. apply normalForm_fixed, normalizeContent_normalForm. Qed.

(** C6 (as the code has it): for a section of level 1 or more the page is
    '#' repeated min(level, 6) times, a space, the title, a blank line and
    the cleaned content; when the content is not blank, the cleaned content
    ends in a unit that is not white space and one newline follows it, so
    that the page ends in exactly one newline; when the content is blank, the
    page ends with the blank line behind the title. *)
Theorem page_layout (s : Section) :
  1 <= level s ->
  page_content (createNotionPageFromSection s) =
    repeat HASH (Nat.min (level s) 6) ++ str " " ++ title s ++ [LF; LF]
      ++ normalizeContent (content s)
      ++ (if truthy (trim (content s)) then [LF] else [])
  /\ (if truthy (trim (content s))
      then exists body c,
             normalizeContent (content s) = body ++ [c]
             /\ isWhiteSpace c = false
      else normalizeContent (content s) = []).
Proof.
  intros Hlevel. unfold createNotionPageFromSection. cbn [page_content].
  replace (level s =? 0) with false by (symmetry; apply Nat.eqb_neq; lia).
  destruct (truthy (trim (content s))) eqn:Ht.
  - pose proof (normalizeContent_truthy (content s) Ht) as Hn.
    unfold normalizeContent in Hn at 1. fold (normalizeContent (content s)) in Hn.
    assert (Hlast : exists body c,
               normalizeContent (content s) = body ++ [c]
               /\ isWhiteSpace c = false).
    { unfold normalizeContent in *. rewrite <- truthy_trim_idem in Hn.
      destruct (trim_last _ Hn) as (t & c & Htc & Hc).
      rewrite trim_idem in Htc. now exists t, c. }
    split; [|exact Hlast].
    destruct Hlast as (body & c & Hbody & Hc). rewrite Hbody.
    replace ((repeat HASH (Nat.min (level s) 6) ++ str " " ++ title s ++ [LF; LF])
               ++ body ++ [c])
      with ((repeat HASH (Nat.min (level s) 6) ++ str " " ++ title s ++ [LF; LF]
               ++ body) ++ [c])
      by (now rewrite <- !app_assoc).
    rewrite endsWith_snoc.
    destruct (N.eqb_spec c LF) as [->|_]; [discriminate Hc|].
    cbn [negb]. now rewrite <- !app_assoc.
  - rewrite (normalizeContent_blank (content s) Ht).
    split; [|reflexivity].
    rewrite !app_nil_r.
    replace (repeat HASH (Nat.min (level s) 6) ++ str " " ++ title s ++ [LF; LF])
      with ((repeat HASH (Nat.min (level s) 6) ++ str " " ++ title s ++ [LF]) ++ [LF])
      by (now rewrite <- !app_assoc).
    rewrite endsWith_snoc. reflexivity.
Qed.

Lemma page_layout_witness :
  page_content
    (createNotionPageFromSection
       (newSection (str "Setup") (str "Step one.Then  rest" ++ [LF]) 2 (str "Doc")))
  = str "## Setup" ++ [LF; LF] ++ str "Step one. Then rest" ++ [LF].
Proof.
  refine (proj1 (page_layout
                   (newSection (str "Setup") (str "Step one.Then  rest" ++ [LF]) 2
                      (str "Doc")) _)).
  simpl. lia.
Defined.

(** C6 as stated fails: for a section without content the page is the title
    line and the blank line, and so ends in two newlines. *)
Lemma empty_section_page_ends_in_two_newlines :
  page_content (createNotionPageFromSection (newSection (str "Empty") [] 1 (str "Doc")))
  = str "# Empty" ++ [LF; LF]
  /\ endsWith
       (page_content
          (createNotionPageFromSection (newSection (str "Empty") [] 1 (str "Doc"))))
       [LF; LF] = true.
Proof. split; reflexivity. Qed.


(** * Further properties *)

(** ** Share links *)

Section ShareLinks.

Lemma skipn_length_app (l t : jsstring) : skipn (List.length l) (l ++ t) = t.
Proof. induction l as [|x l IH]; simpl; auto. Qed.

Lemma runLength_firstn (p : char -> bool) (s : jsstring) :
  forallb p (firstn (runLength p s) s) = true
  /\ List.length (firstn (runLength p s) s) = runLength p s
  /\ match skipn (runLength p s) s with
     | [] => True
     | c :: _ => p c = false
     end.
Proof.
  induction s as [|c s (IHall & IHlen & IHrest)]; simpl; [auto|].
  destruct (p c) eqn:E; simpl.
  - rewrite E, IHall, IHlen. auto.
  - auto.
Qed.

(** What a link that starts with [lit] and passes the test looks like. *)
Lemma matchIdAfter_shape (lit url : jsstring) :
  matchIdAfter lit url <> None ->
  exists id rest,
    url = lit ++ id ++ rest
    /\ id <> []
    /\ forallb isIdChar id = true
    /\ match rest with [] => True | c :: _ => isIdChar c = false end
    /\ matchIdAfter lit url = Some id
    /\ runLength isIdChar (id ++ rest) = List.length id.
Proof.
  unfold matchIdAfter. destruct (startsWith url lit) eqn:Hs; [|congruence].
  pose proof (startsWith_inv url lit Hs) as Hurl.
  set (tail := skipn (List.length lit) url) in *.
  destruct (1 <=? runLength isIdChar tail) eqn:Hk; [|congruence].
  intros _. apply Nat.leb_le in Hk.
  destruct (runLength_firstn isIdChar tail) as (Hall & Hlen & Hrest).
  exists (firstn (runLength isIdChar tail) tail),
         (skipn (runLength isIdChar tail) tail).
  rewrite firstn_skipn.
  split; [exact Hurl|]. split.
  { intros E. rewrite E in Hlen. simpl in Hlen. lia. }
  split; [exact Hall|]. split; [exact Hrest|]. split; [reflexivity|].
  now rewrite Hlen.
Qed.

Lemma matchIdAfter_head (lit id rest : jsstring) :
  id <> [] ->
  runLength isIdChar (id ++ rest) = List.length id ->
  matchIdAfter lit (lit ++ id ++ rest) = Some id.
Proof.
  intros Hne Hrun. unfold matchIdAfter.
  rewrite startsWith_app, skipn_length_app, Hrun.
  destruct id as [|c id]; [contradiction|].
  cbn [List.length Nat.leb]. f_equal.
  change (S (List.length id)) with (List.length (c :: id)).
  now rewrite firstn_app, Nat.sub_diag, firstn_all, app_nil_r.
Qed.

(** The first "/document/d/" of a link to docs.google.com is the one behind
    the host. *)
Lemma firstMatch_docs_link (tail : jsstring) :
  firstMatch (matchIdAfter (str "/document/d/"))
    (str "https://docs.google.com/document/d/" ++ tail)
  = match matchIdAfter (str "/document/d/") (str "/document/d/" ++ tail) with
    | Some id => Some id
    | None => firstMatch (matchIdAfter (str "/document/d/"))
                (skipn 1 (str "/document/d/" ++ tail))
    end.
Proof. reflexivity. Qed.

(** The first "/folders/" of a link to drive.google.com is the one behind
    "/drive". *)
Lemma firstMatch_folder_link (tail : jsstring) :
  firstMatch (matchIdAfter (str "/folders/"))
    (str "https://drive.google.com/drive/folders/" ++ tail)
  = match matchIdAfter (str "/folders/") (str "/folders/" ++ tail) with
    | Some id => Some id
    | None => firstMatch (matchIdAfter (str "/folders/"))
                (skipn 1 (str "/folders/" ++ tail))
    end.
Proof. reflexivity. Qed.

End ShareLinks.

(** X1: a link that [validateGoogleDocsUrl] accepts is
    "https://docs.google.com/document/d/", an id made of letters, digits,
    hyphens and underscores, and a rest that does not go on with such a
    character; [extractDocId] does not throw on it and returns that id. *)
Theorem valid_docs_link_yields_its_id (url : jsstring) :
  validateGoogleDocsUrl url = true ->
  exists id rest,
    url = str "https://docs.google.com/document/d/" ++ id ++ rest
    /\ id <> []
    /\ forallb isIdChar id = true
    /\ match rest with [] => True | c :: _ => isIdChar c = false end
    /\ extractDocId url = Returned id.
Proof.
  unfold validateGoogleDocsUrl. intros H.
  destruct (matchIdAfter_shape (str "https://docs.google.com/document/d/") url)
    as (id & rest & Hurl & Hne & Hall & Hrest & _ & Hrun).
  { destruct (matchIdAfter _ url); congruence. }
  exists id, rest. repeat split; auto.
  unfold extractDocId. rewrite Hurl, firstMatch_docs_link.
  now rewrite (matchIdAfter_head (str "/document/d/") id rest Hne Hrun).
Qed.

Lemma valid_docs_link_yields_its_id_witness :
  exists id rest,
    str "https://docs.google.com/document/d/1AbC-_9x/edit?tab=t.0"
      = str "https://docs.google.com/document/d/" ++ id ++ rest
    /\ id <> []
    /\ forallb isIdChar id = true
    /\ match rest with [] => True | c :: _ => isIdChar c = false end
    /\ extractDocId (str "https://docs.google.com/document/d/1AbC-_9x/edit?tab=t.0")
       = Returned id.
Proof.
  apply (valid_docs_link_yields_its_id
           (str "https://docs.google.com/document/d/1AbC-_9x/edit?tab=t.0")).
  reflexivity.
Defined.

(** X2: a link that [validateGoogleDriveFolderUrl] accepts is
    "https://drive.google.com/drive/folders/", an id and a rest as above;
    [extractFolderId] does not throw on it and returns that id. *)
Theorem valid_folder_link_yields_its_id (url : jsstring) :
  validateGoogleDriveFolderUrl url = true ->
  exists id rest,
    url = str "https://drive.google.com/drive/folders/" ++ id ++ rest
    /\ id <> []
    /\ forallb isIdChar id = true
    /\ match rest with [] => True | c :: _ => isIdChar c = false end
    /\ extractFolderId url = Returned id.
Proof.
  unfold validateGoogleDriveFolderUrl. intros H.
  destruct (matchIdAfter_shape (str "https://drive.google.com/drive/folders/") url)
    as (id & rest & Hurl & Hne & Hall & Hrest & _ & Hrun).
  { destruct (matchIdAfter _ url); congruence. }
  exists id, rest. repeat split; auto.
  unfold extractFolderId. rewrite Hurl, firstMatch_folder_link.
  now rewrite (matchIdAfter_head (str "/folders/") id rest Hne Hrun).
Qed.

Lemma valid_folder_link_yields_its_id_witness :
  exists id rest,
    str "https://drive.google.com/drive/folders/0B_x-7?usp=sharing"
      = str "https://drive.google.com/drive/folders/" ++ id ++ rest
    /\ id <> []
    /\ forallb isIdChar id = true
    /\ match rest with [] => True | c :: _ => isIdChar c = false end
    /\ extractFolderId (str "https://drive.google.com/drive/folders/0B_x-7?usp=sharing")
       = Returned id.
Proof.
  apply (valid_folder_link_yields_its_id
           (str "https://drive.google.com/drive/folders/0B_x-7?usp=sharing")).
  reflexivity.
Defined.

(** ** Markdown files *)

Section MarkdownFiles.

(** Deleting the units of a class is filtering them out. *)
Lemma replaceAll_matchUnit_nil (p : char -> bool) (s : jsstring) :
  replaceAll (matchUnit p []) s = filter (fun c => negb (p c)) s.
Proof.
  unfold replaceAll. induction s as [|c s IH]; [reflexivity|].
  cbn [replaceAllFrom matchUnit filter]. destruct (p c); cbn [negb app].
  - exact IH.
  - now rewrite IH.
Qed.

Lemma cleanTitle_scan (t : jsstring) :
  cleanTitle t =
    toLowerCase (collapseRuns isWhiteSpace 1 [HYPHEN] [] (filter isTitleChar t)).
Proof.
  unfold cleanTitle. rewrite replaceAll_matchUnit_nil, replaceAll_matchRun by lia.
  do 2 f_equal. apply filter_ext. intros c. apply negb_involutive.
Qed.

Lemma isTitleChar_name (c : char) :
  isTitleChar c = true -> isWhiteSpace c = false -> isNameChar c = true.
Proof.
  unfold isTitleChar, isNameChar. intros H Hw. rewrite Hw in H.
  now rewrite orb_false_r in H.
Qed.

(** Behind the second replacement no white space is left. *)
Lemma hyphenate_names (s run : jsstring) :
  forallb isTitleChar s = true ->
  forallb isNameChar (collapseRuns isWhiteSpace 1 [HYPHEN] run s) = true.
Proof.
  assert (Hflush : forall r, forallb isNameChar (flushRun 1 [HYPHEN] r) = true).
  { intros [|x r]; reflexivity. }
  revert run; induction s as [|c s IH]; intros run Hs; simpl.
  - apply Hflush.
  - simpl in Hs. apply andb_prop in Hs as [Hc Hs].
    destruct (isWhiteSpace c) eqn:Hw.
    + now apply IH.
    + rewrite forallb_app, Hflush. simpl.
      now rewrite (isTitleChar_name c Hc Hw), IH.
Qed.

Lemma toLowerCase_slug (s : jsstring) :
  forallb isNameChar s = true -> forallb isSlugChar (toLowerCase s) = true.
Proof.
  unfold toLowerCase. induction s as [|c s IH]; simpl; [reflexivity|].
  intros H. apply andb_prop in H as [Hc Hs]. rewrite (IH Hs), andb_true_r.
  unfold isNameChar in Hc. unfold isSlugChar.
  destruct (isUpper c) eqn:Hu.
  - unfold isUpper in Hu. apply andb_prop in Hu as [H1 H2].
    apply N.leb_le in H1, H2.
    assert (Hl : isLower (c + 32)%N = true).
    { unfold isLower. apply andb_true_intro. split; apply N.leb_le; lia. }
    now rewrite Hl.
  - rewrite orb_false_r in Hc. exact Hc.
Qed.

Lemma cleanTitle_slug (t : jsstring) : forallb isSlugChar (cleanTitle t) = true.
Proof.
  rewrite cleanTitle_scan. apply toLowerCase_slug, hyphenate_names.
  apply forallb_forall. intros c Hc. now apply filter_In in Hc.
Qed.

Lemma isSlugChar_facts (c : char) :
  isSlugChar c = true ->
  isTitleChar c = true /\ isWhiteSpace c = false /\ isUpper c = false.
Proof.
  intros H.
  assert (Htitle : isTitleChar c = true).
  { unfold isSlugChar in H. unfold isTitleChar.
    destruct (isLower c); [reflexivity|]. destruct (isDigit c).
    - now rewrite !orb_true_r.
    - simpl in H. rewrite H. now rewrite !orb_true_r. }
  assert (Hrange : (97 <= c <= 122 \/ 48 <= c <= 57 \/ c = 45)%N).
  { unfold isSlugChar, isLower, isDigit, HYPHEN in H.
    apply orb_prop in H as [H|H]; [apply orb_prop in H as [H|H]|].
    - apply andb_prop in H as [H1 H2]. apply N.leb_le in H1, H2. lia.
    - apply andb_prop in H as [H1 H2]. apply N.leb_le in H1, H2. lia.
    - apply N.eqb_eq in H. lia. }
  split; [exact Htitle|]. split.
  - unfold isWhiteSpace. apply orb_false_intro.
    + apply Bool.not_true_is_false. intros E.
      apply existsb_exists in E as [x [Hin Hx]].
      apply N.eqb_eq in Hx. subst x. simpl in Hin.
      repeat (destruct Hin as [Hin|Hin]; [lia|]). exact Hin.
    + apply andb_false_intro1. apply N.leb_gt. lia.
  - unfold isUpper. apply Bool.not_true_is_false. intros E.
    apply andb_prop in E as [H1 H2]. apply N.leb_le in H1, H2. lia.
Qed.

(** A string of slug characters is its own clean title. *)
Lemma cleanTitle_fixed (s : jsstring) :
  forallb isSlugChar s = true -> cleanTitle s = s.
Proof.
  intros Hs. rewrite cleanTitle_scan.
  assert (Hfilter : filter isTitleChar s = s).
  { induction s as [|c s IH]; [reflexivity|]. simpl in *.
    apply andb_prop in Hs as [Hc Hs].
    destruct (isSlugChar_facts c Hc) as (Ht & _ & _).
    now rewrite Ht, IH. }
  rewrite Hfilter. clear Hfilter.
  induction s as [|c s IH]; [reflexivity|]. simpl in *.
  apply andb_prop in Hs as [Hc Hs].
  destruct (isSlugChar_facts c Hc) as (_ & Hw & Hu).
  rewrite Hw. cbn [flushRun List.length Nat.leb app toLowerCase map].
  rewrite Hu. now rewrite <- (IH Hs) at 2.
Qed.

Lemma hyphenate_nil (s run : jsstring) :
  collapseRuns isWhiteSpace 1 [HYPHEN] run s = [] -> run = [] /\ s = [].
Proof.
  revert run; induction s as [|c s IH]; intros run; simpl.
  - destruct run; [auto|discriminate].
  - destruct (isWhiteSpace c).
    + intros H. apply IH in H as [H _]. now destruct run.
    + intros H. apply app_eq_nil in H as [_ H]. discriminate.
Qed.

Lemma createMarkdownFiles_In (today : jsstring) (pages : list NotionPage)
  (f : MarkdownFile) :
  In f (createMarkdownFiles today pages) ->
  exists page,
    In page pages
    /\ truthy (trim (page_title page)) = true
    /\ file_name f = cleanTitle (page_title page) ++ str ".md"
    /\ file_content f = page_content page ++ footer today.
Proof.
  unfold createMarkdownFiles.
  assert (H : forall acc,
             In f (fold_left
                     (fun files page =>
                        if negb (truthy (page_title page))
                           || eqb (trim (page_title page)) []
                        then files
                        else files ++
                             [ {| file_name := cleanTitle (page_title page) ++ str ".md";
                                  file_content := page_content page ++ footer today |} ])
                     pages acc) ->
             In f acc
             \/ exists page,
                  In page pages
                  /\ truthy (trim (page_title page)) = true
                  /\ file_name f = cleanTitle (page_title page) ++ str ".md"
                  /\ file_content f = page_content page ++ footer today).
  { induction pages as [|pg pages IH]; intros acc Hin; simpl in Hin; [now left|].
    apply IH in Hin as [Hin|(page & Hp & Hrest)].
    - destruct (negb (truthy (page_title pg)) || eqb (trim (page_title pg)) []) eqn:E;
        [now left|].
      apply in_app_or in Hin as [Hin|[<-|[]]]; [now left|].
      right. exists pg. apply orb_false_elim in E as [_ E].
      repeat split; [now left|].
      destruct (trim (page_title pg)); [discriminate E|reflexivity].
    - right. exists page. split; [now right|exact Hrest]. }
  intros Hin. apply H in Hin as [[]|Hex]. exact Hex.
Qed.

End MarkdownFiles.

(** X3: every file [createMarkdownFiles] makes comes from a page whose title
    is not blank; its content is the content of the page followed by the
    footer, and its name is a stem of small ASCII letters, digits and hyphens
    followed by ".md". *)
Theorem file_names_are_slugs (today : jsstring) (pages : list NotionPage)
  (f : MarkdownFile) :
  In f (createMarkdownFiles today pages) ->
  exists page stem,
    In page pages
    /\ truthy (trim (page_title page)) = true
    /\ file_content f = page_content page ++ footer today
    /\ file_name f = stem ++ str ".md"
    /\ stem = cleanTitle (page_title page)
    /\ forallb isSlugChar stem = true.
Proof.
  intros Hin.
  destruct (createMarkdownFiles_In today pages f Hin) as (page & Hp & Ht & Hn & Hc).
  exists page, (cleanTitle (page_title page)).
  repeat split; auto using cleanTitle_slug.
Qed.

Lemma file_names_are_slugs_witness :
  exists page stem,
    In page [ {| page_title := str "Q&A:  Getting Started";
                 page_content := str "# Q&A" ++ [LF];
                 page_parentTab := str "Doc";
                 page_sourceDocument := None |} ]
    /\ truthy (trim (page_title page)) = true
    /\ str "# Q&A" ++ [LF] ++ footer (str "1/2/2026")
       = page_content page ++ footer (str "1/2/2026")
    /\ str "qa-getting-started.md" = stem ++ str ".md"
    /\ stem = cleanTitle (page_title page)
    /\ forallb isSlugChar stem = true.
Proof.
  apply (file_names_are_slugs (str "1/2/2026")
           [ {| page_title := str "Q&A:  Getting Started";
                page_content := str "# Q&A" ++ [LF];
                page_parentTab := str "Doc";
                page_sourceDocument := None |} ]
           {| file_name := str "qa-getting-started.md";
              file_content := str "# Q&A" ++ [LF] ++ footer (str "1/2/2026") |}).
  left. reflexivity.
Defined.

(** X4: cleaning a title is idempotent: the stem of a file name is its own
    clean title. *)
Theorem cleanTitle_idempotent (t : jsstring) :
  cleanTitle (cleanTitle t) = cleanTitle t.
Proof. apply cleanTitle_fixed, cleanTitle_slug. Qed.

(** X5: the stem of a file name is empty, and the file is called ".md",
    exactly when the title holds no ASCII letter, no digit, no hyphen and no
    white space. *)
Theorem cleanTitle_empty_iff (t : jsstring) :
  cleanTitle t = [] <-> filter isTitleChar t = [].
Proof.
  rewrite cleanTitle_scan. split.
  - unfold toLowerCase. intros H. apply map_eq_nil in H.
    now apply hyphenate_nil in H.
  - intros ->. reflexivity.
Qed.

(** ** Section segmenter: further invariants *)

Section SegmenterInvariants.

Variable parent : jsstring.

Lemma getHeadingLevel_le_6 (p : Paragraph) : getHeadingLevel p <= 6.
Proof.
  unfold getHeadingLevel.
  destruct (paragraphStyle p) as [[[[|c s]|]]|]; try lia.
  repeat match goal with
         | |- context [if ?b then _ else _] => destruct b; try lia
         end.
Qed.

Lemma textOf_app (a b : jsstring) : textOf (a ++ b) = textOf a ++ textOf b.
Proof. apply filter_app. Qed.

Lemma textOf_blank (s : jsstring) :
  forallb isWhiteSpace s = true <-> textOf s = [].
Proof.
  unfold textOf. induction s as [|c s IH]; simpl; [tauto|].
  destruct (isWhiteSpace c); simpl; [exact IH|].
  split; discriminate.
Qed.

Lemma textOf_not_truthy (s : jsstring) :
  truthy (trim s) = false -> textOf s = [].
Proof.
  rewrite truthy_trim. intros H. apply negb_false_iff in H.
  now apply textOf_blank.
Qed.

Lemma textOf_truthy (s : jsstring) :
  truthy (trim s) = true -> textOf s <> [].
Proof.
  rewrite truthy_trim. intros H E. apply textOf_blank in E.
  rewrite E in H. discriminate.
Qed.

Lemma truthy_of_textOf (s : jsstring) :
  textOf s <> [] -> truthy (trim s) = true.
Proof.
  intros H. destruct (truthy (trim s)) eqn:E; [reflexivity|].
  now apply textOf_not_truthy in E.
Qed.

(** *** The shape of the sections *)

Lemma pushCurrent_shapeOk (secs : list Section) (cur : option Section) :
  Forall (shapeOk parent) secs ->
  (forall cs, cur = Some cs -> shapeOk parent cs) ->
  Forall (shapeOk parent) (pushCurrent secs cur).
Proof.
  intros Hs Hc. unfold pushCurrent. destruct cur as [cs|]; [|exact Hs].
  destruct (truthy (trim (content cs))); [|exact Hs].
  apply Forall_app. split; [exact Hs|]. constructor; [|constructor].
  now apply Hc.
Qed.

Lemma newSection_default_shapeOk (c : jsstring) :
  shapeOk parent (newSection parent c 1 parent).
Proof. unfold shapeOk, newSection; simpl. repeat split; auto; lia. Qed.

Lemma segmentElement_shapeOk (st : SegState) (el : StructuralElement) :
  Forall (shapeOk parent) (sections st)
  /\ (forall cs, currentSection st = Some cs -> shapeOk parent cs) ->
  Forall (shapeOk parent) (sections (segmentElement parent st el))
  /\ (forall cs, currentSection (segmentElement parent st el) = Some cs ->
                 shapeOk parent cs).
Proof.
  intros [Hs Hc].
  assert (Happ : forall cs more, shapeOk parent cs ->
                                 shapeOk parent (appendContent cs more)).
  { intros cs more H. exact H. }
  destruct el as [p|t|]; simpl; [| |now split].
  - destruct (truthy (trim (extractFormattedTextFromParagraph p))) eqn:Ht; simpl;
      [|now split].
    destruct (0 <? getHeadingLevel p) eqn:Hl; simpl.
    + split; [now apply pushCurrent_shapeOk|].
      intros cs [= <-]. unfold shapeOk, newSection; simpl.
      apply Nat.ltb_lt in Hl. pose proof (getHeadingLevel_le_6 p).
      repeat split; auto; try lia.
      intros _ E. rewrite E in Ht. discriminate.
    + destruct (currentSection st) as [cs|]; simpl; (split; [exact Hs|]);
        intros cs' [= <-].
      * apply Happ. now apply Hc.
      * apply newSection_default_shapeOk.
  - destruct (currentSection st) as [cs|]; simpl; (split; [exact Hs|]);
      intros cs' [= <-].
    + apply Happ. now apply Hc.
    + apply newSection_default_shapeOk.
Qed.

Lemma traversalSections_shapeOk (els : list StructuralElement) :
  Forall (shapeOk parent) (traversalSections parent els).
Proof.
  unfold traversalSections, segmentLoop.
  assert (H : Forall (shapeOk parent)
                (sections (fold_left (segmentElement parent) els initialState))
              /\ (forall cs,
                    currentSection
                      (fold_left (segmentElement parent) els initialState) = Some cs ->
                    shapeOk parent cs)).
  { apply (fold_left_invariant (segmentElement parent)
             (fun st => Forall (shapeOk parent) (sections st)
                        /\ (forall cs, currentSection st = Some cs ->
                                       shapeOk parent cs))).
    - intros st el. apply segmentElement_shapeOk.
    - split; [constructor|]. intros cs H. discriminate. }
  destruct H as [Hs Hc]. now apply pushCurrent_shapeOk.
Qed.

Lemma renameSingleTab_shapeOk (secs : list Section) :
  Forall (shapeOk parent) secs ->
  Forall (shapeOk parent) (renameSingleTab parent secs).
Proof.
  intros H. unfold renameSingleTab. destruct secs as [|s [|s' l]]; auto.
  destruct (eqb (title s) parent && startsWith parent (str "Tab ")) eqn:E; auto.
  apply andb_prop in E as [_ Hstart].
  inversion H as [|x l Hx _]; subst. destruct Hx as (Hp & Hl & Hsrc & _).
  constructor; [|constructor]. unfold shapeOk; simpl. repeat split; auto; try lia.
  intros _. rewrite Hsrc. cbn [orElse].
  rewrite (replace_prefix (str "Tab ") (str "Document ") parent Hstart).
  discriminate.
Qed.

Lemma extractSectionsFromBody_shapeOk (body : option Body) :
  Forall (shapeOk parent) (extractSectionsFromBody body parent).
Proof.
  destruct body as [[[els|]]|]; simpl; try constructor.
  fold (traversalSections parent els).
  apply renameSingleTab_shapeOk. unfold addFallback.
  pose proof (traversalSections_shapeOk els) as H.
  destruct (_ && _); [|exact H].
  apply Forall_app. split; [exact H|].
  constructor; [apply newSection_default_shapeOk|constructor].
Qed.

Lemma extractSectionsFromBody_nonblank (body : option Body) :
  Forall (fun s => truthy (trim (content s)) = true)
    (extractSectionsFromBody body parent).
Proof.
  destruct body as [[[els|]]|]; simpl; try constructor.
  fold (traversalSections parent els).
  apply Forall_forall. intros s Hin.
  apply renameSingleTab_In in Hin as [s' [Hin ->]].
  pose proof (traversalSections_closedOk parent els) as Hok.
  rewrite Forall_forall in Hok. unfold addFallback in Hin.
  destruct (_ && _) eqn:E.
  - apply in_app_or in Hin as [Hin|[<-|[]]]; [now apply Hok|].
    apply andb_prop in E as [_ E]. cbn [newSection content].
    now rewrite truthy_trim_idem.
  - now apply Hok.
Qed.

(** *** No body text is lost *)

Lemma pushCurrent_gathered (secs : list Section) (cur : option Section) :
  textOf (List.concat (map content (pushCurrent secs cur)))
  = textOf (gathered secs cur).
Proof.
  unfold pushCurrent, gathered. destruct cur as [cs|]; [|now rewrite app_nil_r].
  destruct (truthy (trim (content cs))) eqn:E.
  - rewrite map_app, concat_app. simpl. now rewrite app_nil_r.
  - now rewrite textOf_app, (textOf_not_truthy _ E), app_nil_r.
Qed.

Lemma isHeading_not_skipped (p : Paragraph) :
  isHeading p = false ->
  isSkipped (ElemParagraph p) = false ->
  isBodyElement (ElemParagraph p) = true.
Proof. intros H _. simpl. now rewrite H. Qed.

Lemma segmentElement_gathered (st : SegState) (el : StructuralElement) :
  textOf (gathered (sections (segmentElement parent st el))
            (currentSection (segmentElement parent st el)))
  = textOf (gathered (sections st) (currentSection st))
      ++ (if isBodyElement el then textOf (elementContent el) else []).
Proof.
  destruct (isBodyElement el) eqn:Hb.
  - destruct (isSkipped el) eqn:Hs.
    + rewrite (segmentElement_skipped parent st el Hs).
      assert (He : elementContent el = []).
      { destruct el as [p|t|]; simpl in *; try discriminate; [|reflexivity].
        apply negb_true_iff in Hs. now rewrite Hs. }
      rewrite He. simpl. now rewrite app_nil_r.
    + destruct (currentSection st) as [cs|] eqn:Hc.
      * rewrite (segmentElement_body parent st cs el Hb Hc). cbn [sections currentSection].
        unfold gathered, appendContent. cbn [content].
        now rewrite !textOf_app, app_assoc.
      * rewrite (segmentElement_default parent st el Hb Hs Hc).
        cbn [sections currentSection]. unfold gathered, newSection. cbn [content].
        now rewrite !textOf_app, app_nil_r.
  - destruct el as [p|t|]; simpl in Hb; try discriminate.
    apply negb_false_iff in Hb.
    rewrite (segmentElement_heading parent st p Hb). cbn [sections currentSection].
    unfold gathered at 1. unfold newSection. cbn [content].
    now rewrite !app_nil_r, pushCurrent_gathered.
Qed.

Lemma fold_segmentElement_gathered (els : list StructuralElement) :
  forall st,
    textOf (gathered (sections (fold_left (segmentElement parent) els st))
              (currentSection (fold_left (segmentElement parent) els st)))
    = textOf (gathered (sections st) (currentSection st))
        ++ textOf (seenContent (filter isBodyElement els)).
Proof.
  induction els as [|el els IH]; intros st; simpl.
  - now rewrite app_nil_r.
  - rewrite IH, segmentElement_gathered, <- app_assoc. f_equal.
    destruct (isBodyElement el); [|reflexivity].
    unfold seenContent. cbn [flat_map]. now rewrite textOf_app.
Qed.

Lemma traversalSections_text (els : list StructuralElement) :
  textOf (List.concat (map content (traversalSections parent els)))
  = textOf (seenContent (filter isBodyElement els)).
Proof.
  unfold traversalSections, segmentLoop.
  now rewrite pushCurrent_gathered, fold_segmentElement_gathered.
Qed.

(** *** Never more sections than headings, but for the text before the
    first *)

Lemma pushCurrent_length (secs : list Section) (cur : option Section) :
  List.length (pushCurrent secs cur) <= List.length secs + 1.
Proof.
  unfold pushCurrent. destruct cur as [cs|]; [|lia].
  destruct (truthy (trim (content cs))); [|lia].
  rewrite length_app. simpl. lia.
Qed.

Lemma fold_segmentElement_count (els : list StructuralElement) :
  forall st h,
    match currentSection st with
    | None => sections st = []
    | Some _ => List.length (sections st) <= h
    end ->
    match currentSection (fold_left (segmentElement parent) els st) with
    | None => sections (fold_left (segmentElement parent) els st) = []
    | Some _ =>
        List.length (sections (fold_left (segmentElement parent) els st))
        <= h + headingCount els
    end.
Proof.
  induction els as [|el els IH]; intros st h Hst.
  - simpl. destruct (currentSection st); [unfold headingCount; simpl; lia|exact Hst].
  - cbn [fold_left].
    destruct (isBodyElement el) eqn:Hb.
    + assert (Hh : headingCount (el :: els) = headingCount els).
      { unfold headingCount. cbn [filter].
        destruct el as [p|t|]; try reflexivity.
        simpl in Hb. apply negb_true_iff in Hb. now rewrite Hb. }
      rewrite Hh. apply IH.
      destruct (isSkipped el) eqn:Hs.
      * now rewrite (segmentElement_skipped parent st el Hs).
      * destruct (currentSection st) as [cs|] eqn:Hc.
        -- now rewrite (segmentElement_body parent st cs el Hb Hc).
        -- rewrite (segmentElement_default parent st el Hb Hs Hc).
           cbn [currentSection sections]. rewrite Hst. simpl. lia.
    + destruct el as [p|t|]; simpl in Hb; try discriminate.
      apply negb_false_iff in Hb.
      assert (Hh : headingCount (ElemParagraph p :: els) = S (headingCount els)).
      { unfold headingCount. cbn [filter]. now rewrite Hb. }
      rewrite Hh, <- Nat.add_succ_comm. apply IH.
      rewrite (segmentElement_heading parent st p Hb). cbn [currentSection sections].
      pose proof (pushCurrent_length (sections st) (currentSection st)) as Hlen.
      destruct (currentSection st); [lia|].
      rewrite Hst. simpl. lia.
Qed.

End SegmenterInvariants.

Section SegmenterFacts.

Variable parent : jsstring.

Lemma seenContent_filter_blank (f : StructuralElement -> bool)
  (els : list StructuralElement) :
  textOf (seenContent els) = [] -> textOf (seenContent (filter f els)) = [].
Proof.
  unfold seenContent. induction els as [|el els IH]; simpl; [auto|].
  rewrite textOf_app. intros H. apply app_eq_nil in H as [Hel Hels].
  destruct (f el); simpl; [|now apply IH].
  now rewrite textOf_app, Hel, IH.
Qed.

Lemma traversalSections_nil_of_blank (els : list StructuralElement) :
  truthy (trim (seenContent els)) = false -> traversalSections parent els = [].
Proof.
  intros Hblank.
  pose proof (traversalSections_text parent els) as Htext.
  rewrite (seenContent_filter_blank isBodyElement els (textOf_not_truthy _ Hblank))
    in Htext.
  pose proof (traversalSections_closedOk parent els) as Hok.
  destruct (traversalSections parent els) as [|s l]; [reflexivity|].
  inversion Hok as [|x l' [Hne _] _]; subst.
  simpl in Htext. rewrite textOf_app in Htext.
  apply app_eq_nil in Htext as [Hs _].
  now apply textOf_truthy in Hne.
Qed.

End SegmenterFacts.

(** X6: a body yields no section at all exactly when everything the
    segmenter has seen in it (the text of its paragraphs, headings included,
    and the markdown of its tables) is blank. *)
Theorem body_yields_nothing_iff_blank (parent : jsstring)
  (els : list StructuralElement) :
  extractSectionsFromBody (bodyOf els) parent = []
  <-> truthy (trim (seenContent els)) = false.
Proof.
  unfold extractSectionsFromBody, bodyOf.
  fold (traversalSections parent els). rewrite segmentLoop_allContent.
  split.
  - intros H. destruct (truthy (trim (seenContent els))) eqn:E; [|reflexivity].
    exfalso.
    destruct (renameSingleTab_shape parent
                (addFallback parent (traversalSections parent els) (seenContent els)))
      as (Hlen & _ & _).
    rewrite H in Hlen. unfold addFallback in Hlen. rewrite E in Hlen.
    destruct (traversalSections parent els); simpl in Hlen; [discriminate|].
    discriminate.
  - intros E. rewrite (traversalSections_nil_of_blank parent els E).
    unfold addFallback. now rewrite E.
Qed.

(** X7: every section [extractSectionsFromBody] returns has the label it
    was called with as its parent tab, a level from 1 to 6 and no source
    document yet; and when the label is not empty, neither is the title. *)
Theorem sections_carry_label_and_level (body : option Body)
  (parent : jsstring) (s : Section) :
  In s (extractSectionsFromBody body parent) ->
  parentTab s = parent
  /\ 1 <= level s <= 6
  /\ sourceDocument s = None
  /\ (parent <> [] -> title s <> []).
Proof.
  intros Hin. pose proof (extractSectionsFromBody_shapeOk parent body) as H.
  rewrite Forall_forall in H. exact (H s Hin).
Qed.

Lemma sections_carry_label_and_level_witness :
  parentTab (newSection (str "Details") (str "More info" ++ [LF]) 2 (str "My Doc"))
    = str "My Doc"
  /\ 1 <= 2 <= 6
  /\ sourceDocument
       (newSection (str "Details") (str "More info" ++ [LF]) 2 (str "My Doc")) = None
  /\ (str "My Doc" <> [] ->
      title (newSection (str "Details") (str "More info" ++ [LF]) 2 (str "My Doc"))
        <> []).
Proof.
  apply (sections_carry_label_and_level (bodyOf scenarioA) (str "My Doc")
           (newSection (str "Details") (str "More info" ++ [LF]) 2 (str "My Doc"))).
  right; right; left. reflexivity.
Defined.

(** X8: a body never yields more sections than it has headings with a text
    that is not blank, plus one (for what comes before the first heading, or
    for the fallback). *)
Theorem at_most_one_section_more_than_headings (parent : jsstring)
  (els : list StructuralElement) :
  List.length (extractSectionsFromBody (bodyOf els) parent)
  <= headingCount els + 1.
Proof.
  unfold extractSectionsFromBody, bodyOf.
  destruct (renameSingleTab_shape parent
              (addFallback parent
                 (pushCurrent (sections (segmentLoop parent els))
                    (currentSection (segmentLoop parent els)))
                 (allContent (segmentLoop parent els)))) as (Hlen & _ & _).
  rewrite Hlen.
  pose proof (fold_segmentElement_count parent els initialState 0 eq_refl) as Hcount.
  fold (segmentLoop parent els) in Hcount.
  pose proof (pushCurrent_length (sections (segmentLoop parent els))
                (currentSection (segmentLoop parent els))) as Hpush.
  unfold addFallback.
  destruct (pushCurrent (sections (segmentLoop parent els))
              (currentSection (segmentLoop parent els))) as [|s l] eqn:E.
  - destruct (_ && _); simpl; lia.
  - cbn [List.length Nat.eqb andb].
    destruct (currentSection (segmentLoop parent els)) as [cs|].
    + simpl in *. lia.
    + rewrite Hcount in E. discriminate.
Qed.

(** X9: no text under the headings is lost. When the elements that are not
    headings hold something that is not blank, the contents of the sections,
    put together, have the same units that are not white space, in the same
    order, as those elements. *)
Theorem body_text_is_kept (parent : jsstring) (els : list StructuralElement) :
  truthy (trim (seenContent (filter isBodyElement els))) = true ->
  textOf (List.concat (map content (extractSectionsFromBody (bodyOf els) parent)))
  = textOf (seenContent (filter isBodyElement els)).
Proof.
  intros Hbody.
  pose proof (traversalSections_text parent els) as Htext.
  unfold extractSectionsFromBody, bodyOf.
  fold (traversalSections parent els).
  destruct (renameSingleTab_shape parent
              (addFallback parent (traversalSections parent els)
                 (allContent (segmentLoop parent els)))) as (_ & Hcontent & _).
  rewrite Hcontent. unfold addFallback.
  destruct (traversalSections parent els) as [|s l] eqn:E.
  - simpl in Htext. apply textOf_truthy in Hbody. now rewrite <- Htext in Hbody.
  - cbn [List.length Nat.eqb andb]. exact Htext.
Qed.

Lemma body_text_is_kept_witness :
  textOf (List.concat (map content
            (extractSectionsFromBody (bodyOf scenarioA) (str "My Doc"))))
  = textOf (seenContent (filter isBodyElement scenarioA)).
Proof.
  apply (body_text_is_kept (str "My Doc") scenarioA). reflexivity.
Defined.

(** ** Tab flattener: the sections of a document *)

Section DocumentSections.

Lemma orElse_not_nil (a : option jsstring) (b : jsstring) :
  b <> [] -> orElse a b <> [].
Proof. intros Hb. destruct a as [[|c a]|]; simpl; auto. discriminate. Qed.

Lemma effectiveTabName_not_nil (tab : Tab) (i : nat) (dt : option jsstring) :
  effectiveTabName tab i dt <> [].
Proof.
  assert (Ht : tabTitle tab i <> []).
  { unfold tabTitle. apply orElse_not_nil. discriminate. }
  unfold effectiveTabName. destruct (eqb _ _); [|exact Ht].
  now apply orElse_not_nil.
Qed.

Lemma tabsLoop_In (dt : option jsstring) (allTabs : list Tab) :
  forall i s,
    In s (tabsLoop dt i allTabs) ->
    exists tab j, In tab allTabs /\ In s (extractSectionsFromTab tab j dt).
Proof.
  induction allTabs as [|tab rest IH]; intros i s Hin; simpl in Hin; [contradiction|].
  apply in_app_or in Hin as [Hin|Hin].
  - exists tab, i. split; [now left|exact Hin].
  - destruct (IH _ _ Hin) as (t & j & Ht & Hs). exists t, j. split; [now right|exact Hs].
Qed.

(** Every section of a document was cut under a label that is not empty. *)
Lemma extractSectionsFromGoogleDoc_In (doc : GoogleDoc) (s : Section) :
  In s (extractSectionsFromGoogleDoc doc) ->
  exists body label,
    label <> [] /\ In s (extractSectionsFromBody body label).
Proof.
  unfold extractSectionsFromGoogleDoc.
  assert (Hbody : In s match doc_body doc with
                       | Some b => extractSectionsFromBody (Some b)
                                     (orElse (doc_title doc) (str "Document"))
                       | None => []
                       end ->
                  exists body label,
                    label <> [] /\ In s (extractSectionsFromBody body label)).
  { destruct (doc_body doc) as [b|]; [|contradiction].
    intros Hin. exists (Some b), (orElse (doc_title doc) (str "Document")).
    split; [apply orElse_not_nil; discriminate|exact Hin]. }
  destruct (tabs doc) as [[|t ts]|]; auto.
  intros Hin. apply tabsLoop_In in Hin as (tab & j & _ & Hin).
  unfold extractSectionsFromTab in Hin.
  destruct (tabBody tab) as [b|]; [|contradiction].
  exists (Some b), (effectiveTabName tab j (doc_title doc)).
  split; [apply effectiveTabName_not_nil|exact Hin].
Qed.

Lemma document_sections_ok (doc : GoogleDoc) (s : Section) :
  In s (extractSectionsFromGoogleDoc doc) ->
  title s <> []
  /\ parentTab s <> []
  /\ 1 <= level s <= 6
  /\ truthy (trim (content s)) = true
  /\ sourceDocument s = None.
Proof.
  intros Hin.
  destruct (extractSectionsFromGoogleDoc_In doc s Hin) as (body & label & Hl & Hs).
  pose proof (extractSectionsFromBody_shapeOk label body) as Hshape.
  pose proof (extractSectionsFromBody_nonblank label body) as Hcontent.
  rewrite Forall_forall in Hshape, Hcontent.
  destruct (Hshape s Hs) as (Hp & Hlevel & Hsrc & Htitle).
  split; [exact (Htitle Hl)|]. split; [now rewrite Hp|].
  split; [exact Hlevel|]. split; [exact (Hcontent s Hs)|exact Hsrc].
Qed.

(** The page of a section, whatever its level and content. *)
Lemma createNotionPageFromSection_content (s : Section) :
  page_content (createNotionPageFromSection s) =
    repeat HASH (Nat.min (Nat.max 1 (level s)) 6) ++ str " " ++ title s
      ++ [LF; LF] ++ normalizeContent (content s)
      ++ (if truthy (trim (content s)) then [LF] else []).
Proof.
  unfold createNotionPageFromSection. cbn [page_content].
  replace (if level s =? 0 then 1 else level s) with (Nat.max 1 (level s))
    by (destruct (level s); reflexivity).
  destruct (truthy (trim (content s))) eqn:Ht.
  - pose proof (normalizeContent_truthy (content s) Ht) as Hn.
    unfold normalizeContent in Hn at 1.
    fold (normalizeContent (content s)) in Hn.
    assert (Hlast : exists body c,
               normalizeContent (content s) = body ++ [c]
               /\ isWhiteSpace c = false).
    { unfold normalizeContent in *. rewrite <- truthy_trim_idem in Hn.
      destruct (trim_last _ Hn) as (t & c & Htc & Hc).
      rewrite trim_idem in Htc. now exists t, c. }
    destruct Hlast as (body & c & Hbody & Hc). rewrite Hbody.
    replace ((repeat HASH (Nat.min (Nat.max 1 (level s)) 6) ++ str " " ++ title s
                ++ [LF; LF]) ++ body ++ [c])
      with ((repeat HASH (Nat.min (Nat.max 1 (level s)) 6) ++ str " " ++ title s
               ++ [LF; LF] ++ body) ++ [c])
      by (now rewrite <- !app_assoc).
    rewrite endsWith_snoc.
    destruct (N.eqb_spec c LF) as [->|_]; [discriminate Hc|].
    cbn [negb]. now rewrite <- !app_assoc.
  - rewrite (normalizeContent_blank (content s) Ht). rewrite !app_nil_r.
    replace (repeat HASH (Nat.min (Nat.max 1 (level s)) 6) ++ str " " ++ title s
               ++ [LF; LF])
      with ((repeat HASH (Nat.min (Nat.max 1 (level s)) 6) ++ str " " ++ title s
               ++ [LF]) ++ [LF])
      by (now rewrite <- !app_assoc).
    rewrite endsWith_snoc. reflexivity.
Qed.

Lemma normalizeContent_last (c : jsstring) :
  truthy (trim c) = true ->
  exists body x, normalizeContent c = body ++ [x] /\ isWhiteSpace x = false.
Proof.
  intros Ht. pose proof (normalizeContent_truthy c Ht) as Hn.
  unfold normalizeContent in *. rewrite <- truthy_trim_idem in Hn.
  destruct (trim_last _ Hn) as (t & x & Htx & Hx).
  rewrite trim_idem in Htx. now exists t, x.
Qed.

Lemma extractSectionsFromTab_sameOwn (t t' : Tab) (i : nat)
  (dt : option jsstring) :
  sameOwn t t' -> extractSectionsFromTab t i dt = extractSectionsFromTab t' i dt.
Proof.
  intros (Hp & Hd & Hb).
  unfold extractSectionsFromTab, tabBody, effectiveTabName, tabTitle.
  now rewrite Hp, Hd, Hb.
Qed.

Lemma tabsLoop_sameOwn (dt : option jsstring) (l l' : list Tab) :
  Forall2 sameOwn l l' -> forall i, tabsLoop dt i l = tabsLoop dt i l'.
Proof.
  induction 1 as [|t t' l l' Ht _ IH]; intros i; simpl; [reflexivity|].
  now rewrite (extractSectionsFromTab_sameOwn t t' i dt Ht), IH.
Qed.

Lemma collectTabs_flattened (ts : list Tab) :
  Forall2 sameOwn (collectTabs (map flattenedTab ts)) (collectTabs ts).
Proof.
  induction ts as [|t ts IH]; simpl; [constructor|].
  constructor; [destruct t; repeat split|].
  apply Forall2_app; [|exact IH].
  destruct t as [tp dt tb [children|]]; simpl; [|constructor].
  induction children as [|c children IHc]; simpl; constructor; auto.
  destruct c; repeat split.
Qed.

End DocumentSections.

(** X10: every section extracted from a document has a title and a parent
    tab that are not empty, a level from 1 to 6 and content that is not
    blank. *)
Theorem document_sections_are_well_formed (doc : GoogleDoc) (s : Section) :
  In s (extractSectionsFromGoogleDoc doc) ->
  title s <> []
  /\ parentTab s <> []
  /\ 1 <= level s <= 6
  /\ truthy (trim (content s)) = true
  /\ sourceDocument s = None.
Proof. apply document_sections_ok. Qed.

Lemma document_sections_are_well_formed_witness :
  title (newSection (str "Overview") (str "First" ++ [LF]) 1 (str "Untitled")) <> []
  /\ parentTab (newSection (str "Overview") (str "First" ++ [LF]) 1 (str "Untitled"))
     <> []
  /\ 1 <= 1 <= 6
  /\ truthy (trim (str "First" ++ [LF])) = true
  /\ sourceDocument (newSection (str "Overview") (str "First" ++ [LF]) 1 (str "Untitled"))
     = None.
Proof.
  apply (document_sections_are_well_formed (scenarioD_document "Overview" "First")
           (newSection (str "Overview") (str "First" ++ [LF]) 1 (str "Untitled"))).
  left. reflexivity.
Defined.

(** X11: the page of a section extracted from a document is one '#' per
    level (1 to 6), a space, the title, a blank line, and the cleaned content,
    which ends in a unit that is not white space, followed by one newline:
    the page ends in exactly one newline. *)
Theorem document_pages_end_in_one_newline (doc : GoogleDoc) (s : Section) :
  In s (extractSectionsFromGoogleDoc doc) ->
  exists body c,
    page_content (createNotionPageFromSection s) =
      repeat HASH (level s) ++ str " " ++ title s ++ [LF; LF] ++ body ++ [c; LF]
    /\ normalizeContent (content s) = body ++ [c]
    /\ isWhiteSpace c = false
    /\ 1 <= level s <= 6.
Proof.
  intros Hin.
  destruct (document_sections_ok doc s Hin) as (_ & _ & Hlevel & Hcontent & _).
  destruct (normalizeContent_last (content s) Hcontent) as (body & c & Hbody & Hc).
  exists body, c. repeat split; auto; try lia.
  rewrite createNotionPageFromSection_content, Hcontent, Hbody.
  replace (Nat.min (Nat.max 1 (level s)) 6) with (level s) by lia.
  now rewrite <- !app_assoc.
Qed.

Lemma document_pages_end_in_one_newline_witness :
  exists body c,
    page_content
      (createNotionPageFromSection
         (newSection (str "Overview") (str "First" ++ [LF]) 1 (str "Untitled"))) =
      repeat HASH 1 ++ str " " ++ str "Overview" ++ [LF; LF] ++ body ++ [c; LF]
    /\ normalizeContent (str "First" ++ [LF]) = body ++ [c]
    /\ isWhiteSpace c = false
    /\ 1 <= 1 <= 6.
Proof.
  apply (document_pages_end_in_one_newline (scenarioD_document "Overview" "First")
           (newSection (str "Overview") (str "First" ++ [LF]) 1 (str "Untitled"))).
  left. reflexivity.
Defined.

(** X12: only the main tabs and their child tabs are read. The child tabs
    of a child tab never contribute: a document gives the same sections when
    they are taken away; and the body of a document that has tabs is not
    read. *)
Theorem deeper_tabs_are_not_read (doc : GoogleDoc) :
  extractSectionsFromGoogleDoc
    {| doc_title := doc_title doc;
       tabs := option_map (map flattenedTab) (tabs doc);
       doc_body := doc_body doc |}
  = extractSectionsFromGoogleDoc doc
  /\ forall t ts b,
       tabs doc = Some (t :: ts) ->
       extractSectionsFromGoogleDoc
         {| doc_title := doc_title doc; tabs := tabs doc; doc_body := b |}
       = extractSectionsFromGoogleDoc doc.
Proof.
  split.
  - unfold extractSectionsFromGoogleDoc. cbn [tabs doc_title doc_body].
    destruct (tabs doc) as [[|t ts]|]; try reflexivity.
    cbn [option_map map].
    change (flattenedTab t :: map flattenedTab ts) with (map flattenedTab (t :: ts)).
    apply tabsLoop_sameOwn, collectTabs_flattened.
  - intros t ts b Ht. unfold extractSectionsFromGoogleDoc. cbn [tabs doc_title].
    now rewrite Ht.
Qed.

(** ** Page renderer: what the clean-up keeps and what it leaves *)

Section CleanUpFacts.

Lemma textOf_whiteSpace (s : jsstring) :
  forallb isWhiteSpace s = true -> textOf s = [].
Proof. apply textOf_blank. Qed.

Lemma textOf_trim (s : jsstring) : textOf (trim s) = textOf s.
Proof.
  destruct (trim_split s) as (a & b & Hs & Ha & Hb).
  rewrite Hs at 2. rewrite !textOf_app, (textOf_whiteSpace a Ha),
    (textOf_whiteSpace b Hb). now rewrite app_nil_r.
Qed.

Lemma collapseRuns_text (p : char -> bool) (n : nat) (rep : jsstring) :
  (forall c, p c = true -> isWhiteSpace c = true) ->
  forallb isWhiteSpace rep = true ->
  forall s run,
    forallb p run = true ->
    textOf (collapseRuns p n rep run s) = textOf s.
Proof.
  intros Hp Hrep.
  assert (Hflush : forall run, forallb p run = true ->
                               textOf (flushRun n rep run) = []).
  { intros run Hrun. unfold flushRun. destruct (n <=? List.length run).
    - now apply textOf_whiteSpace.
    - apply textOf_whiteSpace. apply forallb_forall. intros c Hc.
      rewrite forallb_forall in Hrun. auto. }
  induction s as [|c s IH]; intros run Hrun; simpl.
  - now apply Hflush.
  - destruct (p c) eqn:Hc.
    + rewrite IH by (now rewrite forallb_app, Hrun; simpl; rewrite Hc).
      unfold textOf. simpl. now rewrite (Hp c Hc).
    + rewrite textOf_app, (Hflush run Hrun). cbn [app].
      unfold textOf. cbn [filter]. fold (textOf s).
      fold (textOf (collapseRuns p n rep [] s)).
      now rewrite (IH [] eq_refl).
Qed.

Lemma scanPeriods_text (s : jsstring) : textOf (scanPeriods s) = textOf s.
Proof.
  induction s as [|a|a b s IHs IHbs] using pair_induction.
  - reflexivity.
  - reflexivity.
  - cbn [scanPeriods]. destruct (isDot a && isUpper b).
    + change (textOf ([a; SP; b] ++ scanPeriods s) = textOf ([a; b] ++ s)).
      rewrite !textOf_app. f_equal. exact IHs.
    + change (textOf ([a] ++ scanPeriods (b :: s)) = textOf ([a] ++ b :: s)).
      rewrite !textOf_app. f_equal. exact IHbs.
Qed.

Lemma run_is_short (p : char -> bool) (n : nat) (x b : jsstring) :
  forall k,
    x <> [] ->
    forallb p x = true ->
    runsBelow p n k (x ++ b) = true ->
    k + List.length x < n.
Proof.
  induction x as [|c x IH]; intros k Hne Hx Hrun; [contradiction|].
  simpl in *. apply andb_prop in Hx as [Hc Hx]. rewrite Hc in Hrun.
  apply andb_prop in Hrun as [Hlt Hrun]. apply Nat.ltb_lt in Hlt.
  destruct x as [|d x]; [simpl; lia|].
  assert (S k + List.length (d :: x) < n) by (apply IH; auto; discriminate).
  simpl in *. lia.
Qed.

(** Where no run has [n] units, no [n] units of the class stand in a row. *)
Lemma runsBelow_no_run (p : char -> bool) (n : nat) (s a x b : jsstring) :
  runsBelow p n 0 s = true ->
  forallb p x = true ->
  x <> [] ->
  List.length x = n ->
  s <> a ++ x ++ b.
Proof.
  intros Hs Hx Hne Hlen E. rewrite E in Hs.
  apply runsBelow_suffix in Hs.
  pose proof (run_is_short p n x b 0 Hne Hx Hs). lia.
Qed.

Lemma noPeriodCapital_no_pair (s a b : jsstring) (u : char) :
  noPeriodCapital false s = true ->
  isUpper u = true ->
  s <> a ++ [DOT; u] ++ b.
Proof.
  intros Hs Hu E. rewrite E in Hs.
  apply noPeriodCapital_suffix in Hs. simpl in Hs.
  change (isDot DOT) with true in Hs. rewrite Hu in Hs. discriminate.
Qed.

End CleanUpFacts.

(** X13: the clean-up of the page renderer touches white space only: the
    cleaned content has the same units that are not white space, in the same
    order, as the content. *)
Theorem normalizeContent_keeps_text (c : jsstring) :
  textOf (normalizeContent c) = textOf c.
Proof.
  unfold normalizeContent.
  rewrite textOf_trim, collapseBlanks_scan, collapseRuns_text;
    [|exact isBlank_whiteSpace|reflexivity|reflexivity].
  rewrite spaceAfterPeriods_scan, scanPeriods_text.
  rewrite collapseNewlines_scan, collapseRuns_text;
    [|exact isLF_whiteSpace|reflexivity|reflexivity].
  apply textOf_trim.
Qed.

(** X14: the cleaned content has no white space at its ends, nowhere three
    newlines in a row, nowhere a period directly before a capital, and
    nowhere two blanks (space or tab) in a row. *)
Theorem cleaned_content_shape (c : jsstring) :
  trim (normalizeContent c) = normalizeContent c
  /\ (forall a b, normalizeContent c <> a ++ [LF; LF; LF] ++ b)
  /\ (forall a b u, isUpper u = true -> normalizeContent c <> a ++ [DOT; u] ++ b)
  /\ (forall a b x y,
        isBlank x = true -> isBlank y = true ->
        normalizeContent c <> a ++ [x; y] ++ b).
Proof.
  destruct (normalizeContent_normalForm c) as (Htrim & Hnl & Hdot & Hblank).
  split; [exact Htrim|]. split; [|split].
  - intros a b. apply (runsBelow_no_run isLF 3); auto. discriminate.
  - intros a b u Hu. now apply noPeriodCapital_no_pair.
  - intros a b x y Hx Hy. apply (runsBelow_no_run isBlank 2); auto.
    + simpl. now rewrite Hx, Hy.
    + discriminate.
Qed.

Lemma cleaned_content_shape_witness :
  normalizeContent (str "Read this.Then  stop") <> str "Read this" ++ [DOT; 84%N] ++ str "hen stop".
Proof.
  destruct (cleaned_content_shape (str "Read this.Then  stop")) as (_ & _ & Hdot & _).
  apply (Hdot (str "Read this") (str "hen stop") 84%N). reflexivity.
Defined.

(** ** Loading a document *)

(** X15: [processDocumentById] takes the answer of the first of its four
    requests that does not fail: it returns the sections of that document,
    each with the source document set to the given name (or, without one, to
    the title of the document, or to "Document <id>"). It throws only when
    all four requests fail, and then with the error of the last. *)
Theorem first_answer_wins (api : DocsApi) (docId : jsstring)
  (docName : option jsstring) :
  (forall m doc,
     api m docId = Returned doc ->
     (forall m', In m' (methodsBefore m) -> exists e, api m' docId = Thrown e) ->
     processDocumentById api docId docName =
       Returned
         (map (setSourceDocument
                 (orElse docName
                    (orElse (doc_title doc) (str "Document " ++ docId))))
            (extractSectionsFromGoogleDoc doc)))
  /\ (forall e,
        processDocumentById api docId docName = Thrown e
        <-> (forall m', In m' (methodsBefore DocumentsGet) ->
                        exists e', api m' docId = Thrown e')
            /\ api DocumentsGet docId = Thrown e).
Proof.
  split.
  - intros m doc Hm Hbefore. unfold processDocumentById, fetchDocument.
    destruct m; simpl in Hbefore.
    + now rewrite Hm.
    + destruct (Hbefore RequestIncludeTabs) as [e1 ->]; [auto|]. now rewrite Hm.
    + destruct (Hbefore RequestIncludeTabs) as [e1 ->]; [auto|].
      destruct (Hbefore DocumentsGetAllFields) as [e2 ->]; [auto|]. now rewrite Hm.
    + destruct (Hbefore RequestIncludeTabs) as [e1 ->]; [auto|].
      destruct (Hbefore DocumentsGetAllFields) as [e2 ->]; [auto|].
      destruct (Hbefore RequestAllFields) as [e3 ->]; [auto|]. now rewrite Hm.
  - intros e. unfold processDocumentById, fetchDocument. simpl. split.
    + destruct (api RequestIncludeTabs docId) as [d1|e1] eqn:E1; [discriminate|].
      destruct (api DocumentsGetAllFields docId) as [d2|e2] eqn:E2; [discriminate|].
      destruct (api RequestAllFields docId) as [d3|e3] eqn:E3; [discriminate|].
      destruct (api DocumentsGet docId) as [d4|e4] eqn:E4; [discriminate|].
      intros [= <-]. split; [|reflexivity].
      intros m' [<-|[<-|[<-|[]]]]; eauto.
    + intros [Hbefore Hlast].
      destruct (Hbefore RequestIncludeTabs) as [e1 ->]; [auto|].
      destruct (Hbefore DocumentsGetAllFields) as [e2 ->]; [auto|].
      destruct (Hbefore RequestAllFields) as [e3 ->]; [auto|].
      now rewrite Hlast.
Qed.

Lemma first_answer_wins_witness :
  processDocumentById (lastRequestAnswers (scenarioD_document "Overview" "First"))
    (str "doc-1") (Some (str "Alpha"))
  = Returned
      (map (setSourceDocument
              (orElse (Some (str "Alpha"))
                 (orElse (doc_title (scenarioD_document "Overview" "First"))
                    (str "Document " ++ str "doc-1"))))
         (extractSectionsFromGoogleDoc (scenarioD_document "Overview" "First"))).
Proof.
  refine (proj1 (first_answer_wins
                   (lastRequestAnswers (scenarioD_document "Overview" "First"))
                   (str "doc-1") (Some (str "Alpha")))
            DocumentsGet (scenarioD_document "Overview" "First") eq_refl _).
  intros m' Hin. exists {| message := str "bad request" |}.
  destruct Hin as [<-|[<-|[<-|[]]]]; reflexivity.
Defined.

(** X16: a document that loads but holds nothing is an error in
    single-document mode ("No content sections found in the document") and a
    placeholder section under the document's name in folder mode. *)
Theorem empty_document_in_both_modes (api : DocsApi) (today : jsstring)
  (file : DriveFile) (doc : GoogleDoc) :
  fetchDocument api (id file) = Returned doc ->
  extractSectionsFromGoogleDoc doc = [] ->
  processWithGoogleAPI api today (id file) =
    Thrown {| message := str "No content sections found in the document" |}
  /\ documentSections api file =
       [ {| title := name file;
            content :=
              str "This document appears to be empty or contains no recognizable content.";
            level := 1;
            parentTab := str "Document";
            sourceDocument := Some (name file) |} ]
  /\ exists pages,
       processFolderWithGoogleAPI api [file] = Returned pages
       /\ map page_title pages = [name file].
Proof.
  intros Hfetch Hempty.
  assert (Hdoc : documentSections api file = [emptyDocumentSection file]).
  { unfold documentSections, processDocumentById. now rewrite Hfetch, Hempty. }
  split; [|split].
  - unfold processWithGoogleAPI. now rewrite Hfetch, Hempty.
  - exact Hdoc.
  - eexists. split.
    + unfold processFolderWithGoogleAPI, collectAllSections. cbn [List.length Nat.eqb fold_left app].
      rewrite Hdoc. reflexivity.
    + reflexivity.
Qed.

Lemma empty_document_in_both_modes_witness :
  processWithGoogleAPI (lastRequestAnswers emptyDocument) (str "1/2/2026")
    (str "doc-9") =
    Thrown {| message := str "No content sections found in the document" |}.
Proof.
  refine (proj1 (empty_document_in_both_modes (lastRequestAnswers emptyDocument)
                   (str "1/2/2026") {| id := str "doc-9"; name := str "Blank" |}
                   emptyDocument _ _)); reflexivity.
Defined.

(** ** Paragraph text and tables *)

Section ParagraphText.

Lemma fold_left_append {A : Type} (f : jsstring -> A -> jsstring)
  (g : A -> jsstring) :
  (forall acc a, f acc a = acc ++ g a) ->
  forall l acc, fold_left f l acc = acc ++ flat_map g l.
Proof.
  intros Hf l; induction l as [|a l IH]; intros acc; simpl.
  - now rewrite app_nil_r.
  - now rewrite IH, Hf, app_assoc.
Qed.

Lemma extractTextFromParagraph_runs (p : Paragraph) :
  extractTextFromParagraph p = flat_map runText (elementsOf p).
Proof.
  unfold extractTextFromParagraph, elementsOf.
  destruct (elements p) as [els|]; [|reflexivity].
  rewrite (fold_left_append _ runText); [reflexivity|].
  intros acc el. unfold runText.
  destruct (textRun el) as [[[[|c t]|] ts]|]; simpl; now rewrite ?app_nil_r.
Qed.

Lemma extractFormattedTextFromParagraph_runs (p : Paragraph) :
  extractFormattedTextFromParagraph p =
    getBulletInfo p ++ flat_map formattedRun (elementsOf p).
Proof.
  unfold extractFormattedTextFromParagraph, elementsOf.
  destruct (elements p) as [els|]; [|now rewrite app_nil_r].
  apply (fold_left_append _ formattedRun).
  intros acc el. unfold formattedRun.
  destruct (textRun el) as [[[[|c t]|] [st|]]|]; simpl; now rewrite ?app_nil_r.
Qed.

Lemma flat_map_map {A B C : Type} (f : B -> list C) (g : A -> B) (l : list A) :
  flat_map f (map g l) = flat_map (fun a => f (g a)) l.
Proof. induction l as [|a l IH]; simpl; [reflexivity|now rewrite IH]. Qed.

Lemma extractTextFromParagraph_plain (p : Paragraph) :
  extractTextFromParagraph (plainParagraph p) = extractTextFromParagraph p.
Proof.
  rewrite !extractTextFromParagraph_runs. unfold elementsOf, plainParagraph.
  cbn [elements]. destruct (elements p) as [els|]; [|reflexivity].
  cbn [option_map]. rewrite flat_map_map. apply flat_map_ext.
  intros el. unfold runText, plainElement.
  destruct (textRun el) as [[[[|c t]|] ts]|]; reflexivity.
Qed.

Lemma extractFormattedTextFromParagraph_plain (p : Paragraph) :
  extractFormattedTextFromParagraph (plainParagraph p) = extractTextFromParagraph p.
Proof.
  rewrite extractFormattedTextFromParagraph_runs, extractTextFromParagraph_runs.
  unfold elementsOf, plainParagraph, getBulletInfo. cbn [elements bullet app].
  destruct (elements p) as [els|]; [|reflexivity].
  cbn [option_map]. rewrite flat_map_map. apply flat_map_ext.
  intros el. unfold runText, formattedRun, plainElement.
  destruct (textRun el) as [[[[|c t]|] ts]|]; reflexivity.
Qed.

Lemma renderCell_plain (c : TableCell) : renderCell (plainCell c) = renderCell c.
Proof.
  unfold renderCell, plainCell. cbn [cell_content].
  destruct (cell_content c) as [els|]; [|reflexivity].
  cbn [option_map].
  set (g := fun el => match el with
                      | ElemParagraph p => extractTextFromParagraph p
                      | _ => []
                      end).
  rewrite !(fold_left_append _ g);
    try (intros acc [p|t|]; unfold g; now rewrite ?app_nil_r).
  cbn [app]. rewrite flat_map_map.
  replace (flat_map (fun a => g (plainCellElement a)) els) with (flat_map g els);
    [reflexivity|].
  apply flat_map_ext.
  intros [p|t|]; unfold g; simpl; auto using extractTextFromParagraph_plain.
Qed.

Lemma renderRow_plain (i : nat) (r : TableRow) :
  renderRow i (plainRow r) = renderRow i r.
Proof.
  unfold renderRow, plainRow. cbn [tableCells].
  destruct (tableCells r) as [cells|]; [|reflexivity].
  cbn [option_map]. rewrite length_map. f_equal.
  rewrite !fold_left_app_flat_map, flat_map_map. f_equal.
  apply flat_map_ext. intros c. apply renderCell_plain.
Qed.

Lemma renderRows_plain (rows : list TableRow) :
  forall i, renderRows i (map plainRow rows) = renderRows i rows.
Proof.
  induction rows as [|r rows IH]; intros i; simpl; [reflexivity|].
  now rewrite renderRow_plain, IH.
Qed.

Lemma bullet_marker_not_blank (p : Paragraph) :
  bullet p <> None -> truthy (trim (getBulletInfo p)) = true.
Proof.
  unfold getBulletInfo. destruct (bullet p) as [b|]; [|congruence].
  intros _. rewrite truthy_trim. apply negb_true_iff.
  destruct (match listProperties b with
            | Some {| list_type := Some t |} => eqb t (str "ORDERED")
            | _ => false
            end).
  - apply (unit_nonblank _ DOT); [|reflexivity].
    apply in_or_app. right. simpl. auto.
  - apply (unit_nonblank _ HYPHEN); [|reflexivity].
    apply in_or_app. right. simpl. auto.
Qed.

End ParagraphText.

(** X17: inside a table only the plain text of the runs counts. A table
    renders to the same markdown when every paragraph in its cells loses its
    text styles, list marker and named style, and when anything in a cell
    that is not a paragraph (a table inside the cell) is taken away; and the
    formatted text of a paragraph so stripped is its plain text. *)
Theorem tables_render_plain_text (t : Table) :
  extractTableFromElement (plainTable t) = extractTableFromElement t
  /\ forall p,
       extractFormattedTextFromParagraph (plainParagraph p)
       = extractTextFromParagraph p.
Proof.
  split; [|exact extractFormattedTextFromParagraph_plain].
  unfold extractTableFromElement, plainTable. cbn [tableRows].
  destruct (tableRows t) as [rows|]; [|reflexivity].
  cbn [option_map]. apply renderRows_plain.
Qed.

(** X18: a paragraph of a list is never passed over: its formatted text
    starts with the list marker (two spaces per nesting level, then "1. " or
    "- "), so it is not blank, whatever its runs hold. *)
Theorem list_items_are_never_skipped (p : Paragraph) (b : Bullet) :
  bullet p = Some b ->
  exists marker rest,
    extractFormattedTextFromParagraph p = marker ++ rest
    /\ marker = getBulletInfo p
    /\ (marker =
          List.concat
            (List.repeat (str "  ")
               (match nestingLevel b with Some n => n | None => 0 end))
          ++ str "1. "
        \/ marker =
             List.concat
               (List.repeat (str "  ")
                  (match nestingLevel b with Some n => n | None => 0 end))
             ++ str "- ")
    /\ isSkipped (ElemParagraph p) = false.
Proof.
  intros Hb.
  exists (getBulletInfo p), (flat_map formattedRun (elementsOf p)).
  split; [apply extractFormattedTextFromParagraph_runs|].
  split; [reflexivity|]. split.
  - unfold getBulletInfo. rewrite Hb.
    destruct (match listProperties b with
              | Some {| list_type := Some t |} => eqb t (str "ORDERED")
              | _ => false
              end); auto.
  - cbn [isSkipped]. rewrite extractFormattedTextFromParagraph_runs.
    rewrite truthy_trim_app_l; [reflexivity|].
    apply bullet_marker_not_blank. congruence.
Qed.

Lemma list_items_are_never_skipped_witness :
  isSkipped
    (ElemParagraph
       {| elements := Some [plainRun [LF]];
          paragraphStyle := None;
          bullet := Some {| listProperties := None; nestingLevel := Some 1 |} |})
  = false.
Proof.
  destruct (list_items_are_never_skipped
              {| elements := Some [plainRun [LF]];
                 paragraphStyle := None;
                 bullet := Some {| listProperties := None; nestingLevel := Some 1 |} |}
              {| listProperties := None; nestingLevel := Some 1 |} eq_refl)
    as (marker & rest & _ & _ & _ & H).
  exact H.
Defined.

(** ** Folder mode: its only error *)

(** X19: from the listing of the folder to the pages, folder mode fails in
    one case only, the folder without documents; the later check for "No
    content sections found in any of the documents" never fires. *)
Theorem folder_mode_fails_only_on_empty_folder (api : DocsApi)
  (docs : list DriveFile) (e : JsError) :
  processFolderWithGoogleAPI api docs = Thrown e
  <-> docs = []
      /\ e = {| message := str "No Google Docs found in the specified folder" |}.
Proof.
  unfold processFolderWithGoogleAPI. split.
  - destruct docs as [|d docs].
    + cbn [List.length Nat.eqb]. intros [= <-]. now split.
    + cbn [List.length Nat.eqb]. rewrite collectAllSections_flat_map.
      pose proof (flat_map_length_ge (documentSections api) (d :: docs)
                    (documentSections_not_nil api)) as Hlen.
      destruct (flat_map (documentSections api) (d :: docs)) as [|s l].
      * simpl in Hlen. lia.
      * cbn [List.length Nat.eqb]. discriminate.
  - intros [-> ->]. reflexivity.
Qed.

(** ** Section segmenter: where titles and levels come from *)

Section Provenance.

Variable parent : jsstring.

Lemma fold_left_invariant_In {A B : Type} (f : A -> B -> A) (I : A -> Prop)
  (l : list B) :
  (forall a b, In b l -> I a -> I (f a b)) ->
  forall a, I a -> I (fold_left f l a).
Proof.
  induction l as [|b l IH]; intros Hf a Ha; simpl; [exact Ha|].
  apply IH.
  - intros a' b' Hb'. apply Hf. now right.
  - apply Hf; [now left|exact Ha].
Qed.

Lemma segmentElement_origin (els : list StructuralElement) (st : SegState)
  (el : StructuralElement) :
  In el els ->
  Forall (fromLabelOrHeading parent els) (sections st)
  /\ (forall cs, currentSection st = Some cs -> fromLabelOrHeading parent els cs) ->
  Forall (fromLabelOrHeading parent els) (sections (segmentElement parent st el))
  /\ (forall cs, currentSection (segmentElement parent st el) = Some cs ->
                 fromLabelOrHeading parent els cs).
Proof.
  intros Hin [Hs Hc].
  assert (Hpush : Forall (fromLabelOrHeading parent els)
                    (pushCurrent (sections st) (currentSection st))).
  { unfold pushCurrent. destruct (currentSection st) as [cs|]; [|exact Hs].
    destruct (truthy (trim (content cs))); [|exact Hs].
    apply Forall_app. split; [exact Hs|]. constructor; [now apply Hc|constructor]. }
  assert (Hdefault : forall c, fromLabelOrHeading parent els (newSection parent c 1 parent)).
  { intros c. left. split; reflexivity. }
  destruct el as [p|t|]; simpl; [| |now split].
  - destruct (truthy (trim (extractFormattedTextFromParagraph p))) eqn:Ht; simpl;
      [|now split].
    destruct (0 <? getHeadingLevel p) eqn:Hl; simpl.
    + split; [exact Hpush|]. intros cs [= <-]. right. exists p.
      unfold isHeading. rewrite Hl, Ht. repeat split. exact Hin.
    + destruct (currentSection st) as [cs|]; simpl; (split; [exact Hs|]);
        intros cs' [= <-]; [exact (Hc cs eq_refl)|apply Hdefault].
  - destruct (currentSection st) as [cs|]; simpl; (split; [exact Hs|]);
      intros cs' [= <-]; [exact (Hc cs eq_refl)|apply Hdefault].
Qed.

Lemma traversalSections_origin (els : list StructuralElement) :
  Forall (fromLabelOrHeading parent els) (traversalSections parent els).
Proof.
  unfold traversalSections, segmentLoop.
  assert (H : Forall (fromLabelOrHeading parent els)
                (sections (fold_left (segmentElement parent) els initialState))
              /\ (forall cs,
                    currentSection
                      (fold_left (segmentElement parent) els initialState) = Some cs ->
                    fromLabelOrHeading parent els cs)).
  { apply (fold_left_invariant_In (segmentElement parent)
             (fun st => Forall (fromLabelOrHeading parent els) (sections st)
                        /\ (forall cs, currentSection st = Some cs ->
                                       fromLabelOrHeading parent els cs))).
    - intros st el Hin. now apply segmentElement_origin.
    - split; [constructor|]. intros cs H. discriminate. }
  destruct H as [Hs Hc]. unfold pushCurrent.
  destruct (currentSection _) as [cs|]; [|exact Hs].
  destruct (truthy (trim (content cs))); [|exact Hs].
  apply Forall_app. split; [exact Hs|]. constructor; [now apply Hc|constructor].
Qed.

Lemma extractSectionsFromBody_not_nil (els : list StructuralElement) :
  truthy (trim (seenContent els)) = true ->
  extractSectionsFromBody (bodyOf els) parent <> [].
Proof.
  intros E H. unfold extractSectionsFromBody, bodyOf in H.
  fold (traversalSections parent els) in H. rewrite segmentLoop_allContent in H.
  destruct (renameSingleTab_shape parent
              (addFallback parent (traversalSections parent els) (seenContent els)))
    as (Hlen & _ & _).
  rewrite H in Hlen. unfold addFallback in Hlen. rewrite E in Hlen.
  destruct (traversalSections parent els); simpl in Hlen; discriminate.
Qed.

Lemma renderRows_bar (rows : list TableRow) (i : nat) :
  rows <> [] -> In 124%N (renderRows i rows).
Proof.
  destruct rows as [|r rows]; [contradiction|]. intros _. simpl.
  apply in_or_app. left. unfold renderRow. apply in_or_app. left.
  destruct (tableCells r) as [cells|]; [|now left].
  rewrite fold_left_app_flat_map. now left.
Qed.

End Provenance.

(** X20: the title and the level of every section come from the body or the
    label: a section has the label as its title and level 1, or the trimmed
    text and the heading level of a heading paragraph of the body, or (when it
    is the only one and was titled like a label "Tab ...") the label turned
    into "Document ...". *)
Theorem titles_come_from_headings_or_label (parent : jsstring)
  (els : list StructuralElement) (s : Section) :
  In s (extractSectionsFromBody (bodyOf els) parent) ->
  (title s = parent /\ level s = 1)
  \/ title s = relabel parent
  \/ exists p,
       In (ElemParagraph p) els
       /\ isHeading p = true
       /\ title s = trim (extractFormattedTextFromParagraph p)
       /\ level s = getHeadingLevel p.
Proof.
  unfold extractSectionsFromBody, bodyOf.
  fold (traversalSections parent els). rewrite segmentLoop_allContent.
  pose proof (traversalSections_origin parent els) as Horigin.
  assert (Hall : Forall (fromLabelOrHeading parent els)
                   (addFallback parent (traversalSections parent els)
                      (seenContent els))).
  { unfold addFallback. destruct (_ && _); [|exact Horigin].
    apply Forall_app. split; [exact Horigin|].
    constructor; [|constructor]. left. split; reflexivity. }
  pose proof (traversalSections_shapeOk parent els) as Hshape.
  assert (Hshape' : Forall (shapeOk parent)
                      (addFallback parent (traversalSections parent els)
                         (seenContent els))).
  { unfold addFallback. destruct (_ && _); [|exact Hshape].
    apply Forall_app. split; [exact Hshape|].
    constructor; [apply newSection_default_shapeOk|constructor]. }
  revert Hall Hshape'.
  generalize (addFallback parent (traversalSections parent els) (seenContent els)).
  intros secs Hall Hshape' Hin. unfold renameSingleTab in Hin.
  assert (Hkeep : In s secs ->
                  (title s = parent /\ level s = 1)
                  \/ title s = relabel parent
                  \/ exists p,
                       In (ElemParagraph p) els
                       /\ isHeading p = true
                       /\ title s = trim (extractFormattedTextFromParagraph p)
                       /\ level s = getHeadingLevel p).
  { intros H. rewrite Forall_forall in Hall.
    destruct (Hall s H) as [Hl|Hh]; [now left|now right; right]. }
  destruct secs as [|s0 [|s1 l]]; auto.
  destruct (eqb (title s0) parent && startsWith parent (str "Tab ")) eqn:E; auto.
  destruct Hin as [<-|[]]. right; left. cbn [title].
  apply andb_prop in E as [_ Hstart].
  inversion Hshape' as [|x l' (_ & _ & Hsrc & _) _]; subst.
  rewrite Hsrc. cbn [orElse]. unfold relabel. rewrite Hstart.
  apply (replace_prefix (str "Tab ") (str "Document ") parent Hstart).
Qed.

Lemma titles_come_from_headings_or_label_witness :
  (title (newSection (str "Details") (str "More info" ++ [LF]) 2 (str "My Doc"))
     = str "My Doc"
   /\ level (newSection (str "Details") (str "More info" ++ [LF]) 2 (str "My Doc")) = 1)
  \/ title (newSection (str "Details") (str "More info" ++ [LF]) 2 (str "My Doc"))
     = relabel (str "My Doc")
  \/ exists p,
       In (ElemParagraph p) scenarioA
       /\ isHeading p = true
       /\ title (newSection (str "Details") (str "More info" ++ [LF]) 2 (str "My Doc"))
          = trim (extractFormattedTextFromParagraph p)
       /\ level (newSection (str "Details") (str "More info" ++ [LF]) 2 (str "My Doc"))
          = getHeadingLevel p.
Proof.
  apply (titles_come_from_headings_or_label (str "My Doc") scenarioA
           (newSection (str "Details") (str "More info" ++ [LF]) 2 (str "My Doc"))).
  right; right; left. reflexivity.
Defined.

(** X21: a table with at least one row never renders to something blank,
    even when all its cells are empty; so a body that holds such a table
    always yields a section. *)
Theorem tables_with_rows_make_sections (t : Table) (r : TableRow)
  (rows : list TableRow) :
  tableRows t = Some (r :: rows) ->
  truthy (trim (extractTableFromElement t)) = true
  /\ forall els parent,
       In (ElemTable t) els ->
       extractSectionsFromBody (bodyOf els) parent <> [].
Proof.
  intros Hrows.
  assert (Ht : truthy (trim (extractTableFromElement t)) = true).
  { rewrite truthy_trim. apply negb_true_iff.
    apply (unit_nonblank _ 124%N); [|reflexivity].
    unfold extractTableFromElement. rewrite Hrows.
    apply renderRows_bar. discriminate. }
  split; [exact Ht|].
  intros els parent Hin. apply extractSectionsFromBody_not_nil.
  apply in_split in Hin as (a & b & ->).
  unfold seenContent. rewrite flat_map_app. cbn [flat_map elementContent].
  apply truthy_trim_app_r. rewrite <- !app_assoc.
  now apply truthy_trim_app_l.
Qed.

Lemma tables_with_rows_make_sections_witness :
  extractSectionsFromBody
    (bodyOf [ElemTable (MkTable (Some [MkTableRow (Some [MkTableCell None])]))])
    (str "Doc") <> [].
Proof.
  refine (proj2 (tables_with_rows_make_sections
                   (MkTable (Some [MkTableRow (Some [MkTableCell None])]))
                   (MkTableRow (Some [MkTableCell None])) [] eq_refl)
            [ElemTable (MkTable (Some [MkTableRow (Some [MkTableCell None])]))]
            (str "Doc") _).
  left. reflexivity.
Defined.

(** ** Files of a folder *)

Section FolderFiles.

Variable notAFunction : JsError.
Variable today : jsstring.

Lemma existsb_eqb_In (k : jsstring) (l : list jsstring) :
  existsb (eqb k) l = true <-> In k l.
Proof.
  rewrite existsb_exists. split.
  - intros [x [Hin Hx]]. destruct (eqb_spec k x); [now subst|discriminate].
  - intros Hin. exists k. split; [exact Hin|apply eqb_refl].
Qed.

Lemma eqb_sym (a b : jsstring) : eqb a b = eqb b a.
Proof.
  destruct (eqb_spec a b) as [->|Hab].
  - now rewrite eqb_refl.
  - symmetry. apply eqb_neq. congruence.
Qed.

Lemma fold_groupPage_thrown (pages : list NotionPage) (e : JsError) :
  fold_left (groupPage notAFunction) pages (Thrown e) = Thrown e.
Proof. induction pages as [|p pages IH]; simpl; auto. Qed.

Lemma getOwn_In (k : jsstring) (g : Groups) (v : list NotionPage) :
  getOwn k g = Some v -> In k (map fst g).
Proof.
  induction g as [|[k' v'] g IH]; simpl; [discriminate|].
  destruct (eqb_spec k' k) as [->|_]; [now left|].
  intros H. right. now apply IH.
Qed.

Lemma pushOwn_keys (k : jsstring) (page : NotionPage) (g : Groups) :
  map fst (pushOwn k page g) = map fst g.
Proof.
  induction g as [|[k' v'] g IH]; simpl; [reflexivity|].
  destruct (eqb k' k); simpl; [reflexivity|now rewrite IH].
Qed.

(** No own property of [documentGroups] has an inherited name; and the loop
    throws exactly at a titled page of a source with such a name. *)
Lemma fold_groupPage_outcome (pages : list NotionPage) :
  forall g,
    (forall k, In k (map fst g) -> ~ In k objectPrototypeNames) ->
    match fold_left (groupPage notAFunction) pages (Returned g) with
    | Thrown e =>
        e = notAFunction
        /\ exists page,
             In page pages /\ hasNoTitle page = false
             /\ In (sourceOf page) objectPrototypeNames
    | Returned g' =>
        forall page,
          In page pages -> hasNoTitle page = false ->
          ~ In (sourceOf page) objectPrototypeNames
    end.
Proof.
  induction pages as [|p pages IH]; intros g Hg.
  - simpl. intros page [].
  - cbn [fold_left]. unfold groupPage at 2.
    assert (Hlift : forall g',
               (forall k, In k (map fst g') -> ~ In k objectPrototypeNames) ->
               (hasNoTitle p = false -> ~ In (sourceOf p) objectPrototypeNames) ->
               match fold_left (groupPage notAFunction) pages (Returned g') with
               | Thrown e =>
                   e = notAFunction
                   /\ exists page,
                        In page (p :: pages) /\ hasNoTitle page = false
                        /\ In (sourceOf page) objectPrototypeNames
               | Returned _ =>
                   forall page,
                     In page (p :: pages) -> hasNoTitle page = false ->
                     ~ In (sourceOf page) objectPrototypeNames
               end).
    { intros g' Hg' Hp. specialize (IH g' Hg').
      destruct (fold_left (groupPage notAFunction) pages (Returned g')).
      - intros page [<-|Hin]; [exact Hp|now apply IH].
      - destruct IH as [He (page & Hin & Ht & Hs)].
        split; [exact He|]. exists page. split; [now right|now split]. }
    destruct (hasNoTitle p) eqn:Ht.
    + apply Hlift; [exact Hg|discriminate].
    + destruct (getOwn (sourceOf p) g) as [v|] eqn:Hown.
      * apply Hlift.
        -- now rewrite pushOwn_keys.
        -- intros _. apply Hg. now apply (getOwn_In _ _ v).
      * destruct (existsb (eqb (sourceOf p)) objectPrototypeNames) eqn:Hproto.
        -- rewrite fold_groupPage_thrown. split; [reflexivity|].
           exists p. split; [now left|]. split; [exact Ht|].
           now apply existsb_eqb_In.
        -- assert (Hnot : ~ In (sourceOf p) objectPrototypeNames).
           { intros H. apply existsb_eqb_In in H. congruence. }
           apply Hlift; [|now intros _].
           intros k Hk. rewrite map_app in Hk.
           apply in_app_or in Hk as [Hk|[<-|[]]]; auto.
Qed.

(** *** Grouping by source *)

Lemma distinct_In (k : jsstring) (l : list jsstring) :
  In k (distinct l) <-> In k l.
Proof.
  induction l as [|x l IH]; simpl; [tauto|].
  rewrite filter_In, IH. split.
  - intros [H|[H _]]; auto.
  - intros [H|H]; [now left|].
    destruct (eqb_spec k x) as [->|Hkx]; [now left|]. right. split; [exact H|].
    reflexivity.
Qed.

Lemma existsb_distinct (k : jsstring) (l : list jsstring) :
  existsb (eqb k) (distinct l) = existsb (eqb k) l.
Proof.
  apply eq_true_iff_eq. now rewrite !existsb_eqb_In, distinct_In.
Qed.

Lemma distinct_NoDup (l : list jsstring) : NoDup (distinct l).
Proof.
  induction l as [|x l IH]; simpl; constructor.
  - rewrite filter_In. intros [_ H]. now rewrite eqb_refl in H.
  - now apply NoDup_filter.
Qed.

Lemma distinct_snoc (l : list jsstring) (k : jsstring) :
  distinct (l ++ [k]) =
    if existsb (eqb k) l then distinct l else distinct l ++ [k].
Proof.
  induction l as [|x l IH]; simpl; [reflexivity|].
  rewrite IH. destruct (eqb_spec k x) as [->|Hkx]; simpl.
  - destruct (existsb (eqb x) l); [reflexivity|].
    rewrite filter_app. simpl. rewrite eqb_refl. simpl. now rewrite app_nil_r.
  - destruct (existsb (eqb k) l); [reflexivity|].
    rewrite filter_app. simpl. now rewrite (eqb_neq k x Hkx).
Qed.

Lemma getOwn_map (F : jsstring -> list NotionPage) (k : jsstring)
  (srcs : list jsstring) :
  getOwn k (map (fun src => (src, F src)) srcs) =
    if existsb (eqb k) srcs then Some (F k) else None.
Proof.
  induction srcs as [|x srcs IH]; cbn [map getOwn existsb]; [reflexivity|].
  rewrite (eqb_sym k x). destruct (eqb_spec x k) as [->|_]; [reflexivity|].
  exact IH.
Qed.

Lemma pushOwn_map (F : jsstring -> list NotionPage) (k : jsstring)
  (page : NotionPage) (srcs : list jsstring) :
  NoDup srcs ->
  pushOwn k page (map (fun src => (src, F src)) srcs) =
    map (fun src => (src, if eqb src k then F src ++ [page] else F src)) srcs.
Proof.
  induction 1 as [|x srcs Hx Hnd IH]; simpl; [reflexivity|].
  destruct (eqb_spec x k) as [->|Hxk].
  - f_equal. apply map_ext_in. intros src Hsrc.
    destruct (eqb_spec src k) as [->|_]; [contradiction|reflexivity].
  - now rewrite IH.
Qed.

Lemma titledPages_snoc (l : list NotionPage) (p : NotionPage) :
  titledPages (l ++ [p]) =
    if hasNoTitle p then titledPages l else titledPages l ++ [p].
Proof.
  unfold titledPages. rewrite filter_app. simpl.
  destruct (hasNoTitle p); simpl; [now rewrite app_nil_r|reflexivity].
Qed.

Lemma pagesOf_other (src : jsstring) (l : list NotionPage) :
  ~ In src (map sourceOf (titledPages l)) -> pagesOf src l = [].
Proof.
  unfold pagesOf. induction (titledPages l) as [|q T IH]; simpl; [reflexivity|].
  intros H. destruct (eqb_spec (sourceOf q) src) as [E|_].
  - exfalso. apply H. now left.
  - apply IH. intros Hin. apply H. now right.
Qed.

(** One pass of the loop adds the page to the group of its source. *)
Lemma groupPage_groupBySource (l : list NotionPage) (p : NotionPage) :
  (hasNoTitle p = false -> ~ In (sourceOf p) objectPrototypeNames) ->
  groupPage notAFunction (Returned (groupBySource l)) p =
    Returned (groupBySource (l ++ [p])).
Proof.
  intros Hp. unfold groupPage, groupBySource, pagesOf.
  rewrite titledPages_snoc.
  destruct (hasNoTitle p) eqn:Ht; [reflexivity|].
  set (T := titledPages l).
  rewrite (getOwn_map (fun src => filter (fun page => eqb (sourceOf page) src) T)).
  rewrite (map_app sourceOf T [p]). cbn [map].
  rewrite distinct_snoc, existsb_distinct.
  destruct (existsb (eqb (sourceOf p)) (map sourceOf T)) eqn:Hseen.
  - rewrite pushOwn_map by apply distinct_NoDup. f_equal.
    apply map_ext. intros src. f_equal. rewrite filter_app. cbn [filter].
    rewrite (eqb_sym src). destruct (eqb (sourceOf p) src); [reflexivity|].
    now rewrite app_nil_r.
  - assert (Hnew : ~ In (sourceOf p) (map sourceOf T)).
    { intros H. apply existsb_eqb_In in H. congruence. }
    destruct (existsb (eqb (sourceOf p)) objectPrototypeNames) eqn:Hproto.
    { exfalso. apply (Hp eq_refl). now apply existsb_eqb_In. }
    f_equal. rewrite map_app. cbn [map]. f_equal.
    + apply map_ext_in. intros src Hsrc. f_equal.
      rewrite filter_app. cbn [filter].
      destruct (eqb_spec (sourceOf p) src) as [E|_]; [|now rewrite app_nil_r].
      exfalso. apply Hnew. rewrite E. now apply distinct_In.
    + do 2 f_equal. rewrite filter_app. cbn [filter]. rewrite eqb_refl.
      change (filter (fun page => eqb (sourceOf page) (sourceOf p)) T)
        with (pagesOf (sourceOf p) l).
      now rewrite (pagesOf_other (sourceOf p) l Hnew).
Qed.

Lemma fold_groupPage_groupBySource (pages : list NotionPage) :
  (forall page, In page pages -> hasNoTitle page = false ->
                ~ In (sourceOf page) objectPrototypeNames) ->
  fold_left (groupPage notAFunction) pages (Returned []) =
    Returned (groupBySource pages).
Proof.
  induction pages as [|p l IH] using rev_ind; intros H; [reflexivity|].
  rewrite fold_left_app. cbn [fold_left].
  rewrite IH by (intros page Hin; apply H, in_or_app; now left).
  apply groupPage_groupBySource. apply H, in_or_app. right. now left.
Qed.

Lemma ownKeys_no_index (g : Groups) :
  (forall k, In k (map fst g) -> arrayIndex k = None) -> ownKeys g = g.
Proof.
  unfold ownKeys. intros H.
  assert (Hboth :
            fold_right
              (fun e acc =>
                 match arrayIndex (fst e) with
                 | Some i => insertByIndex i e acc
                 | None => acc
                 end) [] g = []
            /\ filter (fun e => match arrayIndex (fst e) with
                                | Some _ => false
                                | None => true
                                end) g = g).
  { induction g as [|e g IH]; [split; reflexivity|].
    destruct IH as [IHsort IHfilter]; [intros k Hk; apply H; now right|].
    cbn [fold_right filter]. rewrite (H (fst e)) by now left.
    split; [exact IHsort|now rewrite IHfilter]. }
  destruct Hboth as [-> ->]. reflexivity.
Qed.

End FolderFiles.

(** X22: [createMarkdownFilesFromFolder] throws exactly when a page with a
    title comes from a source document named like a property of
    [Object.prototype] ("constructor", "toString", "__proto__", ...): the
    group of such a name is never created, and the call of [push] on the
    inherited value is the TypeError. *)
Theorem folder_files_throw_iff (notAFunction : JsError) (today : jsstring)
  (pages : list NotionPage) (e : JsError) :
  createMarkdownFilesFromFolder notAFunction today pages = Thrown e
  <-> e = notAFunction
      /\ exists page,
           In page pages
           /\ hasNoTitle page = false
           /\ In (sourceOf page) objectPrototypeNames.
Proof.
  unfold createMarkdownFilesFromFolder.
  pose proof (fold_groupPage_outcome notAFunction pages []) as H.
  destruct (fold_left (groupPage notAFunction) pages (Returned [])) as [g|e0].
  - split; [discriminate|].
    intros [_ (page & Hin & Ht & Hs)]. exfalso.
    apply (H (fun k Hk => match Hk with end) page Hin Ht Hs).
  - destruct (H (fun k Hk => match Hk with end)) as [-> Hex].
    split.
    + intros [= <-]. now split.
    + intros [-> _]. reflexivity.
Qed.

Lemma folder_files_throw_iff_witness :
  createMarkdownFilesFromFolder exampleTypeError (str "1/2/2026")
    [folderPage "Intro" "Alpha"; folderPage "Overview" "constructor"]
  = Thrown exampleTypeError.
Proof.
  apply (proj2 (folder_files_throw_iff exampleTypeError (str "1/2/2026")
                  [folderPage "Intro" "Alpha"; folderPage "Overview" "constructor"]
                  exampleTypeError)).
  split; [reflexivity|].
  exists (folderPage "Overview" "constructor").
  split; [right; now left|]. split; [reflexivity|]. left. reflexivity.
Defined.

(** X23: when no titled page comes from a source named like an array index
    or like a property of [Object.prototype], the files of a folder are those
    of its titled pages, grouped by source document: the sources in the order
    of their first page, the pages of a source in page order; the file of a
    page is named "<clean source>--<clean title>.md" and holds the page and
    the footer that names the source. *)
Theorem folder_files_are_grouped_by_source (notAFunction : JsError)
  (today : jsstring) (pages : list NotionPage) :
  (forall page,
     In page pages -> hasNoTitle page = false ->
     arrayIndex (sourceOf page) = None
     /\ ~ In (sourceOf page) objectPrototypeNames) ->
  createMarkdownFilesFromFolder notAFunction today pages =
    Returned
      (flat_map
         (fun src => map (folderFile today src) (pagesOf src pages))
         (distinct (map sourceOf (titledPages pages)))).
Proof.
  intros H. unfold createMarkdownFilesFromFolder.
  rewrite fold_groupPage_groupBySource
    by (intros page Hin Ht; exact (proj2 (H page Hin Ht))).
  rewrite ownKeys_no_index.
  - unfold groupBySource. now rewrite flat_map_map.
  - intros k Hk. unfold groupBySource in Hk. rewrite map_map in Hk. cbn [fst] in Hk.
    rewrite map_id in Hk. apply (proj1 (distinct_In _ _)) in Hk.
    apply in_map_iff in Hk as (page & <- & Hpage).
    unfold titledPages in Hpage. apply filter_In in Hpage as [Hin Ht].
    apply negb_true_iff in Ht. exact (proj1 (H page Hin Ht)).
Qed.

Lemma folder_files_are_grouped_by_source_witness :
  createMarkdownFilesFromFolder exampleTypeError (str "1/2/2026") folderPagesExample
  = Returned
      [ folderFile (str "1/2/2026") (str "Alpha") (folderPage "Intro" "Alpha");
        folderFile (str "1/2/2026") (str "Alpha") (folderPage "Setup" "Alpha");
        folderFile (str "1/2/2026") (str "Beta") (folderPage "Notes" "Beta") ].
Proof.
  apply (folder_files_are_grouped_by_source exampleTypeError (str "1/2/2026")
           folderPagesExample).
  intros page Hin _.
  destruct Hin as [<-|[<-|[<-|[]]]];
    (split; [reflexivity|];
     intros H; simpl in H;
     repeat (destruct H as [H|H]; [discriminate H|]); exact H).
Defined.

(** ** From the folder to its files *)

Lemma trim_head_not_blank (c : char) (s : jsstring) :
  isWhiteSpace c = false -> truthy (trim (c :: s)) = true.
Proof.
  intros Hc. pose proof (textOf_trim (c :: s)) as H.
  destruct (trim (c :: s)) as [|x t]; [|reflexivity].
  unfold textOf in H. simpl in H. rewrite Hc in H. discriminate H.
Qed.

Lemma objectPrototypeNames_titled (k : jsstring) :
  In k objectPrototypeNames -> truthy (trim k) = true /\ k <> [].
Proof.
  intros H. simpl in H.
  repeat (destruct H as [<-|H]; [split; [reflexivity|discriminate]|]).
  destruct H.
Qed.

Lemma titled_section_makes_titled_page (s : Section) :
  truthy (trim (title s)) = true ->
  hasNoTitle (createNotionPageFromSection s) = false.
Proof.
  intros H. unfold hasNoTitle. cbn [createNotionPageFromSection page_title].
  destruct (title s) as [|c t] eqn:E; [discriminate H|].
  cbn [truthy negb orb].
  destruct (trim (c :: t)); [discriminate H|reflexivity].
Qed.

(** X24: the isolation of failures ends at the packaging. When a document
    of the folder is named like a property of [Object.prototype]
    ("constructor", "toString", ...) and leaves a titled section behind (it
    fails to load, or loads empty, or has a section whose title is not
    blank), the whole folder yields no files: the run throws the
    TypeError. *)
Theorem prototype_named_document_breaks_export (api : DocsApi)
  (notAFunction : JsError) (today : jsstring) (docs : list DriveFile)
  (file : DriveFile) :
  In file docs ->
  In (name file) objectPrototypeNames ->
  (exists e, processDocumentById api (id file) (Some (name file)) = Thrown e)
  \/ processDocumentById api (id file) (Some (name file)) = Returned []
  \/ (exists secs s,
        processDocumentById api (id file) (Some (name file)) = Returned secs
        /\ In s secs
        /\ truthy (trim (title s)) = true) ->
  processFolderToFiles api notAFunction today docs = Thrown notAFunction.
Proof.
  intros Hfile Hname Hdoc.
  destruct (objectPrototypeNames_titled _ Hname) as [Htitled Hne].
  assert (exists s, In s (documentSections api file)
                    /\ truthy (trim (title s)) = true) as (s & Hs & Ht).
  { unfold documentSections.
    destruct Hdoc as [[e He]|[He|(secs & s & He & Hin & Ht)]]; rewrite He.
    - exists (errorSection file e). split; [now left|].
      cbn [errorSection title]. apply trim_head_not_blank. reflexivity.
    - exists (emptyDocumentSection file). split; [now left|exact Htitled].
    - exists s. split; [|exact Ht]. destruct secs; [destruct Hin|exact Hin]. }
  assert (sourceDocument s = Some (name file)) as Hsrc.
  { pose proof (documentSections_source api file Hne) as HF.
    rewrite Forall_forall in HF. exact (HF s Hs). }
  assert (In s (collectAllSections api docs)) as Hall.
  { rewrite collectAllSections_flat_map. apply in_flat_map.
    exists file. split; assumption. }
  unfold processFolderToFiles, processFolderWithGoogleAPI.
  destruct docs as [|d docs']; [destruct Hfile|].
  cbn [List.length Nat.eqb].
  destruct (collectAllSections api (d :: docs')) as [|s0 secs] eqn:E;
    [destruct Hall|].
  cbn [List.length Nat.eqb].
  unfold createMarkdownFilesFromFolder, createNotionPagesFromSections.
  pose proof (fold_groupPage_outcome notAFunction
                (map createNotionPageFromSection (s0 :: secs)) []
                (fun k Hk => match Hk with end)) as H.
  destruct (fold_left (groupPage notAFunction)
              (map createNotionPageFromSection (s0 :: secs)) (Returned []))
    as [g|e].
  - exfalso.
    apply (H (createNotionPageFromSection s)).
    + apply in_map. exact Hall.
    + apply titled_section_makes_titled_page. exact Ht.
    + unfold sourceOf. cbn [createNotionPageFromSection page_sourceDocument].
      rewrite Hsrc. unfold orElse.
      destruct (name file); [contradiction|exact Hname].
  - destruct H as [-> _]. reflexivity.
Qed.

Lemma prototype_named_document_breaks_export_witness :
  processFolderToFiles refusingApi exampleTypeError (str "1/2/2026")
    [ {| id := str "doc-1"; name := str "Roadmap" |};
      {| id := str "doc-2"; name := str "constructor" |} ]
  = Thrown exampleTypeError.
Proof.
  apply (prototype_named_document_breaks_export refusingApi exampleTypeError
           (str "1/2/2026") _ {| id := str "doc-2"; name := str "constructor" |}).
  - right. now left.
  - left. reflexivity.
  - left. eexists. reflexivity.
Defined.
